(** * Org-Pilot-Intelligence: record layouts, related lists, dependency and
      process graphs, impact analysis

    A shallow embedding of the metadata console's core logic:

    - [Types]                 the shared data model (types.ts)
    - [Flow]                  the React Flow node and edge objects and the
                              calls the components make on a dagre graph
    - [DiagramEditor]         impact analysis and AI diagram normalisation
    - [AutoDiagram]           process diagrams ([regenerateGraph])
    - [MetadataDictionary]    the dependency explorer
    - [SalesforceService]     record, related-list and layout retrieval
    - [RecordDetailModal]     default layout synthesis and record loading
    - [Samples], [Spec]       concrete data for the examples, and the notions
                              the statements are phrased with

    JavaScript objects used as dictionaries are [gmap string _], [Set<string>]
    is [gset string], arrays are lists, numbers that are coordinates are
    rationals, and a call that may throw returns a [completion]. *)

From Stdlib Require Import QArith.
From stdpp Require Import gmap strings list sorting relations.

Close Scope Q_scope.
Open Scope Z_scope.

Set Warnings "-clear-no-such-hyp".

(** ** JavaScript completions: a call returns normally or throws *)

Module Js.

Inductive completion (A : Type) : Type :=
  | Normal (a : A)
  | Throw (message : string).
Arguments Normal {A} a.
Arguments Throw {A} message.

Definition bind {A B} (c : completion A) (k : A → completion B) : completion B :=
  match c with
  | Normal a => k a
  | Throw m => Throw m
  end.

(** [try { c } catch (e) { h e }] *)
Definition try_catch {A} (c : completion A) (h : string → completion A) : completion A :=
  match c with
  | Normal a => Normal a
  | Throw m => h m
  end.

Global Instance completion_ret : MRet completion := λ A, @Normal A.
Global Instance completion_bind : MBind completion := λ A B k c, bind c k.

(** [v || fallback] on a possibly missing string: the empty string is falsy. *)
Definition or_else (v : option string) (fallback : string) : string :=
  match v with
  | Some text => if decide (text = EmptyString) then fallback else text
  | None => fallback
  end.

(** [Array.prototype.join] *)
Definition join (sep : string) (parts : list string) : string :=
  String.concat sep parts.

(** [Array.prototype.slice(0, n)] *)
Definition slice0 {A} (n : nat) (l : list A) : list A := take n l.

(** [Array.prototype.sort(comparefn)].  ECMAScript requires a stable sort and,
    for a consistent comparator, fixes the result: the stable sorted
    permutation.  It is modelled by stable insertion, which places an element
    before the first element of the sorted tail that it does not follow. *)
Fixpoint sort_insert {A} (comparefn : A → A → Z) (x : A) (sorted : list A) : list A :=
  match sorted with
  | [] => [x]
  | y :: rest =>
      if decide (comparefn x y ≤ 0) then x :: y :: rest
      else y :: sort_insert comparefn x rest
  end.

Definition sort {A} (comparefn : A → A → Z) (l : list A) : list A :=
  foldr (sort_insert comparefn) [] l.

End Js.

Export Js.

(** ** types.ts *)

Module Types.

Record SField := {
  apiName : string;
  label : string;
  type : string;
  description : option string;
  isCustom : bool;
  referenceTo : option (list string)
}.

Record SChildRelationship := {
  childSObject : string;
  field : string;
  relationshipName : string;
  cascadeDelete : bool
}.

Record SObject := {
  obj_apiName : string;
  obj_label : string;
  obj_isCustom : bool;
  obj_keyPrefix : option string;
  obj_description : option string;
  obj_fields : option (list SField);
  obj_childRelationships : option (list SChildRelationship);
  obj_recordCount : option Z
}.

Record OrgMetadata := {
  orgId : string;
  orgName : string;
  instanceUrl : string;
  accessToken : string;
  objects : list SObject
}.

Record DiagramNode := {
  dn_id : string;
  dn_label : string;
  dn_type : string
}.

Record DiagramEdge := {
  de_id : string;
  de_source : string;
  de_target : string;
  de_label : option string
}.

Record ProcessDiagram := {
  pd_id : string;
  pd_title : string;
  pd_description : string;
  pd_nodes : list DiagramNode;
  pd_edges : list DiagramEdge
}.

Record LayoutComponent := {
  lc_type : string;
  lc_value : string
}.

Record LayoutItem := {
  li_label : string;
  layoutComponents : list LayoutComponent;
  placeholder : option bool;
  required : option bool
}.

Record LayoutRow := {
  layoutItems : list LayoutItem
}.

Record LayoutSection := {
  heading : string;
  useHeading : bool;
  layoutRows : list LayoutRow;
  columns : option Z
}.

Record PageLayout := {
  pl_id : string;
  pl_name : string;
  detailLayoutSections : list LayoutSection
}.

Record Rasci := {
  rasci_r : bool;
  rasci_a : bool;
  rasci_s : bool;
  rasci_c : bool;
  rasci_i : bool
}.

Record ResourceAssignment := {
  resourceId : string;
  rasci : Rasci
}.

(** [UPNNodeData]; [impactLevel] is a string at run time. *)
Record UPNNodeData := {
  upn_label : string;
  upn_outcome : option string;
  upn_resources : list ResourceAssignment;
  impactLevel : option string
}.

(** The union type the interface declares for [impactLevel]:
    ['none' | 'low' | 'medium' | 'critical']. *)
Definition declared_impactLevel (level : string) : bool :=
  bool_decide (level ∈ ["none"; "low"; "medium"; "critical"]).

End Types.

Export Types.

(** ** React Flow objects and the dagre graph *)

Module Flow.

Inductive StyleValue :=
  | Css (text : string)
  | Num (n : Q).

(** A style object: CSS property name to value. *)
Abbreviation Style := (gmap string StyleValue).

Record XYPosition := { x : Q; y : Q }.

Record Marker := {
  marker_type : string;
  marker_color : option string
}.

Record Node (D : Type) := {
  id : string;
  node_type : option string;
  data : D;
  position : XYPosition;
  style : option Style;
  targetPosition : option string;
  sourcePosition : option string
}.
Arguments id {D} _.
Arguments node_type {D} _.
Arguments data {D} _.
Arguments position {D} _.
Arguments style {D} _.
Arguments targetPosition {D} _.
Arguments sourcePosition {D} _.

Record Edge := {
  edge_id : string;
  source : string;
  target : string;
  edge_label : option string;
  edge_type : option string;
  animated : option bool;
  markerEnd : option Marker;
  edge_style : option Style
}.

Definition ArrowClosed : string := "arrowclosed".

(** The calls a component makes on a fresh [dagre.graphlib.Graph], in order. *)
Inductive GraphCall :=
  | setGraph (rankdir : string) (nodesep ranksep : option Z)
  | setNode (v : string) (width height : Q)
  | setEdge (v w : string).

(** [dagre.layout(g)] followed by [g.node(v)]: dagre is an external library;
    its result is taken as a function of the calls made on the fresh graph,
    giving the anchor point of each node. *)
Abbreviation LayoutEngine := (list GraphCall → string → XYPosition).

Definition origin : XYPosition := {| x := 0; y := 0 |}.

(** [nodes.forEach(setNode)], then [edges.forEach(setEdge)] *)
Definition populate {D} (width height : Q) (nodes : list (Node D)) (edges : list Edge)
    : list GraphCall :=
  map (λ node, setNode (id node) width height) nodes
  ++ map (λ edge, setEdge (source edge) (target edge)) edges.

End Flow.

Export Flow.

(** ** DiagramEditor.tsx *)

Module DiagramEditor.

(** [getLayoutedElements(nodes, edges)]: top-to-bottom, 200 x 100 boxes. *)
Definition getLayoutedElements {D} (dagre_layout : LayoutEngine)
    (nodes : list (Node D)) (edges : list Edge) : list (Node D) * list Edge :=
  let dagreGraph :=
    setGraph "TB" (Some 50) (Some 80) :: populate 200 100 nodes edges in
  let layoutedNodes :=
    map (λ node,
      let nodeWithPosition := dagre_layout dagreGraph (id node) in
      {| id := id node;
         node_type := node_type node;
         data := data node;
         position := {| x := (x nodeWithPosition - 100)%Q;
                        y := (y nodeWithPosition - 50)%Q |};
         style := style node;
         targetPosition := targetPosition node;
         sourcePosition := sourcePosition node |}) nodes in
  (layoutedNodes, edges).

(** *** Impact analysis *)

(** [edges.filter(e => e.source === current).map(e => e.target)] *)
Definition children (edges : list Edge) (current : string) : list string :=
  map target (filter (λ e, source e = current) edges).

(** One turn of the [while (queue.length > 0)] loop, on a non-empty queue
    [current :: rest]: [queue.shift()], [downstreamIds.add(current)], then
    every child not yet in the set is pushed at the back. *)
Definition visit (edges : list Edge) (current : string) (rest : list string)
    (downstreamIds : gset string) : list string * gset string :=
  let downstreamIds := {[current]} ∪ downstreamIds in
  (rest ++ filter (λ c, c ∉ downstreamIds) (children edges current), downstreamIds).

(** The loop; [fuel] bounds the number of turns, [None] is "still running". *)
Fixpoint bfs (fuel : nat) (edges : list Edge) (queue : list string)
    (downstreamIds : gset string) : option (gset string) :=
  match queue with
  | [] => Some downstreamIds
  | current :: rest =>
      match fuel with
      | O => None
      | S fuel =>
          let '(queue, downstreamIds) := visit edges current rest downstreamIds in
          bfs fuel edges queue downstreamIds
      end
  end.

Definition with_impact (n : Node UPNNodeData) (level : string) (opacity : Q)
    : Node UPNNodeData :=
  {| id := id n;
     node_type := node_type n;
     data := {| upn_label := upn_label (data n);
                upn_outcome := upn_outcome (data n);
                upn_resources := upn_resources (data n);
                impactLevel := Some level |};
     position := position n;
     style := Some {[ "opacity" := Num opacity ]};
     targetPosition := targetPosition n;
     sourcePosition := sourcePosition n |}.

(** The callback given to [setNodes] once the traversal is over. *)
Definition annotate (startNodeId : string) (downstreamIds : gset string)
    (n : Node UPNNodeData) : Node UPNNodeData :=
  if decide (id n = startNodeId) then with_impact n "critical" 1
  else if decide (id n ∈ downstreamIds) then with_impact n "high" 1
  else with_impact n "none" (3 # 10).

(** [runImpactAnalysis(startNodeId)] over the component's [nodes] and [edges]
    state; the result is the new [nodes] state. *)
Definition runImpactAnalysis (fuel : nat) (nodes : list (Node UPNNodeData))
    (edges : list Edge) (startNodeId : string) : option (list (Node UPNNodeData)) :=
  downstreamIds ← bfs fuel edges [startNodeId] ∅;
  Some (map (annotate startNodeId downstreamIds) nodes).

Definition clearImpactAnalysis (nodes : list (Node UPNNodeData))
    : list (Node UPNNodeData) :=
  map (λ n, with_impact n "none" 1) nodes.

(** *** Diagram generation *)

(** What the generative service returns ([any] in the source). *)
Record RawNodeData := {
  raw_data_label : option string;
  raw_data_outcome : option string;
  raw_data_resources : option (list ResourceAssignment)
}.

Record RawNode := {
  raw_id : string;
  raw_label : option string;
  raw_data : option RawNodeData
}.

Record RawEdge := {
  raw_edge_id : option string;
  raw_source : string;
  raw_target : string
}.

Record RawDiagram := {
  raw_nodes : option (list RawNode);
  raw_edges : option (list RawEdge)
}.

Definition newNode (n : RawNode) : Node UPNNodeData :=
  {| id := raw_id n;
     node_type := Some "upn-activity";
     data :=
       {| upn_label :=
            or_else (raw_data n ≫= raw_data_label) (or_else (raw_label n) "Activity");
          upn_outcome := Some (or_else (raw_data n ≫= raw_data_outcome) "Done");
          upn_resources := default [] (raw_data n ≫= raw_data_resources);
          impactLevel := None |};
     position := origin;
     style := None;
     targetPosition := None;
     sourcePosition := None |}.

Definition newEdge (e : RawEdge) : Edge :=
  {| edge_id := or_else (raw_edge_id e) ("e-" +:+ raw_source e +:+ "-" +:+ raw_target e);
     source := raw_source e;
     target := raw_target e;
     edge_label := None;
     edge_type := Some "smoothstep";
     animated := None;
     markerEnd := Some {| marker_type := ArrowClosed; marker_color := None |};
     edge_style := None |}.

Record EditorState := {
  nodes : list (Node UPNNodeData);
  edges : list Edge;
  isGenerating : bool;
  alerts : list string
}.

(** [handleGenerate], from the point where the prompt is known: [finalPrompt]
    is [None] on the two early [return]s (blank custom prompt, no selected
    process).  The service call may throw; the [catch] alerts and the
    [finally] clears [isGenerating]. *)
Definition handleGenerate (dagre_layout : LayoutEngine)
    (generateDiagramFromRequirement : string → completion (option RawDiagram))
    (finalPrompt : option string) (st : EditorState) : EditorState :=
  match finalPrompt with
  | None =>
      {| nodes := nodes st; edges := edges st; isGenerating := false;
         alerts := alerts st |}
  | Some finalPrompt =>
      match generateDiagramFromRequirement finalPrompt with
      | Throw _ =>
          {| nodes := nodes st; edges := edges st; isGenerating := false;
             alerts := alerts st ++ ["Failed to generate diagram."] |}
      | Normal rawData =>
          match rawData ≫= raw_nodes with
          | Some rawNodes =>
              let newNodes := map newNode rawNodes in
              let newEdges := map newEdge (default [] (rawData ≫= raw_edges)) in
              let layouted := getLayoutedElements dagre_layout newNodes newEdges in
              {| nodes := fst layouted; edges := snd layouted;
                 isGenerating := false; alerts := alerts st |}
          | None =>
              {| nodes := nodes st; edges := edges st; isGenerating := false;
                 alerts := alerts st |}
          end
      end
  end.

End DiagramEditor.

(** ** AutoDiagram.tsx *)

Module AutoDiagram.

Inductive DiagramStyle := corporate | modern | blueprint.

Definition nodeWidth : Q := 180.
Definition nodeHeight : Q := 50.

(** [getLayoutedElements(nodes, edges, direction = 'TB')] *)
Definition getLayoutedElements {D} (dagre_layout : LayoutEngine)
    (nodes : list (Node D)) (edges : list Edge) (direction : string)
    : list (Node D) * list Edge :=
  let dagreGraph := setGraph direction None None :: populate nodeWidth nodeHeight nodes edges in
  let layoutedNodes :=
    map (λ node,
      let nodeWithPosition := dagre_layout dagreGraph (id node) in
      {| id := id node;
         node_type := node_type node;
         data := data node;
         position := {| x := (x nodeWithPosition - nodeWidth / 2)%Q;
                        y := (y nodeWithPosition - nodeHeight / 2)%Q |};
         style := style node;
         targetPosition := Some "top";
         sourcePosition := Some "bottom" |}) nodes in
  (layoutedNodes, edges).

Definition baseStyle : Style :=
  list_to_map [
    ("padding", Css "10px 20px"); ("borderRadius", Css "8px");
    ("fontSize", Css "12px"); ("fontWeight", Num 500);
    ("textAlign", Css "center"); ("display", Css "flex");
    ("alignItems", Css "center"); ("justifyContent", Css "center") ].

(** [{ ...base, k1: v1, ... }]: later keys override earlier ones. *)
Definition spread (base : Style) (overrides : list (string * StyleValue)) : Style :=
  foldl (λ acc kv, <[kv.1 := kv.2]> acc) base overrides.

Definition getNodeStyle (type : string) (style : DiagramStyle) : Style :=
  let terminal := bool_decide (type = "start" ∨ type = "end") in
  let decision := bool_decide (type = "decision") in
  match style with
  | modern =>
      let modernBase := spread baseStyle [
        ("background", Css "#1e293b"); ("color", Css "#e2e8f0");
        ("border", Css "1px solid #334155");
        ("boxShadow", Css "0 0 10px rgba(0,0,0,0.3)");
        ("fontFamily", Css "'Inter', sans-serif") ] in
      if terminal then spread modernBase [
        ("background", Css "linear-gradient(135deg, #6366f1 0%, #a855f7 100%)");
        ("border", Css "none"); ("color", Css "white"); ("borderRadius", Css "24px") ]
      else if decision then spread modernBase [
        ("borderColor", Css "#ec4899"); ("color", Css "#fbcfe8");
        ("borderStyle", Css "solid") ]
      else spread modernBase [ ("borderColor", Css "#06b6d4"); ("color", Css "#cffafe") ]
  | blueprint =>
      let blueprintBase := spread baseStyle [
        ("background", Css "transparent"); ("color", Css "white");
        ("border", Css "2px solid white");
        ("fontFamily", Css "'Patrick Hand', cursive");
        ("fontSize", Css "16px"); ("boxShadow", Css "none") ] in
      if terminal then spread blueprintBase [
        ("borderRadius", Css "255px 15px 225px 15px/15px 225px 15px 255px");
        ("borderWidth", Css "2px") ]
      else if decision then spread blueprintBase [
        ("transform", Css "rotate(-1deg)"); ("borderStyle", Css "dashed") ]
      else spread blueprintBase [ ("borderRadius", Css "2px") ]
  | corporate =>
      let corpBase := spread baseStyle [
        ("background", Css "#white"); ("border", Css "1px solid #e2e8f0");
        ("fontFamily", Css "'Inter', sans-serif");
        ("boxShadow", Css "0 1px 2px 0 rgba(0, 0, 0, 0.05)") ] in
      if terminal then spread corpBase [
        ("background", Css "#1e293b"); ("color", Css "white");
        ("border", Css "none"); ("borderRadius", Css "24px") ]
      else if decision then spread corpBase [
        ("background", Css "#fffbeb"); ("borderColor", Css "#fcd34d");
        ("color", Css "#92400e"); ("borderStyle", Css "dashed");
        ("borderWidth", Css "2px") ]
      else spread corpBase [
        ("background", Css "#eff6ff"); ("borderColor", Css "#bfdbfe");
        ("color", Css "#1e40af") ]
  end.

Record EdgeOptions := {
  opt_type : string;
  opt_animated : bool;
  opt_style : Style;
  opt_markerEnd : Marker
}.

Definition getEdgeOptions (style : DiagramStyle) : EdgeOptions :=
  match style with
  | modern =>
      {| opt_type := "default"; opt_animated := true;
         opt_style := list_to_map [("stroke", Css "#94a3b8"); ("strokeWidth", Num 2)];
         opt_markerEnd := {| marker_type := ArrowClosed; marker_color := Some "#94a3b8" |} |}
  | blueprint =>
      {| opt_type := "straight"; opt_animated := false;
         opt_style := list_to_map [("stroke", Css "white"); ("strokeWidth", Num 2);
                                   ("strokeDasharray", Css "5,5")];
         opt_markerEnd := {| marker_type := ArrowClosed; marker_color := Some "white" |} |}
  | corporate =>
      {| opt_type := "smoothstep"; opt_animated := true;
         opt_style := list_to_map [("stroke", Css "#64748b")];
         opt_markerEnd := {| marker_type := ArrowClosed; marker_color := Some "#64748b" |} |}
  end.

Record NodeData := { nd_label : string }.

Definition flowNode (currentStyle : DiagramStyle) (n : DiagramNode) : Node NodeData :=
  {| id := dn_id n;
     node_type := Some (if decide (dn_type n = "start") then "input"
                        else if decide (dn_type n = "end") then "output"
                        else "default");
     data := {| nd_label := dn_label n |};
     position := origin;
     style := Some (getNodeStyle (dn_type n) currentStyle);
     targetPosition := None;
     sourcePosition := None |}.

Definition flowEdge (edgeOpts : EdgeOptions) (e : DiagramEdge) : Edge :=
  {| edge_id := de_id e;
     source := de_source e;
     target := de_target e;
     edge_label := de_label e;
     edge_type := Some (opt_type edgeOpts);
     animated := Some (opt_animated edgeOpts);
     markerEnd := Some (opt_markerEnd edgeOpts);
     edge_style := Some (opt_style edgeOpts) |}.

(** [regenerateGraph]: the component's [(nodes, edges)] state after the call;
    with no diagram data it returns at once and the state is unchanged. *)
Definition regenerateGraph (dagre_layout : LayoutEngine)
    (diagramData : option ProcessDiagram) (currentStyle : DiagramStyle)
    (st : list (Node NodeData) * list Edge) : list (Node NodeData) * list Edge :=
  match diagramData with
  | None => st
  | Some diagramData =>
      let edgeOpts := getEdgeOptions currentStyle in
      let flowNodes := map (flowNode currentStyle) (pd_nodes diagramData) in
      let flowEdges := map (flowEdge edgeOpts) (pd_edges diagramData) in
      getLayoutedElements dagre_layout flowNodes flowEdges "TB"
  end.

End AutoDiagram.

(** ** MetadataDictionary.tsx *)

Module MetadataDictionary.

Definition nodeWidth : Q := 220.
Definition nodeHeight : Q := 60.

(** [getLayoutedElements(nodes, edges, direction = 'LR')] *)
Definition getLayoutedElements {D} (dagre_layout : LayoutEngine)
    (nodes : list (Node D)) (edges : list Edge) (direction : string)
    : list (Node D) * list Edge :=
  let dagreGraph := setGraph direction None None :: populate nodeWidth nodeHeight nodes edges in
  let layoutedNodes :=
    map (λ node,
      let nodeWithPosition := dagre_layout dagreGraph (id node) in
      {| id := id node;
         node_type := node_type node;
         data := data node;
         position := {| x := (x nodeWithPosition - nodeWidth / 2)%Q;
                        y := (y nodeWithPosition - nodeHeight / 2)%Q |};
         style := style node;
         targetPosition := Some "left";
         sourcePosition := Some "right" |}) nodes in
  (layoutedNodes, edges).

Record NodeData := { nd_label : string }.

Definition centerNode (selectedObject : SObject) : Node NodeData :=
  {| id := obj_apiName selectedObject;
     node_type := Some "input";
     data := {| nd_label := obj_label selectedObject |};
     position := origin;
     style := Some (list_to_map [
       ("background", Css "#eff6ff"); ("color", Css "#1e3a8a");
       ("border", Css "2px solid #3b82f6"); ("borderRadius", Css "8px");
       ("fontWeight", Css "bold"); ("width", Num 200);
       ("boxShadow", Css "0 4px 6px -1px rgba(0, 0, 0, 0.1)") ]);
     targetPosition := None;
     sourcePosition := None |}.

Definition targetNode (targetObjName : string) : Node NodeData :=
  {| id := targetObjName;
     node_type := None;
     data := {| nd_label := targetObjName |};
     position := origin;
     style := Some (list_to_map [
       ("background", Css "#ffffff"); ("color", Css "#475569");
       ("border", Css "1px solid #cbd5e1"); ("borderRadius", Css "8px");
       ("width", Num 180) ]);
     targetPosition := None;
     sourcePosition := None |}.

Definition referenceEdge (selectedObject : SObject) (field : SField)
    (targetObjName : string) : Edge :=
  {| edge_id := "e-" +:+ apiName field;
     source := obj_apiName selectedObject;
     target := targetObjName;
     edge_label := Some (label field);
     edge_type := Some "smoothstep";
     animated := Some true;
     markerEnd := Some {| marker_type := ArrowClosed; marker_color := None |};
     edge_style := Some (list_to_map [("stroke", Css "#94a3b8")]) |}.

(** [f.type === 'reference' && f.referenceTo && f.referenceTo.length > 0] *)
Definition isReference (f : SField) : bool :=
  bool_decide (type f = "reference")
  && match referenceTo f with
     | Some (_ :: _) => true
     | _ => false
     end.

Definition referenceFields (fields : list SField) : list SField :=
  slice0 15 (filter (λ f, isReference f = true) fields).

(** [field.referenceTo![0]]; a field kept by [isReference] has one. *)
Definition firstTarget (field : SField) : option string :=
  referenceTo field ≫= head.

(** The body of [referenceFields.forEach]: a node is pushed unless one with
    that id is already there; an edge is pushed in any case. *)
Definition addReference (selectedObject : SObject)
    (acc : list (Node NodeData) * list Edge) (field : SField)
    : list (Node NodeData) * list Edge :=
  match firstTarget field with
  | Some targetObjName =>
      let initialNodes :=
        if decide (Exists (λ n, id n = targetObjName) acc.1) then acc.1
        else acc.1 ++ [targetNode targetObjName] in
      (initialNodes, acc.2 ++ [referenceEdge selectedObject field targetObjName])
  | None => acc
  end.

(** The graph handed to the layout helper. *)
Definition initialGraph (selectedObject : SObject) (fields : list SField)
    : list (Node NodeData) * list Edge :=
  foldl (addReference selectedObject) ([centerNode selectedObject], [])
        (referenceFields fields).

(** [generateDependencyGraph]: the component's [(nodes, edges)] state after
    the call; without a selected object or without its fields nothing changes. *)
Definition generateDependencyGraph (dagre_layout : LayoutEngine)
    (selectedObject : option SObject)
    (st : list (Node NodeData) * list Edge) : list (Node NodeData) * list Edge :=
  match selectedObject with
  | None => st
  | Some selectedObject =>
      match obj_fields selectedObject with
      | None => st
      | Some fields =>
          let '(initialNodes, initialEdges) := initialGraph selectedObject fields in
          getLayoutedElements dagre_layout initialNodes initialEdges "LR"
      end
  end.

End MetadataDictionary.

(** ** salesforceService.ts *)

Module SalesforceService.

Inductive FieldValue :=
  | FNull
  | FBool (b : bool)
  | FNum (n : Q)
  | FStr (text : string).

(** A record as the REST API returns it: field name to value. *)
Abbreviation SRecord := (gmap string FieldValue).

(** A value found under a key of a query result row: a scalar, or the result
    of a nested sub-select, whose [records] may be missing. *)
Inductive RowValue :=
  | RowScalar (v : FieldValue)
  | RowSubSelect (records : option (list SRecord)).

Abbreviation ResultRow := (gmap string RowValue).

Record QueryResult := {
  totalSize : Z;
  records : option (list ResultRow)
}.

(** JavaScript truthiness of [resultRow[name]]; a missing key is [undefined]. *)
Definition truthy (v : option RowValue) : bool :=
  match v with
  | None => false
  | Some (RowSubSelect _) => true
  | Some (RowScalar FNull) => false
  | Some (RowScalar (FBool b)) => b
  | Some (RowScalar (FNum n)) => negb (Qeq_bool n 0)
  | Some (RowScalar (FStr text)) => negb (bool_decide (text = EmptyString))
  end.

(** [resultRow[name].records || []] *)
Definition records_or_empty (v : option RowValue) : list SRecord :=
  match v with
  | Some (RowSubSelect (Some rows)) => rows
  | _ => []
  end.

(** A property of the object [fetchRecordWithRelated] resolves with. *)
Inductive PropValue :=
  | Scalar (v : FieldValue)
  | Related (relatedData : gmap string (list SRecord)).

Abbreviation RecordResult := (gmap string PropValue).

(** [{ ...baseRecord, relatedData }] *)
Definition with_relatedData (baseRecord : SRecord)
    (relatedData : gmap string (list SRecord)) : RecordResult :=
  <["relatedData" := Related relatedData]> (Scalar <$> baseRecord).

Definition relationshipsToQuery (childRels : list SChildRelationship)
    : list SChildRelationship :=
  slice0 10 (filter (λ r, relationshipName r ≠ EmptyString) childRels).

Definition subquery (r : SChildRelationship) : string :=
  "(SELECT Id, Name, CreatedDate FROM " +:+ relationshipName r +:+ " LIMIT 5)".

Definition relatedQuery (objectName recordId : string)
    (relationshipsToQuery : list SChildRelationship) : string :=
  let subqueries := join ", " (map subquery relationshipsToQuery) in
  "SELECT Id, " +:+ subqueries +:+ " FROM " +:+ objectName
  +:+ " WHERE Id = '" +:+ recordId +:+ "'".

(** [relationshipsToQuery.forEach(r => { if (resultRow[name]) relatedData[name] = ... })] *)
Definition collectRelated (resultRow : ResultRow)
    (relationshipsToQuery : list SChildRelationship) : gmap string (list SRecord) :=
  foldl (λ relatedData r,
           let v := resultRow !! relationshipName r in
           if truthy v then <[relationshipName r := records_or_empty v]> relatedData
           else relatedData)
        ∅ relationshipsToQuery.

Section network.

(** The two network wrappers [fetchRecordById] and [fetchQuery] resolve with
    the body the platform sends or throw; their outcome is the environment's. *)
Variable fetchRecordById : string → string → string → string → completion SRecord.
Variable fetchQuery : string → string → string → completion QueryResult.

(** The [try] block of [fetchRecordWithRelated]: [Some] when it returns from the
    function, [None] when control falls through to the last [return]. *)
Definition queryRelated (instanceUrl accessToken : string) (baseRecord : SRecord)
    (query : string) (relationshipsToQuery : list SChildRelationship)
    : completion (option RecordResult) :=
  queryResult ← fetchQuery instanceUrl accessToken query;
  match records queryResult with
  | Some (resultRow :: _) =>
      Normal (Some (with_relatedData baseRecord
                      (collectRelated resultRow relationshipsToQuery)))
  | _ => Normal None
  end.

Definition fetchRecordWithRelated (instanceUrl accessToken objectName recordId : string)
    (childRels : list SChildRelationship) : completion RecordResult :=
  baseRecord ← fetchRecordById instanceUrl accessToken objectName recordId;
  let relationshipsToQuery := relationshipsToQuery childRels in
  if decide (length relationshipsToQuery = 0%nat) then
    Normal (with_relatedData baseRecord ∅)
  else
    let query := relatedQuery objectName recordId relationshipsToQuery in
    returned ← try_catch
                 (queryRelated instanceUrl accessToken baseRecord query relationshipsToQuery)
                 (λ _, Normal None);
    match returned with
    | Some result => Normal result
    | None => Normal (with_relatedData baseRecord ∅)
    end.

(** *** Page layouts *)

Definition PROXY_URL : string := "https://corsproxy.io/?".

Record LayoutsBody := {
  (** [data.layouts] when it is an array *)
  layouts : option (list PageLayout)
}.

Record Response := {
  ok : bool;
  json : completion LayoutsBody
}.

(** [fetch(url, { headers: { Authorization } })] and [encodeURIComponent]
    belong to the browser. *)
Variable fetch : string → string → completion Response.
Variable encodeURIComponent : string → string.

Definition fetchObjectLayouts (instanceUrl accessToken objectName : string)
    : completion (list PageLayout) :=
  let targetUrl :=
    instanceUrl +:+ "/services/data/v60.0/sobjects/" +:+ objectName +:+ "/describe/layouts" in
  let url := PROXY_URL +:+ encodeURIComponent targetUrl in
  try_catch
    (res ← fetch url ("Bearer " +:+ accessToken);
     if negb (ok res) then Normal []
     else data ← json res; Normal (default [] (layouts data)))
    (λ _, Normal []).

End network.

End SalesforceService.

(** ** RecordDetailModal.tsx *)

Module RecordDetailModal.

Import SalesforceService.

(** *** The fallback layout *)

Section createDefaultLayout.

(** [String.prototype.localeCompare]: the collation of the browser's locale. *)
Variable localeCompare : string → string → Z.

(** The comparator given to [sort]. *)
Definition compareFields (a b : SField) : Z :=
  if decide (apiName a = "Name") then -1
  else if decide (apiName b = "Name") then 1
  else if decide (apiName a = "Id") then -1
  else if decide (apiName b = "Id") then 1
  else localeCompare (label a) (label b).

Definition fieldItem (field : SField) : LayoutItem :=
  {| li_label := label field;
     layoutComponents := [ {| lc_type := "Field"; lc_value := apiName field |} ];
     placeholder := None;
     required := None |}.

(** The body of [sortedFields.forEach((field, index) => ...)] on the pair
    [(layoutRows, currentRow)]; [total] is [sortedFields.length]. *)
Definition pushField (total : nat) (acc : list LayoutRow * list LayoutItem)
    (entry : nat * SField) : list LayoutRow * list LayoutItem :=
  let currentRow := acc.2 ++ [fieldItem entry.2] in
  if decide (length currentRow = 2%nat ∨ Z.of_nat entry.1 = Z.of_nat total - 1)
  then (acc.1 ++ [ {| layoutItems := currentRow |} ], [])
  else (acc.1, currentRow).

Definition sortedFields (fields : list SField) : list SField :=
  sort compareFields fields.

Definition buildRows (sortedFields : list SField) : list LayoutRow * list LayoutItem :=
  foldl (pushField (length sortedFields)) ([], []) (imap pair sortedFields).

Definition createDefaultLayout (objectType : string) (fields : list SField) : PageLayout :=
  let layoutRows := (buildRows (sortedFields fields)).1 in
  {| pl_id := "system-default";
     pl_name := "System Default Layout";
     detailLayoutSections :=
       [ {| heading := objectType +:+ " Details";
            useHeading := true;
            layoutRows := layoutRows;
            columns := Some 2 |} ] |}.

End createDefaultLayout.

(** *** Loading a record *)

Record ObjectDetails := {
  fields : list SField;
  childRelationships : list SChildRelationship;
  recordCount : Z
}.

(** The component state the loader writes. *)
Record ModalState := {
  data : option RecordResult;
  relatedData : option (gmap string (list SRecord));
  layouts : list PageLayout;
  selectedLayoutId : string;
  loading : bool;
  layoutLoading : bool;
  error : option string
}.

Definition setData v st :=
  {| data := v; relatedData := relatedData st; layouts := layouts st;
     selectedLayoutId := selectedLayoutId st; loading := loading st;
     layoutLoading := layoutLoading st; error := error st |}.
Definition setRelatedData v st :=
  {| data := data st; relatedData := v; layouts := layouts st;
     selectedLayoutId := selectedLayoutId st; loading := loading st;
     layoutLoading := layoutLoading st; error := error st |}.
Definition setLayouts v st :=
  {| data := data st; relatedData := relatedData st; layouts := v;
     selectedLayoutId := selectedLayoutId st; loading := loading st;
     layoutLoading := layoutLoading st; error := error st |}.
Definition setSelectedLayoutId v st :=
  {| data := data st; relatedData := relatedData st; layouts := layouts st;
     selectedLayoutId := v; loading := loading st;
     layoutLoading := layoutLoading st; error := error st |}.
Definition setLoading v st :=
  {| data := data st; relatedData := relatedData st; layouts := layouts st;
     selectedLayoutId := selectedLayoutId st; loading := v;
     layoutLoading := layoutLoading st; error := error st |}.
Definition setLayoutLoading v st :=
  {| data := data st; relatedData := relatedData st; layouts := layouts st;
     selectedLayoutId := selectedLayoutId st; loading := loading st;
     layoutLoading := v; error := error st |}.
Definition setError v st :=
  {| data := data st; relatedData := relatedData st; layouts := layouts st;
     selectedLayoutId := selectedLayoutId st; loading := loading st;
     layoutLoading := layoutLoading st; error := v |}.

(** An asynchronous step of the loader: it may throw, and the state it has
    written so far stays written. *)
Definition Load (A : Type) : Type := ModalState → completion A * ModalState.

Definition pure {A} (a : A) : Load A := λ st, (Normal a, st).

Definition andThen {A B} (m : Load A) (k : A → Load B) : Load B :=
  λ st, match m st with
        | (Normal a, st) => k a st
        | (Throw e, st) => (Throw e, st)
        end.

(** [await c] *)
Definition await {A} (c : completion A) : Load A := λ st, (c, st).

(** A state setter *)
Definition call (setter : ModalState → ModalState) : Load unit :=
  λ st, (Normal tt, setter st).

(** [try { body } catch (e) { handler e }] *)
Definition tryCatch {A} (body : Load A) (handler : string → Load A) : Load A :=
  λ st, match body st with
        | (Normal a, st) => (Normal a, st)
        | (Throw e, st) => handler e st
        end.

(** [try { body } finally { cleanup }] *)
Definition tryFinally {A} (body : Load A) (cleanup : Load unit) : Load A :=
  λ st, match body st with
        | (outcome, st) =>
            match cleanup st with
            | (Normal _, st) => (outcome, st)
            | (Throw e, st) => (Throw e, st)
            end
        end.

Global Instance Load_ret : MRet Load := @pure.
Global Instance Load_bind : MBind Load := λ A B k m, andThen m k.

(** [const { relatedData, ...mainRecord } = recordResult] *)
Definition mainRecord (recordResult : RecordResult) : RecordResult :=
  delete "relatedData" recordResult.

(** [relatedData || {}] *)
Definition relatedOf (recordResult : RecordResult) : gmap string (list SRecord) :=
  match recordResult !! "relatedData" with
  | Some (Related relatedData) => relatedData
  | _ => ∅
  end.

Section loadRecordAndMetadata.

Variable localeCompare : string → string → Z.
Variable fetchObjectDetails : string → string → string → completion ObjectDetails.
Variable fetchRecordWithRelated :
  string → string → string → string → list SChildRelationship → completion RecordResult.
Variable fetchObjectLayouts : string → string → string → completion (list PageLayout).

Definition useDefaultLayout (objectType : string) (objDetails : ObjectDetails) : Load unit :=
  let defaultLayout := createDefaultLayout localeCompare objectType (fields objDetails) in
  call (setLayouts [defaultLayout]) ;;
  call (setSelectedLayoutId (pl_id defaultLayout)).

(** Step 3 of the loader, with its own [try]/[catch]/[finally]. *)
Definition loadLayouts (orgMetadata : OrgMetadata) (objectType : string)
    (objDetails : ObjectDetails) : Load unit :=
  tryFinally
    (tryCatch
       (fetchedLayouts ← await (fetchObjectLayouts (instanceUrl orgMetadata)
                                  (accessToken orgMetadata) objectType);
        match fetchedLayouts with
        | first :: _ =>
            call (setLayouts fetchedLayouts) ;;
            call (setSelectedLayoutId (pl_id first))
        | [] => useDefaultLayout objectType objDetails
        end)
       (λ layoutError, useDefaultLayout objectType objDetails))
    (call (setLayoutLoading false)).

Definition loadRecordAndMetadata (orgMetadata : OrgMetadata)
    (recordId objectType : string) : Load unit :=
  call (setLoading true) ;;
  call (setError None) ;;
  tryCatch
    (objDetails ← await (fetchObjectDetails (instanceUrl orgMetadata)
                           (accessToken orgMetadata) objectType);
     recordResult ← await (fetchRecordWithRelated (instanceUrl orgMetadata)
                             (accessToken orgMetadata) objectType recordId
                             (childRelationships objDetails));
     call (setData (Some (mainRecord recordResult))) ;;
     call (setRelatedData (Some (relatedOf recordResult))) ;;
     call (setLoading false) ;;
     call (setLayoutLoading true) ;;
     loadLayouts orgMetadata objectType objDetails)
    (λ err,
       call (setError (Some (or_else (Some err) "Failed to load record details"))) ;;
       call (setLoading false) ;;
       call (setLayoutLoading false)).

End loadRecordAndMetadata.

End RecordDetailModal.

(** ** Concrete data used in examples *)

Module Samples.

Import DiagramEditor.

Definition activity (name : string) : Node UPNNodeData :=
  {| id := name;
     node_type := Some "upn-activity";
     data := {| upn_label := name; upn_outcome := None; upn_resources := [];
                impactLevel := None |};
     position := origin;
     style := None;
     targetPosition := None;
     sourcePosition := None |}.

Definition arrow (from to : string) : Edge :=
  {| edge_id := "e" +:+ from +:+ "-" +:+ to;
     source := from;
     target := to;
     edge_label := None;
     edge_type := Some "smoothstep";
     animated := None;
     markerEnd := Some {| marker_type := ArrowClosed; marker_color := None |};
     edge_style := None |}.

(** A layout engine to run the helpers with: one column, a node per row in
    the order of the [setNode] calls. *)
Fixpoint rowOf (calls : list GraphCall) (v : string) (row : Z) : Z :=
  match calls with
  | [] => row
  | setNode w _ _ :: calls => if decide (w = v) then row else rowOf calls v (row + 1)
  | _ :: calls => rowOf calls v row
  end.

Definition columnLayout (calls : list GraphCall) (v : string) : XYPosition :=
  {| x := 0; y := inject_Z (100 * rowOf calls v 0) |}.

(** A generated diagram whose only edge points at a node that is not there. *)
Definition phantomDiagram : RawDiagram :=
  {| raw_nodes := Some [ {| raw_id := "a"; raw_label := Some "Step A"; raw_data := None |} ];
     raw_edges := Some [ {| raw_edge_id := None; raw_source := "a"; raw_target := "x" |} ] |}.

Definition phantomProcess : ProcessDiagram :=
  {| pd_id := "p1"; pd_title := "Process"; pd_description := "One step";
     pd_nodes := [ {| dn_id := "a"; dn_label := "Step A"; dn_type := "start" |} ];
     pd_edges := [ {| de_id := "e1"; de_source := "a"; de_target := "x";
                      de_label := None |} ] |}.

Definition emptyEditor : EditorState :=
  {| nodes := []; edges := []; isGenerating := true; alerts := [] |}.

(** A collation to run the layout builder with: code-unit order. *)
Definition codeUnitCompare (s t : string) : Z :=
  if decide (s = t) then 0 else if decide (String.le s t) then -1 else 1.

Definition plainField (name text : string) : SField :=
  {| apiName := name; label := text; type := "string"; description := None;
     isCustom := false; referenceTo := None |}.

(** A custom object: its API name and its label differ. *)
Definition invoiceObject : SObject :=
  {| obj_apiName := "Invoice__c"; obj_label := "Invoice"; obj_isCustom := true;
     obj_keyPrefix := Some "a01"; obj_description := None; obj_fields := Some [];
     obj_childRelationships := None; obj_recordCount := Some 0 |}.

Definition accountFields : list SField :=
  [ plainField "Website" "Website"; plainField "Id" "Record ID";
    plainField "Industry" "Industry"; plainField "Name" "Account Name";
    plainField "Phone" "Account Phone" ].

Definition acme : OrgMetadata :=
  {| orgId := "00D000000000001"; orgName := "Acme";
     instanceUrl := "https://acme.my.salesforce.com"; accessToken := "token";
     objects := [invoiceObject] |}.

Definition accountDetails : RecordDetailModal.ObjectDetails :=
  {| RecordDetailModal.fields := accountFields;
     RecordDetailModal.childRelationships := [];
     RecordDetailModal.recordCount := 1 |}.

Definition accountRecord : SalesforceService.SRecord :=
  {[ "Id" := SalesforceService.FStr "001000000000001";
     "Name" := SalesforceService.FStr "Acme Corp" ]}.

Definition relationship (child name : string) : SChildRelationship :=
  {| childSObject := child; field := "AccountId"; relationshipName := name;
     cascadeDelete := false |}.

(** Thirteen child relationships, one of them without a relationship name. *)
Definition accountRelationships : list SChildRelationship :=
  [ relationship "Contact" "Contacts"; relationship "AccountFeed" EmptyString;
    relationship "Opportunity" "Opportunities"; relationship "Case" "Cases";
    relationship "Task" "Tasks"; relationship "Event" "Events";
    relationship "Note" "Notes"; relationship "Contract" "Contracts";
    relationship "Order" "Orders"; relationship "Asset" "Assets";
    relationship "Attachment" "Attachments"; relationship "Partner" "Partners";
    relationship "AccountHistory" "Histories" ].

Definition contactRow : SalesforceService.ResultRow :=
  {[ "Contacts" :=
       SalesforceService.RowSubSelect
         (Some [ {[ "Name" := SalesforceService.FStr "Ann" ]};
                 {[ "Name" := SalesforceService.FStr "Bob" ]} ]) ]}.

(** A query service that answers every query with one row holding two
    contacts, one that rejects every query, and a point lookup. *)
Definition answeringQuery (instanceUrl accessToken query : string)
    : completion SalesforceService.QueryResult :=
  Normal {| SalesforceService.totalSize := 1;
            SalesforceService.records := Some [contactRow] |}.

(** A service whose answer holds six contacts, one more than the sub-select
    asks for. *)
Definition sixContactsRow : SalesforceService.ResultRow :=
  {[ "Contacts" :=
       SalesforceService.RowSubSelect
         (Some [ {[ "Name" := SalesforceService.FStr "Ann" ]};
                 {[ "Name" := SalesforceService.FStr "Bob" ]};
                 {[ "Name" := SalesforceService.FStr "Cy" ]};
                 {[ "Name" := SalesforceService.FStr "Di" ]};
                 {[ "Name" := SalesforceService.FStr "Ed" ]};
                 {[ "Name" := SalesforceService.FStr "Flo" ]} ]) ]}.

Definition generousQuery (instanceUrl accessToken query : string)
    : completion SalesforceService.QueryResult :=
  Normal {| SalesforceService.totalSize := 1;
            SalesforceService.records := Some [sixContactsRow] |}.

Definition failingQuery (instanceUrl accessToken query : string)
    : completion SalesforceService.QueryResult :=
  Throw "MALFORMED_QUERY".

Definition lookupAccount (instanceUrl accessToken objectName recordId : string)
    : completion SalesforceService.SRecord :=
  Normal accountRecord.

Definition referenceField (name text : string) (targets : list string) : SField :=
  {| apiName := name; label := text; type := "reference"; description := None;
     isCustom := false; referenceTo := Some targets |}.

(** An object with a polymorphic lookup, a lookup to itself, two lookups to
    the same object, a reference without target and a plain field. *)
Definition taskObject : SObject :=
  {| obj_apiName := "Task"; obj_label := "Task"; obj_isCustom := false;
     obj_keyPrefix := Some "00T"; obj_description := None;
     obj_fields := Some [ referenceField "WhatId" "Related To" ["B"; "C"];
                          plainField "Subject" "Subject";
                          referenceField "ParentId" "Parent Task" ["Task"];
                          referenceField "OwnerId" "Assigned To" ["User"];
                          referenceField "OrphanId" "Orphan" [];
                          referenceField "CreatedById" "Created By" ["User"] ];
     obj_childRelationships := None; obj_recordCount := Some 0 |}.

Definition closedModal : RecordDetailModal.ModalState :=
  {| RecordDetailModal.data := None;
     RecordDetailModal.relatedData := None;
     RecordDetailModal.layouts := [];
     RecordDetailModal.selectedLayoutId := EmptyString;
     RecordDetailModal.loading := true;
     RecordDetailModal.layoutLoading := true;
     RecordDetailModal.error := None |}.

End Samples.

(** ** Notions the statements below are phrased with *)

Module Spec.

(** [v] is the target of an edge whose source is [u]. *)
Definition follows (edges : list Edge) (u v : string) : Prop :=
  ∃ e, e ∈ edges ∧ source e = u ∧ target e = v.

(** [v] is reachable from [u] along edges, [u] itself included. *)
Definition downstream (edges : list Edge) : relation string :=
  rtc (follows edges).

(** Every id the traversal can ever push: the targets of the edges. *)
Definition targets (edges : list Edge) : gset string :=
  list_to_set (map target edges).

(** An id that can still enter the visited set [V] for the first time. *)
Definition fresh (edges : list Edge) (V : gset string) (v : string) : Prop :=
  v ∈ targets edges ∧ v ∉ V.

Definition headed (edges : list Edge) (V : gset string) (q : list string) : Prop :=
  match q with
  | [] => True
  | v :: _ => fresh edges V v
  end.

(** The loop started on queue [q] and visited set [V] comes to an end. *)
Definition halts (edges : list Edge) (q : list string) (V : gset string) : Prop :=
  ∃ fuel, is_Some (DiagramEditor.bfs fuel edges q V).

(** An edge one of whose endpoints is not the id of any node. *)
Definition dangling {D} (nodes : list (Node D)) (e : Edge) : Prop :=
  source e ∉ map id nodes ∨ target e ∉ map id nodes.

(** The two ends of an edge. *)
Definition endpoints (e : Edge) : string * string := (source e, target e).

(** A field the dependency graph draws: reference-typed, with a target. *)
Definition drawn (f : SField) : Prop :=
  type f = "reference" ∧ ∃ first others, referenceTo f = Some (first :: others).

(** The order of the fallback layout in the specification's words: the field
    named Name, then the field named Id, then the others by label. *)
Definition fieldRank (f : SField) : nat :=
  if decide (apiName f = "Name") then 0
  else if decide (apiName f = "Id") then 1
  else 2.

Definition defaultOrder (localeCompare : string → string → Z) (a b : SField) : Prop :=
  (fieldRank a < fieldRank b)%nat
  ∨ (fieldRank a = fieldRank b
     ∧ (fieldRank a = 2%nat → localeCompare (label a) (label b) ≤ 0)).

(** Rows of two, the last one of one when the length is odd. *)
Fixpoint pairUp {A} (l : list A) : list (list A) :=
  match l with
  | [] => []
  | [a] => [[a]]
  | a :: b :: rest => [a; b] :: pairUp rest
  end.

End Spec.

Export Spec.

(** ** More built-ins *)

Module Builtins.

(** [Array.prototype.find]: the first element that satisfies the test. *)
Definition find {A} (P : A → Prop) `{∀ x, Decision (P x)} (l : list A) : option A :=
  snd <$> list_find P l.

(** [String.prototype.includes] *)
Definition includes (text part : string) : bool :=
  bool_decide (is_Some (String.index 0 part text)).

(** [Array.prototype.slice(-n)]: the last [n] elements. *)
Definition sliceLast {A} (n : nat) (l : list A) : list A :=
  drop (length l - n) l.

(** [text.replace(/c/g, by)]: every occurrence of the character replaced. *)
Fixpoint replaceAll (c : Ascii.ascii) (by_ : string) (text : string) : string :=
  match text with
  | EmptyString => EmptyString
  | String d rest =>
      if decide (d = c) then by_ +:+ replaceAll c by_ rest
      else String d (replaceAll c by_ rest)
  end.

Definition quoteChar : Ascii.ascii := Ascii.ascii_of_nat 34.
Definition commaChar : Ascii.ascii := Ascii.ascii_of_nat 44.
Definition newline : string := String (Ascii.ascii_of_nat 10) EmptyString.
Definition quote : string := String quoteChar EmptyString.

End Builtins.

Export Builtins.

(** ** salesforceService.ts: describe and process definitions *)

Module SalesforceDescribe.

Import SalesforceService.

(** The body of a describe response, as far as the service reads it. *)
Record DescribeField := {
  df_name : string;
  df_label : string;
  df_type : string;
  df_description : option string;
  df_custom : bool;
  df_referenceTo : option (list string)
}.

Record DescribeChild := {
  dc_childSObject : string;
  dc_field : string;
  dc_relationshipName : string;
  dc_cascadeDelete : bool
}.

Record DescribeBody := {
  describe_fields : list DescribeField;
  describe_childRelationships : option (list DescribeChild)
}.

(** What [await describeRes.json()] resolves with: a describe body, or a value
    the service cannot read as one ([null], a value without a [fields] array,
    a null entry in it, a [childRelationships] that is set and not an array),
    with the message of the TypeError the engine raises at the first such
    read. *)
Inductive DescribeData :=
  | Described (body : DescribeBody)
  | Unreadable (typeError : string).

Record DescribeResponse := {
  describe_ok : bool;
  describe_json : completion DescribeData
}.

Definition toField (f : DescribeField) : SField :=
  {| apiName := df_name f;
     label := df_label f;
     type := df_type f;
     description := Some (or_else (df_description f) EmptyString);
     isCustom := df_custom f;
     referenceTo := df_referenceTo f |}.

Definition toChildRelationship (cr : DescribeChild) : SChildRelationship :=
  {| childSObject := dc_childSObject cr;
     field := dc_field cr;
     relationshipName := dc_relationshipName cr;
     cascadeDelete := dc_cascadeDelete cr |}.

(** A value read off a row without a check ([any] in the source): a missing
    key is [undefined]. *)
Abbreviation JsVal := (option RowValue).

Definition text (s : string) : JsVal := Some (RowScalar (FStr s)).

Record ProcessDefinitionOption := {
  pdo_id : JsVal;
  pdo_label : JsVal;
  pdo_type : string;
  pdo_objectType : JsVal;
  pdo_description : JsVal;
  pdo_steps : option (list JsVal)
}.

Section service.

Variable fetch : string → string → completion DescribeResponse.
Variable encodeURIComponent : string → string.
Variable fetchQuery : string → string → string → completion QueryResult.

(** The conversion a template literal applies to an interpolated value. *)
Variable toText : JsVal → string.

Definition fetchObjectDetails (instanceUrl accessToken objectName : string)
    : completion RecordDetailModal.ObjectDetails :=
  let targetDescribeUrl :=
    instanceUrl +:+ "/services/data/v60.0/sobjects/" +:+ objectName +:+ "/describe" in
  let describeUrl := PROXY_URL +:+ encodeURIComponent targetDescribeUrl in
  describeRes ← fetch describeUrl ("Bearer " +:+ accessToken);
  if negb (describe_ok describeRes) then Throw ("Failed to describe " +:+ objectName)
  else
    describeData ← describe_json describeRes;
    match describeData with
    | Unreadable typeError =>
        (* [describeData.fields.map] and the reads after it are outside any [try] *)
        Throw typeError
    | Described describeData =>
        let fields := map toField (describe_fields describeData) in
        let childRelationships :=
          map toChildRelationship
            (default [] (describe_childRelationships describeData)) in
        recordCount ← try_catch
                        (queryRes ← fetchQuery instanceUrl accessToken
                                      ("SELECT count() FROM " +:+ objectName);
                         Normal (totalSize queryRes))
                        (λ _, Normal 0);
        Normal {| RecordDetailModal.fields := fields;
                  RecordDetailModal.childRelationships := childRelationships;
                  RecordDetailModal.recordCount := recordCount |}
    end.

Definition fetchOrgBusinessProcesses (instanceUrl accessToken : string)
    : completion (list ProcessDiagram) :=
  Normal [].

(** One of the three blocks for a standard object: an entry is pushed when
    the picklist query gave at least one row. *)
Definition pushStandard (id_ label_ objectType_ description_ : string)
    (stages : QueryResult) (results : list ProcessDefinitionOption)
    : list ProcessDefinitionOption :=
  match records stages with
  | Some (first :: others) =>
      results ++ [ {| pdo_id := text id_;
                      pdo_label := text label_;
                      pdo_type := "Standard";
                      pdo_objectType := text objectType_;
                      pdo_description := text description_;
                      pdo_steps := Some ((λ r : ResultRow, r !! "MasterLabel")
                                           <$> (first :: others)) |} ]
  | _ => results
  end.

Definition approvalOption (rec : ResultRow) : ProcessDefinitionOption :=
  {| pdo_id := rec !! "Id";
     pdo_label := rec !! "Name";
     pdo_type := "Approval";
     pdo_objectType := rec !! "TableEnumOrId";
     pdo_description :=
       if truthy (rec !! "Description") then rec !! "Description"
       else text ("Approval process for " +:+ toText (rec !! "TableEnumOrId"));
     pdo_steps := None |}.

Definition flowOption (rec : ResultRow) : ProcessDefinitionOption :=
  {| pdo_id := rec !! "Id";
     pdo_label := rec !! "Label";
     pdo_type := "Flow";
     pdo_objectType := text "Flow";
     pdo_description :=
       if truthy (rec !! "Description") then rec !! "Description"
       else text ("Salesforce " +:+ toText (rec !! "ProcessType"));
     pdo_steps := None |}.

(** [if (found.records) found.records.forEach(rec => results.push(...))] *)
Definition pushEach (option_ : ResultRow → ProcessDefinitionOption)
    (found : QueryResult) (results : list ProcessDefinitionOption)
    : list ProcessDefinitionOption :=
  match records found with
  | Some rows => foldl (λ results rec, results ++ [option_ rec]) results rows
  | None => results
  end.

(** [try { found = await fetchQuery(q); push found } catch (e) { warn }] *)
Definition attempt (instanceUrl accessToken query : string)
    (push : QueryResult → list ProcessDefinitionOption → list ProcessDefinitionOption)
    (results : list ProcessDefinitionOption)
    : completion (list ProcessDefinitionOption) :=
  try_catch
    (found ← fetchQuery instanceUrl accessToken query; Normal (push found results))
    (λ _, Normal results).

Definition opportunityStages : string :=
  "SELECT MasterLabel FROM OpportunityStage ORDER BY SortOrder ASC".
Definition leadStatuses : string :=
  "SELECT MasterLabel FROM LeadStatus ORDER BY SortOrder ASC".
Definition caseStatuses : string :=
  "SELECT MasterLabel FROM CaseStatus ORDER BY SortOrder ASC".
Definition activeApprovals : string :=
  "SELECT Id, Name, TableEnumOrId, Description FROM ProcessDefinition WHERE State = 'Active' LIMIT 20".
Definition activeFlows : string :=
  "SELECT Id, Label, ProcessType, Description FROM FlowDefinitionView WHERE IsActive = true AND ProcessType IN ('Flow', 'AutoLaunchedFlow', 'Workflow') LIMIT 20".

Definition fetchOrgProcessDefinitions (instanceUrl accessToken : string)
    : completion (list ProcessDefinitionOption) :=
  results ← attempt instanceUrl accessToken opportunityStages
              (pushStandard "std-opp" "Opportunity Sales Process" "Opportunity"
                 "Standard lifecycle based on Opportunity Stages.") [];
  results ← attempt instanceUrl accessToken leadStatuses
              (pushStandard "std-lead" "Lead Qualification" "Lead"
                 "Standard lifecycle based on Lead Status.") results;
  results ← attempt instanceUrl accessToken caseStatuses
              (pushStandard "std-case" "Support Process" "Case"
                 "Standard lifecycle based on Case Status.") results;
  results ← attempt instanceUrl accessToken activeApprovals
              (pushEach approvalOption) results;
  results ← attempt instanceUrl accessToken activeFlows
              (pushEach flowOption) results;
  Normal results.

Definition fetchApprovalProcessSteps (instanceUrl accessToken processDefId : string)
    : completion (list JsVal) :=
  try_catch
    (steps ← fetchQuery instanceUrl accessToken
               ("SELECT Name FROM ProcessNode WHERE ProcessDefinitionId = '"
                +:+ processDefId +:+ "' ORDER BY SystemModstamp ASC");
     Normal (match records steps with
             | Some rows => (λ r : ResultRow, r !! "Name") <$> rows
             | None => []
             end))
    (λ _, Normal []).

End service.

End SalesforceDescribe.

(** ** RecordDetailModal.tsx: what is drawn *)

Module RecordView.

Import SalesforceService RecordDetailModal.

Definition getActiveLayout (st : ModalState) : option PageLayout :=
  find (λ l, pl_id l = selectedLayoutId st) (layouts st).

(** What one cell of the layout grid shows. *)
Inductive Rendered :=
  | GridFiller                      (* a placeholder item *)
  | Spacer                          (* an item without components *)
  | Nothing                         (* an item without a field component *)
  | FieldCell (caption fieldName : string)
              (displayValue : string)   (* what the copy button copies *)
              (noValue : bool).         (* the "--" marker is shown instead *)

Section rendering.

(** [JSON.stringify] on an object value and [String] on a number. *)
Variable JSON_stringify : gmap string (list SRecord) → string.
Variable numberToString : Q → string.

(** [String(value)] on a scalar. *)
Definition scalarToString (v : FieldValue) : string :=
  match v with
  | FNull => "null"
  | FBool true => "true"
  | FBool false => "false"
  | FNum n => numberToString n
  | FStr s => s
  end.

(** [typeof value === 'object' && value !== null ? JSON.stringify(value)
    : String(value ?? '')] *)
Definition displayValue (value : option PropValue) : string :=
  match value with
  | Some (Related relatedData) => JSON_stringify relatedData
  | Some (Scalar FNull) | None => EmptyString
  | Some (Scalar v) => scalarToString v
  end.

(** [value === null || value === undefined] *)
Definition isNullish (value : option PropValue) : bool :=
  match value with
  | None | Some (Scalar FNull) => true
  | _ => false
  end.

Definition renderLayoutField (data : option RecordResult) (item : LayoutItem) : Rendered :=
  match layoutComponents item with
  | [] => Spacer
  | _ =>
      match find (λ c, lc_type c = "Field") (layoutComponents item) with
      | None => Nothing
      | Some fieldComponent =>
          let fieldName := lc_value fieldComponent in
          let value := data ≫= (λ record : RecordResult, record !! fieldName) in
          FieldCell (li_label item) fieldName (displayValue value) (isNullish value)
      end
  end.

(** [item.placeholder ? <div/> : renderLayoutField(item)] *)
Definition renderItem (data : option RecordResult) (item : LayoutItem) : Rendered :=
  match placeholder item with
  | Some true => GridFiller
  | _ => renderLayoutField data item
  end.

(** [renderLayout]: the cells of the active layout, section by section and
    row by row; [None] is the "No layout definition available" notice. *)
Definition renderLayout (st : ModalState) : option (list (list (list Rendered))) :=
  layout ← getActiveLayout st;
  Some ((λ section, (λ row, renderItem (data st) <$> layoutItems row) <$> layoutRows section)
          <$> detailLayoutSections layout).

End rendering.

End RecordView.

(** ** MetadataDictionary.tsx and Overview.tsx: browsing the objects *)

Module DictionaryBrowser.

Import RecordDetailModal.

(** [getMockIntelligence]: the population percentage and the impact label. *)
Definition getMockIntelligence (field : SField) : Z * string :=
  let seed := Z.of_nat (String.length (apiName field)) in
  let population := Z.min 100 (Z.max 10 (seed * 7)) in
  let impact :=
    if decide (population > 80) then "High"
    else if decide (population > 40) then "Medium"
    else "Low" in
  (population, impact).

Definition standardObjects (data : OrgMetadata) : list SObject :=
  filter (λ o, obj_isCustom o = false) (objects data).

Definition customObjects (data : OrgMetadata) : list SObject :=
  filter (λ o, obj_isCustom o = true) (objects data).

(** [Overview]: total, custom and standard object counts. *)
Definition overviewCounts (data : OrgMetadata) : Z * Z * Z :=
  let totalObjects := Z.of_nat (length (objects data)) in
  let customObjects :=
    Z.of_nat (length (filter (λ o, obj_isCustom o = true) (objects data))) in
  (totalObjects, customObjects, totalObjects - customObjects).

Section search.

(** [String.prototype.toLowerCase] *)
Variable toLowerCase : string → string.

Definition matchesSearch (searchTerm : string) (obj : SObject) : bool :=
  includes (toLowerCase (obj_label obj)) (toLowerCase searchTerm)
  || includes (toLowerCase (obj_apiName obj)) (toLowerCase searchTerm).

Definition filterObjects (searchTerm : string) (list_ : list SObject) : list SObject :=
  filter (λ obj, matchesSearch searchTerm obj = true) list_.

End search.

(** [toggleCategory]: the new set of expanded categories. *)
Definition toggleCategory (category : string) (expandedCategories : gset string)
    : gset string :=
  if decide (category ∈ expandedCategories) then expandedCategories ∖ {[category]}
  else {[category]} ∪ expandedCategories.

Inductive TabType := overview | fields_ | dependencies | access | documentation | assessment.

Record BrowserState := {
  selectedObject : option SObject;
  cachedDetails : gmap string SObject;
  loadingDetails : bool;
  activeTab : TabType
}.

(** [{ ...obj, ...details }] *)
Definition enrich (obj : SObject) (details : ObjectDetails) : SObject :=
  {| obj_apiName := obj_apiName obj;
     obj_label := obj_label obj;
     obj_isCustom := obj_isCustom obj;
     obj_keyPrefix := obj_keyPrefix obj;
     obj_description := obj_description obj;
     obj_fields := Some (fields details);
     obj_childRelationships := Some (childRelationships details);
     obj_recordCount := Some (recordCount details) |}.

Definition handleSelectObject
    (fetchObjectDetails : string → string → string → completion ObjectDetails)
    (data : OrgMetadata) (obj : SObject) (st : BrowserState) : BrowserState :=
  match cachedDetails st !! obj_apiName obj with
  | Some cached =>
      {| selectedObject := Some cached; cachedDetails := cachedDetails st;
         loadingDetails := loadingDetails st; activeTab := overview |}
  | None =>
      match fetchObjectDetails (instanceUrl data) (accessToken data) (obj_apiName obj) with
      | Normal details =>
          let enrichedObject := enrich obj details in
          {| selectedObject := Some enrichedObject;
             cachedDetails := <[obj_apiName obj := enrichedObject]> (cachedDetails st);
             loadingDetails := false; activeTab := overview |}
      | Throw _ =>
          {| selectedObject := Some obj; cachedDetails := cachedDetails st;
             loadingDetails := false; activeTab := overview |}
      end
  end.

End DictionaryBrowser.

(** ** geminiService.ts and ElementsGPT.tsx: the assistant *)

Module Assistant.

Record ChatMessage := {
  msg_id : string;
  role : string;
  content : string;
  timestamp : Z
}.

Section chat.

(** [process.env.API_KEY], and the chat session of the AI client:
    [ai.chats.create({ model, config, history }).sendMessage({ message })]
    with its [text], which may be missing. *)
Variable API_KEY : option string.
Variable sendMessage :
  string → string → list (string * string) → string → completion (option string).

Definition getAiClient : completion unit :=
  if decide (or_else API_KEY EmptyString = EmptyString)
  then Throw "API Key not found in environment variables"
  else Normal tt.

Definition contextSummary (metadata : OrgMetadata) : string :=
  newline
  +:+ "      You are 'ElementsGPT', an AI assistant for a Salesforce Org named '"
  +:+ orgName metadata +:+ "'." +:+ newline
  +:+ "      " +:+ newline
  +:+ "      Metadata Summary:" +:+ newline
  +:+ "      "
  +:+ join newline
        (map (λ obj, "- Object: " +:+ obj_label obj +:+ " (" +:+ obj_apiName obj
                     +:+ "), Custom: " +:+ (if obj_isCustom obj then "true" else "false"))
           (objects metadata))
  +:+ newline
  +:+ "      " +:+ newline
  +:+ "      You help users understand their org metadata, suggest improvements, and explain relationships."
  +:+ newline
  +:+ "      Keep answers concise and professional." +:+ newline
  +:+ "    ".

Definition chatWithOrgData (message : string) (history : list (string * string))
    (metadata : OrgMetadata) : completion string :=
  try_catch
    (ai ← getAiClient;
     result ← sendMessage "gemini-3-flash-preview" (contextSummary metadata) history message;
     Normal (or_else result "I couldn't generate a response."))
    (λ _, Normal "I apologize, but I'm having trouble connecting to the AI service right now. Please ensure your API key is valid.").

(** [String.prototype.trim], [Number.prototype.toString], and the four
    readings of the clock [handleSend] makes. *)
Variable trim : string → string.
Variable numberText : Z → string.

Record ChatState := {
  input : string;
  messages : list ChatMessage;
  isLoading : bool
}.

(** [handleSend]: the state it leaves, and whether it completed or threw at
    the [await]. *)
Definition handleSend (metadata : OrgMetadata) (now1 date1 now2 date2 : Z)
    (st : ChatState) : ChatState * completion unit :=
  if decide (trim (input st) = EmptyString ∨ isLoading st = true) then (st, Normal tt)
  else
    let userMsg :=
      {| msg_id := numberText now1; role := "user"; content := input st;
         timestamp := date1 |} in
    let history := map (λ m, (role m, content m)) (sliceLast 10 (messages st)) in
    match chatWithOrgData (content userMsg) history metadata with
    | Throw e =>
        ({| input := EmptyString; messages := messages st ++ [userMsg];
            isLoading := true |}, Throw e)
    | Normal responseText =>
        let botMsg :=
          {| msg_id := numberText (now2 + 1); role := "model"; content := responseText;
             timestamp := date2 |} in
        ({| input := EmptyString; messages := (messages st ++ [userMsg]) ++ [botMsg];
            isLoading := false |}, Normal tt)
    end.

End chat.

End Assistant.

(** ** AutoDiagram.tsx: generating and loading a diagram *)

Module Designer.

Import AutoDiagram.

Record DesignerState := {
  requirement : string;
  diagramData : option ProcessDiagram;
  isGenerating : bool;
  error : option string;
  currentStyle : DiagramStyle;
  graph : list (Node NodeData) * list Edge
}.

Section generate.

Variable dagre_layout : LayoutEngine.
Variable trim : string → string.
Variable generateDiagramFromRequirement : string → completion (option ProcessDiagram).

(** The effect that follows every change of [diagramData] or [currentStyle]. *)
Definition redraw (st : DesignerState) : DesignerState :=
  {| requirement := requirement st; diagramData := diagramData st;
     isGenerating := isGenerating st; error := error st;
     currentStyle := currentStyle st;
     graph := regenerateGraph dagre_layout (diagramData st) (currentStyle st) (graph st) |}.

Definition handleGenerate (st : DesignerState) : DesignerState :=
  if decide (trim (requirement st) = EmptyString) then st
  else
    let finish (data : option ProcessDiagram) (err : option string) :=
      redraw {| requirement := requirement st; diagramData := data;
                isGenerating := false; error := err;
                currentStyle := currentStyle st; graph := graph st |} in
    match generateDiagramFromRequirement (requirement st) with
    | Normal (Some result) =>
        match pd_nodes result with
        | _ :: _ => finish (Some result) None
        | [] => finish None
                  (Some "The AI could not generate a valid diagram. Please try rephrasing your requirement.")
        end
    | Normal None =>
        finish None
          (Some "The AI could not generate a valid diagram. Please try rephrasing your requirement.")
    | Throw _ =>
        finish None (Some "An error occurred while communicating with the AI service.")
    end.

Definition handleLoadProcess (process : ProcessDiagram) (st : DesignerState)
    : DesignerState :=
  redraw {| requirement := "Diagram for " +:+ pd_title process +:+ ": "
                           +:+ pd_description process;
            diagramData := Some process;
            isGenerating := isGenerating st; error := error st;
            currentStyle := currentStyle st; graph := graph st |}.


End generate.

End Designer.

(** ** SoqlExplorer.tsx: running, saving and exporting queries *)

Module SoqlExplorer.

Import SalesforceService.

Record SavedQuery := {
  sq_id : string;
  sq_name : string;
  sq_query : string;
  sq_savedAt : Z
}.

Inductive EditorTab := editor | saved.

(** A result row, its keys in the order they came. *)
Abbreviation Row := (list (string * RowValue)).

Record Results := {
  res_totalSize : Z;
  res_records : list Row
}.

Record ExplorerState := {
  activeTab : EditorTab;
  query : string;
  results : option Results;
  loading : bool;
  error : option string;
  savedQueries : list SavedQuery;
  saveName : string;
  isSaveModalOpen : bool
}.

(** [localStorage] *)
Abbreviation Storage := (gmap string string).

Definition storageKey : string := "orgPilot_savedQueries".

Definition withSavedQueries (queries : list SavedQuery) (st : ExplorerState)
    : ExplorerState :=
  {| activeTab := activeTab st; query := query st; results := results st;
     loading := loading st; error := error st; savedQueries := queries;
     saveName := saveName st; isSaveModalOpen := isSaveModalOpen st |}.

Section explorer.

Variable JSON_stringify : list SavedQuery → string.
Variable JSON_parse : string → completion (list SavedQuery).
Variable trim : string → string.
Variable numberText : Z → string.

(** The effect run when the component mounts. *)
Definition loadSavedQueries (storage : Storage) (st : ExplorerState) : ExplorerState :=
  match storage !! storageKey with
  | Some saved_ =>
      if decide (saved_ = EmptyString) then st
      else match JSON_parse saved_ with
           | Normal queries => withSavedQueries queries st
           | Throw _ => st
           end
  | None => st
  end.

Definition saveQueriesToStorage (queries : list SavedQuery)
    (world : ExplorerState * Storage) : ExplorerState * Storage :=
  (withSavedQueries queries world.1,
   <[storageKey := JSON_stringify queries]> world.2).

(** [handleSaveQuery]; [now1] and [now2] are its two readings of the clock. *)
Definition handleSaveQuery (now1 now2 : Z) (world : ExplorerState * Storage)
    : ExplorerState * Storage :=
  let st := world.1 in
  if decide (trim (saveName st) = EmptyString) then world
  else
    let newQuery :=
      {| sq_id := numberText now1; sq_name := saveName st; sq_query := query st;
         sq_savedAt := now2 |} in
    let world := saveQueriesToStorage (newQuery :: savedQueries st) world in
    ({| activeTab := activeTab world.1; query := query world.1;
        results := results world.1; loading := loading world.1;
        error := error world.1; savedQueries := savedQueries world.1;
        saveName := EmptyString; isSaveModalOpen := false |}, world.2).

Definition handleDeleteQuery (id_ : string) (world : ExplorerState * Storage)
    : ExplorerState * Storage :=
  let filtered := filter (λ q, sq_id q ≠ id_) (savedQueries world.1) in
  saveQueriesToStorage filtered world.

Definition loadSavedQuery (savedQuery : string) (st : ExplorerState) : ExplorerState :=
  {| activeTab := editor; query := savedQuery; results := results st;
     loading := loading st; error := error st; savedQueries := savedQueries st;
     saveName := saveName st; isSaveModalOpen := isSaveModalOpen st |}.

Definition handleExecute
    (executeSoql : string → string → string → completion Results)
    (metadata : OrgMetadata) (st : ExplorerState) : ExplorerState :=
  if decide (trim (query st) = EmptyString) then st
  else
    match executeSoql (instanceUrl metadata) (accessToken metadata) (query st) with
    | Normal data_ =>
        {| activeTab := activeTab st; query := query st; results := Some data_;
           loading := false; error := None; savedQueries := savedQueries st;
           saveName := saveName st; isSaveModalOpen := isSaveModalOpen st |}
    | Throw message =>
        {| activeTab := activeTab st; query := query st; results := None;
           loading := false;
           error := Some (or_else (Some message) "Query execution failed");
           savedQueries := savedQueries st;
           saveName := saveName st; isSaveModalOpen := isSaveModalOpen st |}
    end.

(** *** CSV export *)

(** [JSON.stringify] on an object value and [String] on a number. *)
Variable JSON_stringifyValue : RowValue → string.
Variable numberToString : Q → string.

(** [row[fieldName]] *)
Definition rowValue (row : Row) (fieldName : string) : option RowValue :=
  snd <$> find (λ kv : string * RowValue, kv.1 = fieldName) row.

(** [Object.keys(row).filter(k => k !== 'attributes')] *)
Definition headersOf (row : Row) : list string :=
  filter (λ k, k ≠ "attributes") (fst <$> row).

(** One cell of a data line. *)
Definition csvCell (val : option RowValue) : string :=
  match val with
  | None | Some (RowScalar FNull) => EmptyString
  | Some (RowSubSelect sub) =>
      replaceAll commaChar ";" (JSON_stringifyValue (RowSubSelect sub))
  | Some (RowScalar v) =>
      quote +:+ replaceAll quoteChar (quote +:+ quote)
                  (RecordView.scalarToString numberToString v) +:+ quote
  end.

Definition csvLine (headers : list string) (row : Row) : string :=
  join "," ((λ fieldName, csvCell (rowValue row fieldName)) <$> headers).

(** [downloadCsv]: the text of the file it offers, [None] when it returns
    without offering one. *)
Definition downloadCsv (st : ExplorerState) : option string :=
  match results st with
  | Some found =>
      match res_records found with
      | [] => None
      | first :: others =>
          let records := first :: others in
          let headers := headersOf first in
          Some (join newline (join "," headers :: (csvLine headers <$> records)))
      end
  | None => None
  end.

End explorer.

End SoqlExplorer.

(** ** App.tsx and Login.tsx: the session *)

Module Session.

Record UserCredentials := {
  username : string;
  password : option string;
  securityToken : option string;
  clientId : option string;
  clientSecret : option string;
  orgType : string
}.

Record AppState := {
  user : option UserCredentials;
  orgData : option OrgMetadata;
  loading : bool;
  error : option string;
  activeTab : string
}.

Record LoginForm := {
  form_username : string;
  form_password : string;
  form_token : string;
  form_orgType : string
}.

(** [Login.handleSubmit]: the credentials handed to [onLogin]. *)
Definition handleSubmit (form : LoginForm) : UserCredentials :=
  {| username := form_username form;
     password := Some (form_password form);
     securityToken := Some (form_token form);
     clientId := None;
     clientSecret := None;
     orgType := form_orgType form |}.

Definition handleLogin (authenticate : UserCredentials → completion OrgMetadata)
    (creds : UserCredentials) (st : AppState) : AppState :=
  match authenticate creds with
  | Normal data_ =>
      {| user := Some creds; orgData := Some data_; loading := false;
         error := None; activeTab := activeTab st |}
  | Throw message =>
      {| user := user st; orgData := orgData st; loading := false;
         error := Some (or_else (Some message)
                          "Login failed. Please verify credentials and CORS settings.");
         activeTab := activeTab st |}
  end.

Definition handleLogout (st : AppState) : AppState :=
  {| user := None; orgData := None; loading := loading st; error := None;
     activeTab := "overview" |}.

(** What [App] returns: the login form with its error banner, or the console
    for an organisation on a tab. *)
Inductive Screen :=
  | LoginScreen (banner : option string)
  | Console (orgName_ tab : string).

Definition render (st : AppState) : Screen :=
  match user st, orgData st with
  | Some _, Some org => Console (orgName org) (activeTab st)
  | _, _ =>
      (* [{error && <div>...{error}</div>}]: an empty message shows no banner *)
      LoginScreen (match error st with
                   | Some message =>
                       if decide (message = EmptyString) then None else Some message
                   | None => None
                   end)
  end.

End Session.

(** ** salesforceService.ts: the requests a record fetch makes *)

Module Wire.

Import SalesforceService.

(** A call of one of the two network wrappers, with its arguments. *)
Inductive Request :=
  | RecordById (instanceUrl accessToken objectName recordId : string)
  | Query (instanceUrl accessToken q : string).

(** A computation that calls the wrappers: how it completes and the calls it
    made, in order. *)
Definition Traced (A : Type) : Type := completion A * list Request.

Definition ret {A} (a : A) : Traced A := (Normal a, []).

Definition andThen {A B} (m : Traced A) (k : A → Traced B) : Traced B :=
  match m.1 with
  | Normal a => ((k a).1, m.2 ++ (k a).2)
  | Throw e => (Throw e, m.2)
  end.

(** [try { body } catch (e) { handler }] *)
Definition tryCatch {A} (body : Traced A) (handler : string → Traced A) : Traced A :=
  match body.1 with
  | Normal _ => body
  | Throw e => ((handler e).1, body.2 ++ (handler e).2)
  end.

Section network.

Variable fetchRecordById : string → string → string → string → completion SRecord.
Variable fetchQuery : string → string → string → completion QueryResult.

(** [await fetchRecordById(...)] and [await fetchQuery(...)] *)
Definition awaitRecordById (instanceUrl accessToken objectName recordId : string)
    : Traced SRecord :=
  (fetchRecordById instanceUrl accessToken objectName recordId,
   [RecordById instanceUrl accessToken objectName recordId]).

Definition awaitQuery (instanceUrl accessToken q : string) : Traced QueryResult :=
  (fetchQuery instanceUrl accessToken q, [Query instanceUrl accessToken q]).

(** [fetchRecordWithRelated] with the calls it makes.  The [try] block yields
    [Some] when it returns from the function and [None] when control falls
    through to the last [return]. *)
Definition fetchRecordWithRelated (instanceUrl accessToken objectName recordId : string)
    (childRels : list SChildRelationship) : Traced RecordResult :=
  andThen (awaitRecordById instanceUrl accessToken objectName recordId) (λ baseRecord,
    let relationshipsToQuery :=
      slice0 10 (filter (λ r, relationshipName r ≠ EmptyString) childRels) in
    if decide (length relationshipsToQuery = 0%nat) then
      ret (with_relatedData baseRecord ∅)
    else
      let subqueries :=
        join ", "
          (map (λ r, "(SELECT Id, Name, CreatedDate FROM " +:+ relationshipName r
                     +:+ " LIMIT 5)") relationshipsToQuery) in
      let query :=
        "SELECT Id, " +:+ subqueries +:+ " FROM " +:+ objectName
        +:+ " WHERE Id = '" +:+ recordId +:+ "'" in
      andThen
        (tryCatch
           (andThen (awaitQuery instanceUrl accessToken query) (λ queryResult,
              match records queryResult with
              | Some (resultRow :: _) =>
                  ret (Some (with_relatedData baseRecord
                               (collectRelated resultRow relationshipsToQuery)))
              | _ => ret None
              end))
           (λ _, ret None))
        (λ returned,
           match returned with
           | Some result => ret result
           | None => ret (with_relatedData baseRecord ∅)
           end)).

End network.

End Wire.

(** ** More notions for the statements *)

Module Notions.

(** Reading back a quoted CSV cell: the text between the outer quotes, two
    quotes standing for one; a lone quote inside, or no closing quote, is
    not a cell. *)
Fixpoint unquoteBody (s : string) : option string :=
  match s with
  | EmptyString => None
  | String c rest =>
      if decide (c = quoteChar) then
        match rest with
        | EmptyString => Some EmptyString
        | String d rest' =>
            if decide (d = quoteChar) then String quoteChar <$> unquoteBody rest'
            else None
        end
      else String c <$> unquoteBody rest
  end.

Definition unquoteCell (s : string) : option string :=
  match s with
  | String c rest => if decide (c = quoteChar) then unquoteBody rest else None
  | EmptyString => None
  end.

(** The character [c] occurs in the text. *)
Fixpoint hasChar (c : Ascii.ascii) (s : string) : Prop :=
  match s with
  | EmptyString => False
  | String d rest => d = c ∨ hasChar c rest
  end.

(** A node counts as affected when its impact level is not 'none'. *)
Definition affected (n : Node UPNNodeData) : Prop :=
  impactLevel (data n) = Some "critical" ∨ impactLevel (data n) = Some "high".

(** What one guarded block of [fetchOrgProcessDefinitions] adds: the entries
    its query's answer gives, none when the query is rejected. *)
Definition contributed
    (fetchQuery : string → string → string → completion SalesforceService.QueryResult)
    (instanceUrl accessToken query : string)
    (push : SalesforceService.QueryResult
            → list SalesforceDescribe.ProcessDefinitionOption
            → list SalesforceDescribe.ProcessDefinitionOption)
    : list SalesforceDescribe.ProcessDefinitionOption :=
  match fetchQuery instanceUrl accessToken query with
  | Normal found => push found []
  | Throw _ => []
  end.

End Notions.

Export Notions.

(** ** More concrete data for the examples *)

Module Fixtures.

Definition accountLayout : PageLayout :=
  {| pl_id := "00h000000000001"; pl_name := "Account Layout";
     detailLayoutSections :=
       [ {| heading := "Account Information"; useHeading := true;
            layoutRows :=
              [ {| layoutItems :=
                     [ {| li_label := "Account Name";
                          layoutComponents := [ {| lc_type := "Field"; lc_value := "Name" |} ];
                          placeholder := Some false; required := Some true |};
                       {| li_label := EmptyString; layoutComponents := [];
                          placeholder := Some true; required := Some false |} ] |} ];
            columns := Some 2 |} ] |}.

Definition marketingLayout : PageLayout :=
  {| pl_id := "00h000000000002"; pl_name := "Account Marketing Layout";
     detailLayoutSections := [] |}.

Definition describeAccount (instanceUrl accessToken objectName : string)
    : completion RecordDetailModal.ObjectDetails :=
  Normal Samples.accountDetails.

Definition describeFails (instanceUrl accessToken objectName : string)
    : completion RecordDetailModal.ObjectDetails :=
  Throw "Failed to describe Account".

Definition recordOfAccount (instanceUrl accessToken objectName recordId : string)
    (childRels : list SChildRelationship) : completion SalesforceService.RecordResult :=
  Normal (SalesforceService.with_relatedData Samples.accountRecord ∅).

Definition twoLayouts (instanceUrl accessToken objectName : string)
    : completion (list PageLayout) :=
  Normal [accountLayout; marketingLayout].

Definition noLayouts (instanceUrl accessToken objectName : string)
    : completion (list PageLayout) :=
  Normal [].

Definition plainNumber (n : Q) : string := "0".

Definition plainObject (relatedData : gmap string (list SalesforceService.SRecord))
    : string := "{}".

(** A describe response with one documented and one undocumented field and
    no child relationships. *)
Definition describeBody : SalesforceDescribe.DescribeBody :=
  {| SalesforceDescribe.describe_fields :=
       [ {| SalesforceDescribe.df_name := "Name";
            SalesforceDescribe.df_label := "Account Name";
            SalesforceDescribe.df_type := "string";
            SalesforceDescribe.df_description := Some "The name of the account";
            SalesforceDescribe.df_custom := false;
            SalesforceDescribe.df_referenceTo := None |};
         {| SalesforceDescribe.df_name := "Tier__c";
            SalesforceDescribe.df_label := "Tier";
            SalesforceDescribe.df_type := "picklist";
            SalesforceDescribe.df_description := None;
            SalesforceDescribe.df_custom := true;
            SalesforceDescribe.df_referenceTo := None |} ];
     SalesforceDescribe.describe_childRelationships := None |}.

Definition describeOk (url authorization : string)
    : completion SalesforceDescribe.DescribeResponse :=
  Normal {| SalesforceDescribe.describe_ok := true;
            SalesforceDescribe.describe_json :=
              Normal (SalesforceDescribe.Described describeBody) |}.

Definition verbatim (s : string) : string := s.

Definition freshBrowser : DictionaryBrowser.BrowserState :=
  {| DictionaryBrowser.selectedObject := None;
     DictionaryBrowser.cachedDetails := ∅;
     DictionaryBrowser.loadingDetails := false;
     DictionaryBrowser.activeTab := DictionaryBrowser.documentation |}.

Definition openDeals : SoqlExplorer.SavedQuery :=
  {| SoqlExplorer.sq_id := "1700000000000"; SoqlExplorer.sq_name := "Open deals";
     SoqlExplorer.sq_query := "SELECT Id FROM Opportunity WHERE IsClosed = false";
     SoqlExplorer.sq_savedAt := 1700000000000 |}.

(** A store format for saved queries that keeps the names, with a reader that
    knows the one list used here. *)
Definition namesOnly (queries : list SoqlExplorer.SavedQuery) : string :=
  "[" +:+ join "," (SoqlExplorer.sq_name <$> queries) +:+ "]".

Definition readNames (saved_ : string) : completion (list SoqlExplorer.SavedQuery) :=
  if decide (saved_ = "[Open deals]") then Normal [openDeals]
  else if decide (saved_ = "[]") then Normal []
  else Throw "Unexpected token".

Definition clockText (now : Z) : string := "1700000000000".

Definition explorer (name : string) (queries : list SoqlExplorer.SavedQuery)
    : SoqlExplorer.ExplorerState :=
  {| SoqlExplorer.activeTab := SoqlExplorer.saved;
     SoqlExplorer.query := "SELECT Id FROM Opportunity WHERE IsClosed = false";
     SoqlExplorer.results := None;
     SoqlExplorer.loading := false;
     SoqlExplorer.error := None;
     SoqlExplorer.savedQueries := queries;
     SoqlExplorer.saveName := name;
     SoqlExplorer.isSaveModalOpen := true |}.

Definition rejectSoql (instanceUrl accessToken query : string)
    : completion SoqlExplorer.Results :=
  Throw EmptyString.

(** A chat service that answers without text, and one that is unreachable. *)
Definition silentChat (model systemInstruction : string)
    (history : list (string * string)) (message : string) : completion (option string) :=
  Normal None.

Definition unreachableChat (model systemInstruction : string)
    (history : list (string * string)) (message : string) : completion (option string) :=
  Throw "fetch failed".

Definition openChat : Assistant.ChatState :=
  {| Assistant.input := "Which objects are custom?";
     Assistant.messages :=
       [ {| Assistant.msg_id := "welcome"; Assistant.role := "model";
            Assistant.content := "Hello"; Assistant.timestamp := 0 |} ];
     Assistant.isLoading := false |}.

End Fixtures.

(** * Impact analysis (DiagramEditor) *)

Section impact_analysis.

Import DiagramEditor.

Variable edges : list Edge.

Lemma elem_of_children (u v : string) :
  v ∈ children edges u ↔ follows edges u v.
Proof.
  unfold children, follows. rewrite list_elem_of_fmap. split.
  - intros (e & -> & He). apply list_elem_of_filter in He as [Hs He]. eauto.
  - intros (e & He & Hs & Ht). exists e. split; [done|].
    apply list_elem_of_filter. done.
Qed.

Local Abbreviation targets := (targets edges).
Local Abbreviation fresh := (fresh edges).
Local Abbreviation headed := (headed edges).
Local Abbreviation halts := (halts edges).

Lemma pushed_fresh (current : string) (V : gset string) (v : string) :
  v ∈ filter (λ c, c ∉ {[current]} ∪ V) (children edges current) →
  fresh ({[current]} ∪ V) v.
Proof.
  intros Hv. apply list_elem_of_filter in Hv as [Hnot Hv]. split; [|done].
  apply elem_of_children in Hv as (e & He & _ & <-).
  apply elem_of_list_to_set, list_elem_of_fmap. eauto.
Qed.

Lemma halts_visit (current : string) (rest : list string) (V : gset string) :
  halts (rest ++ filter (λ c, c ∉ {[current]} ∪ V) (children edges current))
        ({[current]} ∪ V) →
  halts (current :: rest) V.
Proof. intros [fuel H]. exists (S fuel). done. Qed.

Lemma split_at_fresh (V : gset string) (q : list string) :
  ∃ q1 q2, q = q1 ++ q2 ∧ Forall (λ v, ¬ fresh V v) q1 ∧ headed V q2.
Proof.
  induction q as [|v q (q1 & q2 & -> & Hq1 & Hq2)].
  - exists [], []. done.
  - destruct (decide (v ∈ targets ∧ v ∉ V)) as [Hv|Hv].
    + exists [], (v :: q1 ++ q2). done.
    + exists (v :: q1), q2. split; [done|]. split; [|done]. by constructor.
Qed.

Lemma bfs_halts_below (n : nat) :
  ∀ V, (size (targets ∖ V) < n)%nat → ∀ q, halts q V.
Proof.
  induction n as [|n IH]; intros V Hsize q; [lia|].
  assert (∀ q1 W, (size (targets ∖ W) < S n)%nat →
            Forall (λ v, ¬ fresh W v) q1 →
            ∀ q2, headed W q2 → halts (q1 ++ q2) W) as Hqueue.
  { clear V Hsize q. induction q1 as [|u q1 IHq]; intros W HW Hq1 q2 Hq2.
    - destruct q2 as [|v rest]; [by exists O|].
      apply halts_visit, IH. destruct Hq2 as [Hv1 Hv2].
      cut (size (targets ∖ ({[v]} ∪ W)) < size (targets ∖ W))%nat; [lia|].
      apply subset_size. split; [set_solver|].
      intros Hsub. specialize (Hsub v). set_solver.
    - inversion_clear Hq1 as [|?? Hu Hq1'].
      apply (halts_visit u (q1 ++ q2)). rewrite <- (assoc_L (++)).
      assert (headed ({[u]} ∪ W)
                (q2 ++ filter (λ c, c ∉ {[u]} ∪ W) (children edges u))) as Hhead.
      { destruct q2 as [|v rest]; simpl.
        - destruct (filter _ _) as [|c pushed] eqn:Hpushed; [done|].
          apply pushed_fresh. rewrite Hpushed. left.
        - destruct Hq2 as [Hv1 Hv2]. split; [done|].
          intros [->%elem_of_singleton|?]%elem_of_union; [|done].
          apply Hu. done. }
      apply IHq; [| |done].
      + assert (size (targets ∖ ({[u]} ∪ W)) ≤ size (targets ∖ W))%nat; [|lia].
        apply subseteq_size. set_solver.
      + eapply Forall_impl; [exact Hq1'|]. intros v Hv [Hv1 Hv2].
        apply Hv. split; [done|]. set_solver. }
  destruct (split_at_fresh V q) as (q1 & q2 & -> & Hq1 & Hq2). by apply Hqueue.
Qed.

(** The traversal stops on every graph, cycles and repeated edges included. *)
Lemma bfs_halts (q : list string) (V : gset string) : halts q V.
Proof. apply (bfs_halts_below (S (size (targets ∖ V)))). lia. Qed.

Lemma bfs_more_fuel (n : nat) :
  ∀ q V R, bfs n edges q V = Some R → ∀ m, (n ≤ m)%nat → bfs m edges q V = Some R.
Proof.
  induction n as [|n IH]; intros [|u q] V R Hrun m Hm; simplify_eq/=;
    destruct m as [|m]; try done; try lia.
  simpl. apply IH; [done|lia].
Qed.

Lemma bfs_sound (n : nat) :
  ∀ q V R, bfs n edges q V = Some R →
    ∀ v, v ∈ R → v ∈ V ∨ ∃ u, u ∈ q ∧ downstream edges u v.
Proof.
  induction n as [|n IH]; intros [|u q] V R Hrun v Hv; simplify_eq/=; auto.
  destruct (IH _ _ _ Hrun v Hv) as [Hin|(w & Hw & Hreach)].
  - apply elem_of_union in Hin as [->%elem_of_singleton|Hin]; [|by left].
    right. exists u. split; [left|reflexivity].
  - right. apply elem_of_app in Hw as [Hw|Hw].
    + exists w. split; [by right|done].
    + exists u. split; [left|]. apply list_elem_of_filter in Hw as [_ Hw].
      apply elem_of_children in Hw. by eapply rtc_l.
Qed.

Lemma bfs_complete (n : nat) :
  ∀ q V R, bfs n edges q V = Some R →
    (∀ u v, u ∈ V → follows edges u v → v ∈ V ∨ v ∈ q) →
    V ⊆ R ∧ (∀ u, u ∈ q → u ∈ R) ∧ (∀ u v, u ∈ R → follows edges u v → v ∈ R).
Proof.
  induction n as [|n IH]; intros [|u q] V R Hrun Hinv; simplify_eq/=.
  - split; [done|]. split; [by intros ? ?%elem_of_nil|].
    intros a b Ha Hab. by destruct (Hinv a b Ha Hab) as [?|?%elem_of_nil].
  - split; [done|]. split; [by intros ? ?%elem_of_nil|].
    intros a b Ha Hab. by destruct (Hinv a b Ha Hab) as [?|?%elem_of_nil].
  - apply IH in Hrun as (HV & Hq & Hclosed).
    + split; [set_solver|]. split; [|done].
      intros w [->|Hw]%elem_of_cons; [set_solver|]. apply Hq. set_solver.
    + intros a b Ha Hab.
      destruct (decide (b ∈ {[u]} ∪ V)) as [?|Hb]; [by left|right].
      apply elem_of_app.
      apply elem_of_union in Ha as [->%elem_of_singleton|Ha].
      * right. apply list_elem_of_filter. split; [done|]. by apply elem_of_children.
      * destruct (Hinv a b Ha Hab) as [?|[->|?]%elem_of_cons]; [set_solver|set_solver|by left].
Qed.

(** What the loop computes from the initial queue [[startNodeId]]. *)
Lemma bfs_downstream (n : nat) (startNodeId : string) (R : gset string) :
  bfs n edges [startNodeId] ∅ = Some R →
  ∀ v, v ∈ R ↔ downstream edges startNodeId v.
Proof.
  intros Hrun v. split.
  - intros Hv. destruct (bfs_sound _ _ _ _ Hrun v Hv) as [?|(u & Hu & ?)]; [set_solver|].
    by apply list_elem_of_singleton in Hu as ->.
  - destruct (bfs_complete _ _ _ _ Hrun) as (_ & Hq & Hclosed); [set_solver|].
    revert v. apply (rtc_ind_r (λ v, v ∈ R)).
    + apply Hq. left.
    + intros b c _ Hbc Hb. by apply (Hclosed b c).
Qed.

End impact_analysis.

Section impact_tiers.

Import DiagramEditor.

Lemma annotate_id (startNodeId : string) (R : gset string) (n : Node UPNNodeData) :
  id (annotate startNodeId R n) = id n.
Proof. unfold annotate. by repeat case_decide. Qed.

Lemma annotate_level (startNodeId : string) (R : gset string) (n : Node UPNNodeData) :
  impactLevel (data (annotate startNodeId R n)) =
    Some (if decide (id n = startNodeId) then "critical"
          else if decide (id n ∈ R) then "high" else "none").
Proof. unfold annotate. by repeat case_decide. Qed.

Lemma bfs_fuel_irrelevant (edges : list Edge) (q : list string) (V R1 R2 : gset string)
    (n1 n2 : nat) :
  bfs n1 edges q V = Some R1 → bfs n2 edges q V = Some R2 → R1 = R2.
Proof.
  intros H1 H2.
  apply (bfs_more_fuel edges n1) with (m := (n1 `max` n2)%nat) in H1; [|lia].
  apply (bfs_more_fuel edges n2) with (m := (n1 `max` n2)%nat) in H2; [|lia].
  congruence.
Qed.

(** C1.  On every graph and for every start id the traversal comes to an end
    with one result, whatever the fuel.  The downstream set it accumulates
    holds the start id and is exactly the set of ids reachable from it along
    edges taken from source to target.  Each node keeps its id and gets
    'critical' when it is the start node, 'high' when it is another node of
    the downstream set, 'none' when it is outside the set (unreachable).  In
    every turn of the loop the ids pushed are children of the current id that
    are not in the visited set: a visited node is never queued again. *)
Theorem runImpactAnalysis_tiers
    (nodes : list (Node UPNNodeData)) (edges : list Edge) (startNodeId : string) :
  ∃ fuel downstreamIds result,
    bfs fuel edges [startNodeId] ∅ = Some downstreamIds
    ∧ runImpactAnalysis fuel nodes edges startNodeId = Some result
    ∧ (∀ fuel' result',
         runImpactAnalysis fuel' nodes edges startNodeId = Some result' →
         result' = result)
    ∧ startNodeId ∈ downstreamIds
    ∧ (∀ v, v ∈ downstreamIds ↔ downstream edges startNodeId v)
    ∧ map id result = map id nodes
    ∧ (∀ i n, result !! i = Some n →
         (id n = startNodeId → impactLevel (data n) = Some "critical")
         ∧ (id n ≠ startNodeId → downstream edges startNodeId (id n) →
            impactLevel (data n) = Some "high")
         ∧ (¬ downstream edges startNodeId (id n) →
            impactLevel (data n) = Some "none"))
    ∧ (∀ current rest visited,
         ∃ pushed,
           visit edges current rest visited = (rest ++ pushed, {[current]} ∪ visited)
           ∧ ∀ c, c ∈ pushed →
               follows edges current c ∧ c ∉ ({[current]} ∪ visited : gset string)).
Proof.
  destruct (bfs_halts edges [startNodeId] ∅) as [fuel [R HR]].
  pose proof (bfs_downstream edges fuel startNodeId R HR) as Hdown.
  exists fuel, R, (map (annotate startNodeId R) nodes).
  split; [done|]. split; [unfold runImpactAnalysis; by rewrite HR|].
  split.
  { intros fuel' result'. unfold runImpactAnalysis.
    destruct (bfs fuel' edges [startNodeId] ∅) as [R'|] eqn:HR'; [|done].
    simpl. intros [= <-]. by rewrite (bfs_fuel_irrelevant _ _ _ _ _ _ _ HR HR'). }
  split; [apply Hdown; reflexivity|]. split; [done|].
  split.
  { rewrite <- list_fmap_compose. apply list_fmap_ext. intros ? n _. apply annotate_id. }
  split.
  { intros i n Hn. apply list_lookup_fmap_Some in Hn as (n0 & -> & _).
    rewrite annotate_id, annotate_level, <- !Hdown.
    repeat case_decide; naive_solver. }
  intros current rest visited.
  exists (filter (λ c, c ∉ {[current]} ∪ visited) (children edges current)).
  split; [done|]. intros c [Hc1 Hc2]%list_elem_of_filter.
  by apply elem_of_children in Hc2.
Qed.

End impact_tiers.

(** C9.  The interface declares four tiers for [impactLevel], none of them
    'high'; on the graph with the single edge 1 -> 2, impact analysis from
    node 1 gives node 2 the level 'high'. *)
Theorem runImpactAnalysis_assigns_undeclared_level :
  ∃ result n,
    DiagramEditor.runImpactAnalysis 2
      [Samples.activity "1"; Samples.activity "2"] [Samples.arrow "1" "2"] "1"
      = Some result
    ∧ result !! 1%nat = Some n
    ∧ id n = "2"
    ∧ impactLevel (data n) = Some "high"
    ∧ declared_impactLevel "high" = false.
Proof.
  eexists _, _. split; [vm_compute; reflexivity|].
  split; [reflexivity|]. split; [reflexivity|]. split; [reflexivity|].
  vm_compute. reflexivity.
Qed.

(** The example of the specification: 1 -> 2 -> 3, 1 -> 4 and an isolated 5. *)
Example runImpactAnalysis_example :
  (λ result, map (λ n, (id n, impactLevel (data n))) result)
    <$> DiagramEditor.runImpactAnalysis 4
          (Samples.activity <$> ["1"; "2"; "3"; "4"; "5"])
          [Samples.arrow "1" "2"; Samples.arrow "2" "3"; Samples.arrow "1" "4"] "1"
  = Some [("1", Some "critical"); ("2", Some "high"); ("3", Some "high");
          ("4", Some "high"); ("5", Some "none")].
Proof. vm_compute. reflexivity. Qed.

(** Clearing resets every node to 'none', and doing it twice changes nothing. *)
Lemma clearImpactAnalysis_idempotent (nodes : list (Node UPNNodeData)) :
  DiagramEditor.clearImpactAnalysis (DiagramEditor.clearImpactAnalysis nodes)
  = DiagramEditor.clearImpactAnalysis nodes.
Proof.
  unfold DiagramEditor.clearImpactAnalysis. rewrite <- list_fmap_compose.
  apply list_fmap_ext. done.
Qed.

(** * Process mode: edges are passed through *)

Section process_mode.

Import DiagramEditor.

(** The layout helpers return the edges they were given and keep the ids. *)
Lemma editor_layout_edges {D} (dagre_layout : LayoutEngine)
    (ns : list (Node D)) (es : list Edge) :
  (DiagramEditor.getLayoutedElements dagre_layout ns es).2 = es
  ∧ map id (DiagramEditor.getLayoutedElements dagre_layout ns es).1 = map id ns.
Proof.
  split; [done|]. simpl. rewrite <- list_fmap_compose. by apply list_fmap_ext.
Qed.

Lemma auto_layout_edges {D} (dagre_layout : LayoutEngine)
    (ns : list (Node D)) (es : list Edge) (direction : string) :
  (AutoDiagram.getLayoutedElements dagre_layout ns es direction).2 = es
  ∧ map id (AutoDiagram.getLayoutedElements dagre_layout ns es direction).1 = map id ns.
Proof.
  split; [done|]. simpl. rewrite <- list_fmap_compose. by apply list_fmap_ext.
Qed.

Lemma dictionary_layout_edges {D} (dagre_layout : LayoutEngine)
    (ns : list (Node D)) (es : list Edge) (direction : string) :
  (MetadataDictionary.getLayoutedElements dagre_layout ns es direction).2 = es
  ∧ map id (MetadataDictionary.getLayoutedElements dagre_layout ns es direction).1
    = map id ns.
Proof.
  split; [done|]. simpl. rewrite <- list_fmap_compose. by apply list_fmap_ext.
Qed.

(** C2, as stated, fails: the generated diagram with the node a and the edge
    a -> x comes out of [handleGenerate] with that edge, although no node x
    exists; [regenerateGraph] does the same with a process diagram. *)
Lemma process_mode_keeps_dangling_edge :
  let generated :=
    handleGenerate Samples.columnLayout (λ _, Normal (Some Samples.phantomDiagram))
      (Some "order to cash") Samples.emptyEditor in
  let drawn :=
    AutoDiagram.regenerateGraph Samples.columnLayout (Some Samples.phantomProcess)
      AutoDiagram.corporate ([], []) in
  (map id (nodes generated) = ["a"]
   ∧ map endpoints (edges generated) = [("a", "x")]
   ∧ ∃ e, e ∈ edges generated ∧ target e = "x" ∧ dangling (nodes generated) e)
  ∧ (map id drawn.1 = ["a"]
     ∧ map endpoints drawn.2 = [("a", "x")]
     ∧ ∃ e, e ∈ drawn.2 ∧ target e = "x" ∧ dangling drawn.1 e).
Proof.
  split.
  - split; [reflexivity|]. split; [reflexivity|].
    eexists. split; [left|]. split; [reflexivity|]. right.
    simpl. by intros [=]%list_elem_of_singleton.
  - split; [reflexivity|]. split; [reflexivity|].
    eexists. split; [left|]. split; [reflexivity|]. right.
    simpl. by intros [=]%list_elem_of_singleton.
Qed.

(** C2, amended.  In process mode every supplied edge is kept: the edges that
    come out are the supplied ones, one for one and in order, each with its
    source and target, whether or not these are ids of nodes; the nodes that
    come out carry the supplied ids, and no failure is reported. *)
Theorem process_mode_keeps_every_edge (dagre_layout : LayoutEngine)
    (generateDiagramFromRequirement : string → completion (option RawDiagram))
    (finalPrompt : string) (st : EditorState)
    (rawNodes : list RawNode) (rawEdges : list RawEdge)
    (diagramData : ProcessDiagram) (currentStyle : AutoDiagram.DiagramStyle)
    (drawn : list (Node AutoDiagram.NodeData) * list Edge) :
  generateDiagramFromRequirement finalPrompt
    = Normal (Some {| raw_nodes := Some rawNodes; raw_edges := Some rawEdges |}) →
  (let generated :=
     handleGenerate dagre_layout generateDiagramFromRequirement (Some finalPrompt) st in
   map endpoints (edges generated) = map (λ e, (raw_source e, raw_target e)) rawEdges
   ∧ map id (nodes generated) = map raw_id rawNodes
   ∧ alerts generated = alerts st)
  ∧ (let drawn' :=
       AutoDiagram.regenerateGraph dagre_layout (Some diagramData) currentStyle drawn in
     map endpoints drawn'.2 = map (λ e, (de_source e, de_target e)) (pd_edges diagramData)
     ∧ map id drawn'.1 = map dn_id (pd_nodes diagramData)).
Proof.
  intros Hgenerated. split.
  - unfold handleGenerate. rewrite Hgenerated. simpl.
    rewrite <- !list_fmap_compose. split; [|split]; [by apply list_fmap_ext..|done].
  - simpl. rewrite <- !list_fmap_compose. split; by apply list_fmap_ext.
Qed.

Lemma process_mode_keeps_every_edge_witness :
  let generated :=
    handleGenerate Samples.columnLayout (λ _, Normal (Some Samples.phantomDiagram))
      (Some "order to cash") Samples.emptyEditor in
  map endpoints (edges generated) = [("a", "x")].
Proof.
  apply (process_mode_keeps_every_edge Samples.columnLayout
           (λ _, Normal (Some Samples.phantomDiagram)) "order to cash"
           Samples.emptyEditor
           [ {| raw_id := "a"; raw_label := Some "Step A"; raw_data := None |} ]
           [ {| raw_edge_id := None; raw_source := "a"; raw_target := "x" |} ]
           Samples.phantomProcess AutoDiagram.corporate ([], [])).
  reflexivity.
Defined.

End process_mode.

(** * Array.prototype.sort under a total, transitive comparator *)

Section sort.

Context {A : Type} (comparefn : A → A → Z).

Local Abbreviation before := (λ a b, comparefn a b ≤ 0).

Hypothesis comparefn_total : ∀ a b, before a b ∨ before b a.
Hypothesis comparefn_trans : ∀ a b c, before a b → before b c → before a c.

Lemma sort_insert_perm (x : A) (l : list A) : sort_insert comparefn x l ≡ₚ x :: l.
Proof.
  induction l as [|y l IH]; simpl; [done|].
  case_decide; [done|]. rewrite IH. apply Permutation_swap.
Qed.

Lemma sort_perm (l : list A) : sort comparefn l ≡ₚ l.
Proof.
  induction l as [|x l IH]; simpl; [done|].
  unfold sort in *. simpl. by rewrite sort_insert_perm, IH.
Qed.

Lemma sort_insert_sorted (x : A) (l : list A) :
  StronglySorted before l → StronglySorted before (sort_insert comparefn x l).
Proof.
  induction 1 as [|y l Hsorted IH Hy]; simpl.
  - by repeat constructor.
  - case_decide as Hxy.
    + constructor; [by constructor|]. constructor; [done|].
      eapply Forall_impl; [exact Hy|]. intros z Hz. by eapply comparefn_trans.
    + constructor; [done|]. rewrite sort_insert_perm. constructor; [|done].
      by destruct (comparefn_total x y).
Qed.

Lemma sort_sorted (l : list A) : StronglySorted before (sort comparefn l).
Proof.
  induction l as [|x l IH]; [constructor|]. by apply sort_insert_sorted.
Qed.

End sort.

Lemma StronglySorted_weaken {A} (R1 R2 : A → A → Prop) (l : list A) :
  (∀ a b, R1 a b → R2 a b) → StronglySorted R1 l → StronglySorted R2 l.
Proof.
  intros Hweaken. induction 1 as [|x l _ IH Hx]; constructor; [done|].
  eapply Forall_impl; [exact Hx|]. auto.
Qed.

(** * The fallback layout (RecordDetailModal) *)

Lemma list_pair_ind {A} (P : list A → Prop) :
  P [] → (∀ a, P [a]) → (∀ a b l, P l → P (a :: b :: l)) → ∀ l, P l.
Proof.
  intros Hnil Hone Htwo l.
  cut (P l ∧ ∀ a, P (a :: l)); [by intros []|].
  induction l as [|b l [IH1 IH2]]; split; auto.
Qed.

Lemma pairUp_concat {A} (l : list A) : concat (pairUp l) = l.
Proof.
  induction l as [|a|a b l IH] using list_pair_ind; simpl; [done..|].
  by rewrite IH.
Qed.

Lemma pairUp_lengths {A} (l : list A) :
  ∀ i row, pairUp l !! i = Some row →
    length row = 2%nat ∨ (length row = 1%nat ∧ S i = length (pairUp l)).
Proof.
  induction l as [|a|a b l IH] using list_pair_ind; intros [|i] row Hrow;
    simplify_eq/=; auto.
  destruct (IH i row Hrow) as [?|[? ?]]; [by left|right]. split; [done|]. lia.
Qed.

Section default_layout.

Import RecordDetailModal.

Lemma buildRows_from (l : list SField) :
  ∀ (k : nat) (rows : list LayoutRow) (total : nat),
    total = (k + length l)%nat →
    foldl (pushField total) (rows, []) (imap (λ i f, ((k + i)%nat, f)) l)
    = (rows ++ ((λ items, {| layoutItems := items |}) <$> pairUp (fieldItem <$> l)), []).
Proof.
  induction l as [|a|a b l IH] using list_pair_ind; intros k rows total Htotal;
    simpl in *.
  - by rewrite (right_id_L [] (++)).
  - unfold pushField. simpl. case_decide as Hlast; [done|].
    exfalso. apply Hlast. right. lia.
  - unfold pushField at 3. simpl. case_decide as Hfirst.
    { exfalso. destruct Hfirst as [Hfirst|Hfirst]; simpl in Hfirst; lia. }
    unfold pushField at 2. simpl.
    rewrite (imap_ext _ (λ i f, ((k + 2 + i)%nat, f))).
    2:{ intros i f _. simpl. f_equal. lia. }
    rewrite (IH (k + 2)%nat _ total); [|lia].
    by rewrite <- (assoc_L (++)).
Qed.

Lemma buildRows_pairs (l : list SField) :
  buildRows l = ((λ items, {| layoutItems := items |}) <$> pairUp (fieldItem <$> l), []).
Proof. exact (buildRows_from l 0 [] (length l) eq_refl). Qed.

Section collation.

Variable localeCompare : string → string → Z.

Hypothesis localeCompare_total :
  ∀ s t, localeCompare s t ≤ 0 ∨ localeCompare t s ≤ 0.
Hypothesis localeCompare_trans :
  ∀ s t u, localeCompare s t ≤ 0 → localeCompare t u ≤ 0 → localeCompare s u ≤ 0.

(** The comparator of the source orders fields as the specification says. *)
Lemma compareFields_defaultOrder (a b : SField) :
  compareFields localeCompare a b ≤ 0 ↔ defaultOrder localeCompare a b.
Proof.
  unfold compareFields, defaultOrder, fieldRank.
  repeat case_decide; split; try lia; try (intros [?|[? ?]]; lia); try congruence.
Qed.

Lemma compareFields_total (a b : SField) :
  compareFields localeCompare a b ≤ 0 ∨ compareFields localeCompare b a ≤ 0.
Proof.
  unfold compareFields. repeat case_decide; try lia; try congruence.
  apply localeCompare_total.
Qed.

Lemma compareFields_trans (a b c : SField) :
  compareFields localeCompare a b ≤ 0 → compareFields localeCompare b c ≤ 0 →
  compareFields localeCompare a c ≤ 0.
Proof.
  unfold compareFields. repeat case_decide; try lia; try congruence.
  apply localeCompare_trans.
Qed.

(** C3.  For every field list, and a collation that is total and transitive,
    the fallback layout lists the same fields as the input, in an order where
    the field named Name comes first, the field named Id next and the others
    follow by label; the rows hold these fields in that order, two to a row,
    only the last row possibly holding one. *)
Theorem createDefaultLayout_order_and_rows (objectType : string) (fields : list SField) :
  ∃ rows,
    detailLayoutSections (createDefaultLayout localeCompare objectType fields)
      = [ {| heading := objectType +:+ " Details"; useHeading := true;
             layoutRows := rows; columns := Some 2 |} ]
    ∧ sortedFields localeCompare fields ≡ₚ fields
    ∧ StronglySorted (defaultOrder localeCompare) (sortedFields localeCompare fields)
    ∧ concat (layoutItems <$> rows) = fieldItem <$> sortedFields localeCompare fields
    ∧ ∀ i row, rows !! i = Some row →
        length (layoutItems row) = 2%nat
        ∨ (length (layoutItems row) = 1%nat ∧ S i = length rows).
Proof.
  exists (buildRows (sortedFields localeCompare fields)).1.
  split; [done|]. split; [apply sort_perm|]. split.
  { eapply StronglySorted_weaken; [apply compareFields_defaultOrder|].
    apply sort_sorted; [apply compareFields_total|apply compareFields_trans]. }
  rewrite buildRows_pairs. simpl. split.
  - rewrite <- list_fmap_compose. simpl.
    erewrite (list_fmap_ext _ Datatypes.id); [|done].
    by rewrite list_fmap_id, pairUp_concat.
  - intros i row Hrow. apply list_lookup_fmap_Some in Hrow as (items & -> & Hitems).
    rewrite length_fmap. simpl. by apply pairUp_lengths.
Qed.

End collation.

End default_layout.

Lemma codeUnitCompare_le (s t : string) :
  Samples.codeUnitCompare s t ≤ 0 ↔ String.le s t.
Proof.
  unfold Samples.codeUnitCompare. repeat case_decide; subst; split; try done; try lia.
Qed.

Lemma codeUnitCompare_total (s t : string) :
  Samples.codeUnitCompare s t ≤ 0 ∨ Samples.codeUnitCompare t s ≤ 0.
Proof. rewrite !codeUnitCompare_le. apply total, _. Qed.

Lemma codeUnitCompare_trans (s t u : string) :
  Samples.codeUnitCompare s t ≤ 0 → Samples.codeUnitCompare t u ≤ 0 →
  Samples.codeUnitCompare s u ≤ 0.
Proof. rewrite !codeUnitCompare_le. apply transitivity. Qed.

Lemma createDefaultLayout_order_and_rows_witness :
  ∃ rows,
    detailLayoutSections
      (RecordDetailModal.createDefaultLayout Samples.codeUnitCompare "Account"
         Samples.accountFields)
      = [ {| heading := "Account" +:+ " Details"; useHeading := true;
             layoutRows := rows; columns := Some 2 |} ]
    ∧ RecordDetailModal.sortedFields Samples.codeUnitCompare Samples.accountFields
        ≡ₚ Samples.accountFields
    ∧ StronglySorted (defaultOrder Samples.codeUnitCompare)
        (RecordDetailModal.sortedFields Samples.codeUnitCompare Samples.accountFields)
    ∧ concat (layoutItems <$> rows)
      = RecordDetailModal.fieldItem
          <$> RecordDetailModal.sortedFields Samples.codeUnitCompare Samples.accountFields
    ∧ ∀ i row, rows !! i = Some row →
        length (layoutItems row) = 2%nat
        ∨ (length (layoutItems row) = 1%nat ∧ S i = length rows).
Proof.
  apply (createDefaultLayout_order_and_rows Samples.codeUnitCompare
           codeUnitCompare_total codeUnitCompare_trans "Account" Samples.accountFields).
Defined.

(** Five fields: Name, Id, then Phone, Industry, Website by their labels. *)
Example createDefaultLayout_example :
  (λ row, lc_value <$> (layoutItems row ≫= layoutComponents))
    <$> (detailLayoutSections
           (RecordDetailModal.createDefaultLayout Samples.codeUnitCompare "Account"
              Samples.accountFields) ≫= layoutRows)
  = [ ["Name"; "Id"]; ["Phone"; "Industry"]; ["Website"] ].
Proof. vm_compute. reflexivity. Qed.

(** C8, as stated, fails: for the custom object with API name Invoice__c and
    label Invoice, whose records have the type Invoice__c, the heading is
    "Invoice__c Details", not "Invoice Details". *)
Lemma default_heading_is_not_the_label :
  let layout :=
    RecordDetailModal.createDefaultLayout Samples.codeUnitCompare
      (obj_apiName Samples.invoiceObject) Samples.accountFields in
  heading <$> detailLayoutSections layout = ["Invoice__c Details"]
  ∧ heading <$> detailLayoutSections layout
    ≠ [obj_label Samples.invoiceObject +:+ " Details"].
Proof. split; [reflexivity|]. intros [=]. Qed.

(** C8, amended.  The fallback layout has the id 'system-default' and one
    section, with [useHeading] true, whose heading is the object type name
    given to the builder (the API name of the record's object) followed by
    " Details". *)
Theorem createDefaultLayout_single_section (localeCompare : string → string → Z)
    (objectType : string) (fields : list SField) :
  ∃ rows,
    RecordDetailModal.createDefaultLayout localeCompare objectType fields
    = {| pl_id := "system-default";
         pl_name := "System Default Layout";
         detailLayoutSections :=
           [ {| heading := objectType +:+ " Details"; useHeading := true;
                layoutRows := rows; columns := Some 2 |} ] |}.
Proof. by eexists. Qed.

(** * Record loading and the layout service *)

Section layout_service.

Import SalesforceService.

Variable fetch : string → string → completion Response.
Variable encodeURIComponent : string → string.

(** The layout service swallows every failure of its own. *)
Lemma fetchObjectLayouts_never_throws (instanceUrl accessToken objectName : string) :
  ∃ found,
    fetchObjectLayouts fetch encodeURIComponent instanceUrl accessToken objectName
    = Normal found.
Proof.
  unfold fetchObjectLayouts, try_catch, mbind, completion_bind, bind.
  destruct (fetch _ _) as [res|]; [|by eexists].
  destruct (ok res); simpl; [|by eexists].
  destruct (json res); by eexists.
Qed.

(** A rejected request, a response that is not ok, a body that does not parse
    and a body without a [layouts] array all give zero layouts. *)
Lemma fetchObjectLayouts_failure (instanceUrl accessToken objectName : string) :
  let url :=
    PROXY_URL +:+ encodeURIComponent
      (instanceUrl +:+ "/services/data/v60.0/sobjects/" +:+ objectName
       +:+ "/describe/layouts") in
  (∀ res, fetch url ("Bearer " +:+ accessToken) = Normal res →
     ok res = false ∨ (∃ e, json res = Throw e)
     ∨ json res = Normal {| layouts := None |}) →
  fetchObjectLayouts fetch encodeURIComponent instanceUrl accessToken objectName
  = Normal [].
Proof.
  intros url Hfail. unfold fetchObjectLayouts, try_catch, mbind, completion_bind, bind.
  fold url. destruct (fetch url _) as [res|] eqn:Hres; [|done].
  destruct (Hfail res eq_refl) as [->|[[e ->]| ->]]; [done| |].
  - by destruct (ok res).
  - by destruct (ok res).
Qed.

End layout_service.

Section record_loading.

Import SalesforceService RecordDetailModal.

Variable localeCompare : string → string → Z.
Variable fetchObjectDetails : string → string → string → completion ObjectDetails.
Variable fetchRecordWithRelated :
  string → string → string → string → list SChildRelationship → completion RecordResult.
Variable fetchObjectLayouts : string → string → string → completion (list PageLayout).

Local Abbreviation load :=
  (loadRecordAndMetadata localeCompare fetchObjectDetails fetchRecordWithRelated
     fetchObjectLayouts).

(** Whatever the three services do, the loader itself completes normally. *)
Lemma loadRecordAndMetadata_never_throws (orgMetadata : OrgMetadata)
    (recordId objectType : string) (st : ModalState) :
  (load orgMetadata recordId objectType st).1 = Normal tt.
Proof.
  unfold loadRecordAndMetadata, loadLayouts, useDefaultLayout, tryCatch, tryFinally,
    await, call, mbind, Load_bind, andThen. simpl.
  destruct (fetchObjectDetails _ _ _) as [objDetails|]; [|done].
  destruct (fetchRecordWithRelated _ _ _ _ _) as [recordResult|]; [|done].
  by destruct (fetchObjectLayouts _ _ _) as [[|first found]|].
Qed.

(** C4.  When the describe call and the record fetch have succeeded and the
    layout service throws or returns zero layouts, the loader completes
    normally with no error recorded; the only layout listed is the fallback
    layout built from the object's fields, it is the selected one, and its id
    is 'system-default'. *)
Theorem layout_failure_selects_default (orgMetadata : OrgMetadata)
    (recordId objectType : string) (st : ModalState)
    (objDetails : ObjectDetails) (recordResult : RecordResult) :
  fetchObjectDetails (instanceUrl orgMetadata) (accessToken orgMetadata) objectType
    = Normal objDetails →
  fetchRecordWithRelated (instanceUrl orgMetadata) (accessToken orgMetadata)
    objectType recordId (childRelationships objDetails) = Normal recordResult →
  (fetchObjectLayouts (instanceUrl orgMetadata) (accessToken orgMetadata) objectType
     = Normal []
   ∨ ∃ e, fetchObjectLayouts (instanceUrl orgMetadata) (accessToken orgMetadata)
            objectType = Throw e) →
  ∃ st',
    load orgMetadata recordId objectType st = (Normal tt, st')
    ∧ layouts st' = [createDefaultLayout localeCompare objectType (fields objDetails)]
    ∧ selectedLayoutId st' = "system-default"
    ∧ pl_id <$> layouts st' = [selectedLayoutId st']
    ∧ error st' = None
    ∧ loading st' = false
    ∧ layoutLoading st' = false
    ∧ data st' = Some (mainRecord recordResult)
    ∧ relatedData st' = Some (relatedOf recordResult).
Proof.
  intros Hdetails Hrecord Hlayouts.
  unfold loadRecordAndMetadata, loadLayouts, useDefaultLayout, tryCatch, tryFinally,
    await, call, mbind, Load_bind, andThen. simpl.
  rewrite Hdetails, Hrecord.
  destruct Hlayouts as [->|[e ->]]; eexists; (split; [reflexivity|done]).
Qed.

End record_loading.

Lemma layout_failure_selects_default_witness :
  ∃ st',
    RecordDetailModal.loadRecordAndMetadata Samples.codeUnitCompare
      (λ _ _ _, Normal Samples.accountDetails)
      (λ _ _ _ _ _, Normal (SalesforceService.with_relatedData Samples.accountRecord ∅))
      (λ _ _ _, Throw "Failed to fetch")
      Samples.acme "001000000000001" "Account" Samples.closedModal = (Normal tt, st')
    ∧ RecordDetailModal.layouts st'
      = [RecordDetailModal.createDefaultLayout Samples.codeUnitCompare "Account"
           (RecordDetailModal.fields Samples.accountDetails)]
    ∧ RecordDetailModal.selectedLayoutId st' = "system-default"
    ∧ pl_id <$> RecordDetailModal.layouts st' = [RecordDetailModal.selectedLayoutId st']
    ∧ RecordDetailModal.error st' = None
    ∧ RecordDetailModal.loading st' = false
    ∧ RecordDetailModal.layoutLoading st' = false
    ∧ RecordDetailModal.data st'
      = Some (RecordDetailModal.mainRecord
                (SalesforceService.with_relatedData Samples.accountRecord ∅))
    ∧ RecordDetailModal.relatedData st'
      = Some (RecordDetailModal.relatedOf
                (SalesforceService.with_relatedData Samples.accountRecord ∅)).
Proof.
  apply (layout_failure_selects_default Samples.codeUnitCompare
           (λ _ _ _, Normal Samples.accountDetails)
           (λ _ _ _ _ _, Normal (SalesforceService.with_relatedData Samples.accountRecord ∅))
           (λ _ _ _, Throw "Failed to fetch")
           Samples.acme "001000000000001" "Account" Samples.closedModal
           Samples.accountDetails
           (SalesforceService.with_relatedData Samples.accountRecord ∅)).
  - reflexivity.
  - reflexivity.
  - right. by eexists.
Defined.

(** * Related lists (salesforceService) *)

Lemma string_app_cons (c : Ascii.ascii) (s t : string) :
  String c s +:+ t = String c (s +:+ t).
Proof. reflexivity. Qed.

Lemma string_app_assoc (s t u : string) : s +:+ t +:+ u = (s +:+ t) +:+ u.
Proof.
  induction s as [|c s IH]; [done|]. by rewrite !string_app_cons, IH.
Qed.

Lemma string_app_empty (s : string) : s +:+ EmptyString = s.
Proof. induction s as [|c s IH]; [done|]. by rewrite string_app_cons, IH. Qed.

Section related_lists.

Import SalesforceService.

Lemma relationshipsToQuery_bound (childRels : list SChildRelationship) :
  (length (relationshipsToQuery childRels) ≤ 10)%nat
  ∧ relationshipsToQuery childRels `sublist_of` childRels
  ∧ ∀ r, r ∈ relationshipsToQuery childRels → relationshipName r ≠ EmptyString.
Proof.
  unfold relationshipsToQuery, slice0. split; [rewrite length_take; lia|]. split.
  - etrans; [apply sublist_take|apply sublist_filter].
  - intros r Hr%subseteq_take. by apply list_elem_of_filter in Hr as [? _].
Qed.

(** What the [forEach] leaves under a key: the rows found under that key of
    the result row, for a relationship that was queried. *)
Lemma collectRelated_lookup (resultRow : ResultRow) (queried : list SChildRelationship)
    (name : string) (rows : list SRecord) :
  collectRelated resultRow queried !! name = Some rows →
  name ∈ relationshipName <$> queried
  ∧ truthy (resultRow !! name) = true
  ∧ rows = records_or_empty (resultRow !! name).
Proof.
  unfold collectRelated.
  cut (∀ acc : gmap string (list SRecord),
         foldl (λ relatedData r,
                  let v := resultRow !! relationshipName r in
                  if truthy v then <[relationshipName r := records_or_empty v]> relatedData
                  else relatedData) acc queried !! name = Some rows →
         acc !! name = Some rows
         ∨ (name ∈ relationshipName <$> queried
            ∧ truthy (resultRow !! name) = true
            ∧ rows = records_or_empty (resultRow !! name))).
  { intros Hcut Hlookup. destruct (Hcut ∅ Hlookup) as [Hempty|?]; [|done].
    by rewrite lookup_empty in Hempty. }
  induction queried as [|r queried IH]; intros acc Hlookup; simpl in *; [by left|].
  destruct (IH _ Hlookup) as [Hacc|(Hin & Htruthy & Hrows)].
  - destruct (truthy (resultRow !! relationshipName r)) eqn:Htruthy; [|by left].
    destruct (decide (relationshipName r = name)) as [<-|Hne].
    + rewrite lookup_insert_eq in Hacc. injection Hacc as <-.
      right. split; [left|done].
    + rewrite lookup_insert_ne in Hacc by done. by left.
  - right. split; [by right|done].
Qed.

Section services.

Variable fetchRecordById : string → string → string → string → completion SRecord.
Variable fetchQuery : string → string → string → completion QueryResult.

(** The function resolves as soon as the point lookup does, with the base
    record and some related data. *)
Lemma fetchRecordWithRelated_resolves
    (instanceUrl accessToken objectName recordId : string)
    (childRels : list SChildRelationship) (baseRecord : SRecord) :
  fetchRecordById instanceUrl accessToken objectName recordId = Normal baseRecord →
  fetchRecordWithRelated fetchRecordById fetchQuery instanceUrl accessToken objectName
    recordId childRels
  = Normal (with_relatedData baseRecord
      (if decide (length (relationshipsToQuery childRels) = 0%nat) then ∅
       else match fetchQuery instanceUrl accessToken
                    (relatedQuery objectName recordId (relationshipsToQuery childRels)) with
            | Normal {| records := Some (resultRow :: _) |} =>
                collectRelated resultRow (relationshipsToQuery childRels)
            | _ => ∅
            end)).
Proof.
  intros Hbase.
  unfold fetchRecordWithRelated, queryRelated, try_catch, mbind, completion_bind, bind.
  rewrite Hbase. case_decide; [done|].
  destruct (fetchQuery _ _ _) as [[size [[|resultRow others]|]]|]; done.
Qed.

(** The traced function completes as [fetchRecordWithRelated] does. *)
Lemma traced_completion
    (instanceUrl accessToken objectName recordId : string)
    (childRels : list SChildRelationship) :
  (Wire.fetchRecordWithRelated fetchRecordById fetchQuery instanceUrl accessToken
     objectName recordId childRels).1
  = fetchRecordWithRelated fetchRecordById fetchQuery instanceUrl accessToken
      objectName recordId childRels.
Proof.
  unfold Wire.fetchRecordWithRelated, fetchRecordWithRelated, queryRelated,
    relationshipsToQuery, relatedQuery, subquery, Wire.andThen, Wire.tryCatch,
    Wire.awaitRecordById, Wire.awaitQuery, Wire.ret, try_catch, mbind,
    completion_bind, bind.
  simpl. destruct (fetchRecordById _ _ _ _) as [baseRecord|]; simpl; [|done].
  case_decide; simpl; [done|].
  destruct (fetchQuery _ _ _) as [[size [[|resultRow others]|]]|]; done.
Qed.

(** The calls the traced function makes: the lookup, then the query when the
    lookup succeeded and a relationship is to be queried. *)
Lemma traced_requests
    (instanceUrl accessToken objectName recordId : string)
    (childRels : list SChildRelationship) :
  (Wire.fetchRecordWithRelated fetchRecordById fetchQuery instanceUrl accessToken
     objectName recordId childRels).2
  = Wire.RecordById instanceUrl accessToken objectName recordId
    :: match fetchRecordById instanceUrl accessToken objectName recordId with
       | Throw _ => []
       | Normal _ =>
           if decide (relationshipsToQuery childRels = []) then []
           else [Wire.Query instanceUrl accessToken
                   (relatedQuery objectName recordId (relationshipsToQuery childRels))]
       end.
Proof.
  unfold Wire.fetchRecordWithRelated, relatedQuery, subquery.
  change (slice0 10 (filter (λ r, relationshipName r ≠ EmptyString) childRels))
    with (relationshipsToQuery childRels).
  generalize (relationshipsToQuery childRels). intros queried.
  unfold Wire.andThen, Wire.tryCatch, Wire.awaitRecordById, Wire.awaitQuery, Wire.ret.
  cbn [fst snd]. destruct (fetchRecordById _ _ _ _) as [baseRecord|]; [|done].
  destruct queried as [|r queried]; [done|].
  rewrite decide_False by done. rewrite decide_False by done. cbn [fst snd].
  destruct (fetchQuery _ _ _) as [[size [[|resultRow others]|]]|]; done.
Qed.

(** C5.  For every list of child relationships, the calls the record fetch
    makes are the lookup by id and then at most one query.  The relationships
    that query names are the first ten of those with a non-empty relationship
    name, in order; its text holds one sub-select per such relationship, each
    written with LIMIT 5.  Every list of child records in the resulting
    [relatedData] belongs to a queried relationship and holds the records the
    first row of the answer carries under that name, all of them: the
    function drops none. *)
Theorem related_lists_requested_and_kept
    (instanceUrl accessToken objectName recordId : string)
    (childRels : list SChildRelationship) (baseRecord : SRecord) :
  fetchRecordById instanceUrl accessToken objectName recordId = Normal baseRecord →
  ∃ queried query,
    queried = take 10 (filter (λ r, relationshipName r ≠ EmptyString) childRels)
    ∧ (length queried ≤ 10)%nat
    ∧ queried `sublist_of` childRels
    ∧ (∀ r, r ∈ queried → relationshipName r ≠ EmptyString)
    ∧ query
      = "SELECT Id, "
        +:+ join ", "
              ((λ r, "(SELECT Id, Name, CreatedDate FROM " +:+ relationshipName r
                     +:+ " LIMIT 5)") <$> queried)
        +:+ " FROM " +:+ objectName +:+ " WHERE Id = '" +:+ recordId +:+ "'"
    ∧ (Wire.fetchRecordWithRelated fetchRecordById fetchQuery instanceUrl accessToken
         objectName recordId childRels).2
      = Wire.RecordById instanceUrl accessToken objectName recordId
        :: (if decide (queried = []) then []
            else [Wire.Query instanceUrl accessToken query])
    ∧ ∃ relatedData,
        (Wire.fetchRecordWithRelated fetchRecordById fetchQuery instanceUrl accessToken
           objectName recordId childRels).1
        = Normal (with_relatedData baseRecord relatedData)
        ∧ fetchRecordWithRelated fetchRecordById fetchQuery instanceUrl accessToken
            objectName recordId childRels
          = Normal (with_relatedData baseRecord relatedData)
        ∧ ∀ name rows, relatedData !! name = Some rows →
            name ∈ relationshipName <$> queried
            ∧ ∃ size resultRow others,
                fetchQuery instanceUrl accessToken query
                = Normal {| totalSize := size; records := Some (resultRow :: others) |}
                ∧ rows = records_or_empty (resultRow !! name).
Proof.
  intros Hbase.
  destruct (relationshipsToQuery_bound childRels) as (Hten & Hsub & Hnamed).
  exists (relationshipsToQuery childRels),
    (relatedQuery objectName recordId (relationshipsToQuery childRels)).
  split; [done|]. split; [done|]. split; [done|]. split; [done|]. split; [done|].
  split.
  { by rewrite traced_requests, Hbase. }
  eexists. rewrite traced_completion.
  split; [by apply fetchRecordWithRelated_resolves|].
  split; [by apply fetchRecordWithRelated_resolves|].
  intros name rows. case_decide; [by rewrite lookup_empty|].
  destruct (fetchQuery _ _ _) as [[size [[|resultRow others]|]]|] eqn:Hquery;
    try by rewrite lookup_empty.
  intros (Hin & _ & ->)%collectRelated_lookup. split; [done|].
  by exists size, resultRow, others.
Qed.

(** C6.  When the point lookup has succeeded and the combined query throws,
    the function still resolves: with the properties of the base record and
    an empty [relatedData]. *)
Theorem related_query_failure_keeps_record
    (instanceUrl accessToken objectName recordId : string)
    (childRels : list SChildRelationship) (baseRecord : SRecord) (e : string) :
  fetchRecordById instanceUrl accessToken objectName recordId = Normal baseRecord →
  fetchQuery instanceUrl accessToken
    (relatedQuery objectName recordId (relationshipsToQuery childRels)) = Throw e →
  fetchRecordWithRelated fetchRecordById fetchQuery instanceUrl accessToken
    objectName recordId childRels
  = Normal (<["relatedData" := Related ∅]> (Scalar <$> baseRecord))
  ∧ RecordDetailModal.relatedOf (<["relatedData" := Related ∅]> (Scalar <$> baseRecord)) = ∅
  ∧ ∀ key, key ≠ "relatedData" →
      RecordDetailModal.mainRecord (<["relatedData" := Related ∅]> (Scalar <$> baseRecord))
        !! key = Scalar <$> (baseRecord !! key).
Proof.
  intros Hbase Hquery. split; [|split].
  - rewrite (fetchRecordWithRelated_resolves _ _ _ _ _ _ Hbase), Hquery.
    by case_decide.
  - unfold RecordDetailModal.relatedOf. by rewrite lookup_insert_eq.
  - intros key Hkey. unfold RecordDetailModal.mainRecord.
    by rewrite lookup_delete_ne, lookup_insert_ne, lookup_fmap.
Qed.

End services.

End related_lists.

Lemma related_lists_requested_and_kept_witness :
  ∃ relatedData,
    (Wire.fetchRecordWithRelated Samples.lookupAccount Samples.answeringQuery
       "https://acme.my.salesforce.com" "token" "Account" "001000000000001"
       Samples.accountRelationships).2
    = [ Wire.RecordById "https://acme.my.salesforce.com" "token" "Account"
          "001000000000001";
        Wire.Query "https://acme.my.salesforce.com" "token"
          ("SELECT Id, "
           +:+ join ", "
                 ((λ r, "(SELECT Id, Name, CreatedDate FROM " +:+ relationshipName r
                        +:+ " LIMIT 5)")
                    <$> take 10 (filter (λ r, relationshipName r ≠ EmptyString)
                                   Samples.accountRelationships))
           +:+ " FROM Account WHERE Id = '001000000000001'") ]
    ∧ SalesforceService.fetchRecordWithRelated Samples.lookupAccount
        Samples.answeringQuery "https://acme.my.salesforce.com" "token" "Account"
        "001000000000001" Samples.accountRelationships
      = Normal (SalesforceService.with_relatedData Samples.accountRecord relatedData).
Proof.
  destruct (related_lists_requested_and_kept Samples.lookupAccount
              Samples.answeringQuery "https://acme.my.salesforce.com" "token" "Account"
              "001000000000001" Samples.accountRelationships Samples.accountRecord
              eq_refl)
    as (queried & query & -> & _ & _ & _ & -> & Hsent & relatedData & _ & Hresult & _).
  exists relatedData. split; [exact Hsent|exact Hresult].
Defined.

(** The client does not cap the lists itself: six contacts in the answer are
    six contacts in [relatedData], although the sub-select asked for five. *)
Lemma related_list_of_six_is_kept :
  ∃ relatedData rows,
    SalesforceService.fetchRecordWithRelated Samples.lookupAccount
      Samples.generousQuery "https://acme.my.salesforce.com" "token" "Account"
      "001000000000001" Samples.accountRelationships
    = Normal (SalesforceService.with_relatedData Samples.accountRecord relatedData)
    ∧ "Contacts" ∈ relationshipName
                     <$> SalesforceService.relationshipsToQuery
                           Samples.accountRelationships
    ∧ relatedData !! "Contacts" = Some rows
    ∧ ¬ (length rows ≤ 5)%nat.
Proof.
  exists {[ "Contacts" :=
              SalesforceService.records_or_empty
                (Samples.sixContactsRow !! "Contacts") ]},
    (SalesforceService.records_or_empty (Samples.sixContactsRow !! "Contacts")).
  split; [vm_compute; reflexivity|]. split; [vm_compute; by left|].
  split; [apply lookup_singleton_eq|]. vm_compute. lia.
Qed.

(** Thirteen relationships, twelve of them named: ten sub-selects are written,
    and the two contacts the platform sends back are kept under their name. *)
Example fetchRecordWithRelated_example :
  length (SalesforceService.relationshipsToQuery Samples.accountRelationships) = 10%nat
  ∧ SalesforceService.fetchRecordWithRelated Samples.lookupAccount
      Samples.answeringQuery "https://acme.my.salesforce.com" "token" "Account"
      "001000000000001" Samples.accountRelationships
    = Normal (SalesforceService.with_relatedData Samples.accountRecord
        {[ "Contacts" := [ {[ "Name" := SalesforceService.FStr "Ann" ]};
                           {[ "Name" := SalesforceService.FStr "Bob" ]} ] ]}).
Proof. split; vm_compute; reflexivity. Qed.

Lemma related_query_failure_keeps_record_witness :
  SalesforceService.fetchRecordWithRelated Samples.lookupAccount Samples.failingQuery
    "https://acme.my.salesforce.com" "token" "Account" "001000000000001"
    Samples.accountRelationships
  = Normal (<["relatedData" := SalesforceService.Related ∅]>
              (SalesforceService.Scalar <$> Samples.accountRecord)).
Proof.
  apply (related_query_failure_keeps_record Samples.lookupAccount Samples.failingQuery
           "https://acme.my.salesforce.com" "token" "Account" "001000000000001"
           Samples.accountRelationships Samples.accountRecord "MALFORMED_QUERY").
  - reflexivity.
  - reflexivity.
Defined.

(** * The dependency graph (MetadataDictionary) *)

Section dependency_graph.

Import MetadataDictionary.

Lemma isReference_drawn (f : SField) : isReference f = true ↔ drawn f.
Proof.
  unfold isReference, drawn. rewrite andb_true_iff, bool_decide_eq_true.
  destruct (referenceTo f) as [[|first others]|]; naive_solver.
Qed.

Lemma drawn_firstTarget (f : SField) :
  drawn f → ∃ first others,
    referenceTo f = Some (first :: others) ∧ firstTarget f = Some first.
Proof.
  intros (_ & first & others & Hto). exists first, others.
  unfold firstTarget. by rewrite Hto.
Qed.

Lemma referenceFields_drawn (fields : list SField) :
  (length (referenceFields fields) ≤ 15)%nat
  ∧ (∀ f, f ∈ referenceFields fields → f ∈ fields ∧ drawn f)
  ∧ ((length (filter (λ f, isReference f = true) fields) ≤ 15)%nat →
     ∀ f, f ∈ fields → drawn f → f ∈ referenceFields fields).
Proof.
  unfold referenceFields, slice0. split; [rewrite length_take; lia|]. split.
  - intros f [Hf1 Hf2]%subseteq_take%list_elem_of_filter.
    by apply isReference_drawn in Hf1.
  - intros Hfew f Hf Hdrawn. rewrite take_ge by done.
    apply list_elem_of_filter. by rewrite isReference_drawn.
Qed.

Lemma Exists_id {D} (v : string) (ns : list (Node D)) :
  Exists (λ n, id n = v) ns ↔ v ∈ id <$> ns.
Proof.
  rewrite Exists_exists, list_elem_of_fmap. naive_solver.
Qed.

(** The [forEach] over fields that all have a first target. *)
Lemma addReference_fold (selectedObject : SObject) (l : list SField) :
  Forall drawn l →
  ∀ ns es, ∃ ns',
    foldl (addReference selectedObject) (ns, es) l
    = (ns', es ++ ((λ f, referenceEdge selectedObject f
                           (default EmptyString (firstTarget f))) <$> l))
    ∧ (NoDup (id <$> ns) → NoDup (id <$> ns'))
    ∧ ∀ v, v ∈ id <$> ns' ↔ v ∈ id <$> ns ∨ ∃ f, f ∈ l ∧ firstTarget f = Some v.
Proof.
  induction 1 as [|f l Hf _ IH]; intros ns es; simpl.
  - exists ns. rewrite (right_id_L [] (++)). split; [done|]. split; [done|].
    intros v. split; [by left|]. intros [?|(f & ?%elem_of_nil & _)]; done.
  - destruct (drawn_firstTarget f Hf) as (first & others & _ & Hfirst).
    unfold addReference at 2. rewrite Hfirst. simpl.
    set (ns1 := if decide (Exists (λ n, id n = first) ns) then ns
                else ns ++ [targetNode first]).
    destruct (IH ns1 (es ++ [referenceEdge selectedObject f first]))
      as (ns' & -> & Hdup & Hin).
    exists ns'. rewrite <- (assoc_L (++)). split; [done|].
    assert (∀ v, v ∈ id <$> ns1 ↔ v ∈ id <$> ns ∨ v = first) as Hns1.
    { intros v. subst ns1. case_decide as Hthere.
      - apply Exists_id in Hthere. naive_solver.
      - rewrite fmap_app, elem_of_app. simpl. rewrite list_elem_of_singleton. done. }
    split.
    + intros Hnodup. apply Hdup. subst ns1. case_decide as Hthere; [done|].
      rewrite fmap_app. apply NoDup_app. split; [done|].
      split; [|apply NoDup_singleton].
      intros v Hv ->%list_elem_of_singleton. apply Hthere. by apply Exists_id.
    + intros v. rewrite Hin, Hns1. split.
      * intros [[?| ->]|(g & Hg & ?)]; [by left| |].
        -- right. exists f. split; [left|done].
        -- right. exists g. split; [by right|done].
      * intros [?|(g & [-> |Hg]%elem_of_cons & Hgv)]; [by left; left| |].
        -- left. right. congruence.
        -- right. by exists g.
Qed.


End dependency_graph.


(** A field that may reference B or C gives one edge, to B; the lookup to the
    object itself and the second lookup to User add no node. *)
Example generateDependencyGraph_example :
  let graph :=
    MetadataDictionary.generateDependencyGraph Samples.columnLayout
      (Some Samples.taskObject) ([], []) in
  id <$> graph.1 = ["Task"; "B"; "User"]
  ∧ (λ e, (edge_id e, target e, edge_label e)) <$> graph.2
    = [ ("e-WhatId", "B", Some "Related To"); ("e-ParentId", "Task", Some "Parent Task");
        ("e-OwnerId", "User", Some "Assigned To");
        ("e-CreatedById", "User", Some "Created By") ].
Proof. split; vm_compute; reflexivity. Qed.

(** * The layout helpers *)

Section layout_helpers.

Variable dagre_layout : LayoutEngine.

Lemma setNode_by_id {D} (width height : Q) (nodes : list (Node D)) :
  map (λ node, setNode (id node) width height) nodes
  = (λ v, setNode v width height) <$> (id <$> nodes).
Proof. by rewrite <- list_fmap_compose. Qed.

Lemma setEdge_by_endpoints (edges : list Edge) :
  map (λ edge, setEdge (source edge) (target edge)) edges
  = (λ vw, setEdge vw.1 vw.2) <$> (endpoints <$> edges).
Proof. by rewrite <- list_fmap_compose. Qed.

(** The calls made on the graph mention the ids and the endpoints only. *)
Lemma populate_graph {D1 D2} (width height : Q)
    (nodes1 : list (Node D1)) (nodes2 : list (Node D2)) (edges1 edges2 : list Edge) :
  id <$> nodes1 = id <$> nodes2 →
  endpoints <$> edges1 = endpoints <$> edges2 →
  populate width height nodes1 edges1 = populate width height nodes2 edges2.
Proof.
  intros Hids Hends. unfold populate.
  by rewrite !setNode_by_id, !setEdge_by_endpoints, Hids, Hends.
Qed.

(** What the helpers hand to dagre and read back from it.  The calls made on
    the fresh graph mention the node ids, the edge endpoints and the direction
    only, and each node's position is read back under its id: two calls that
    agree on these give every node the same coordinates whatever else the
    nodes and edges carry.  dagre itself is outside the repository and enters
    as a function of the calls made on the graph; whether the library is
    deterministic is not something this says. *)
Lemma getLayoutedElements_reads_ids_and_endpoints {D1 D2}
    (nodes1 : list (Node D1)) (nodes2 : list (Node D2)) (edges1 edges2 : list Edge)
    (direction : string) :
  id <$> nodes1 = id <$> nodes2 →
  endpoints <$> edges1 = endpoints <$> edges2 →
  position <$> (MetadataDictionary.getLayoutedElements dagre_layout nodes1 edges1 direction).1
  = position <$> (MetadataDictionary.getLayoutedElements dagre_layout nodes2 edges2 direction).1
  ∧ position <$> (AutoDiagram.getLayoutedElements dagre_layout nodes1 edges1 direction).1
    = position <$> (AutoDiagram.getLayoutedElements dagre_layout nodes2 edges2 direction).1
  ∧ position <$> (DiagramEditor.getLayoutedElements dagre_layout nodes1 edges1).1
    = position <$> (DiagramEditor.getLayoutedElements dagre_layout nodes2 edges2).1.
Proof.
  intros Hids Hends.
  unfold MetadataDictionary.getLayoutedElements, AutoDiagram.getLayoutedElements,
    DiagramEditor.getLayoutedElements. simpl.
  rewrite <- !list_fmap_compose.
  rewrite (populate_graph MetadataDictionary.nodeWidth MetadataDictionary.nodeHeight
             nodes1 nodes2 edges1 edges2 Hids Hends).
  rewrite (populate_graph AutoDiagram.nodeWidth AutoDiagram.nodeHeight
             nodes1 nodes2 edges1 edges2 Hids Hends).
  rewrite (populate_graph 200 100 nodes1 nodes2 edges1 edges2 Hids Hends).
  split; [|split].
  - set (calls := setGraph direction None None :: _).
    transitivity
      ((λ v, {| x := (x (dagre_layout calls v) - MetadataDictionary.nodeWidth / 2)%Q;
                y := (y (dagre_layout calls v) - MetadataDictionary.nodeHeight / 2)%Q |})
         <$> (id <$> nodes1)).
    + by rewrite <- list_fmap_compose.
    + rewrite Hids. by rewrite <- list_fmap_compose.
  - set (calls := setGraph direction None None :: _).
    transitivity
      ((λ v, {| x := (x (dagre_layout calls v) - AutoDiagram.nodeWidth / 2)%Q;
                y := (y (dagre_layout calls v) - AutoDiagram.nodeHeight / 2)%Q |})
         <$> (id <$> nodes1)).
    + by rewrite <- list_fmap_compose.
    + rewrite Hids. by rewrite <- list_fmap_compose.
  - set (calls := setGraph "TB" (Some 50) (Some 80) :: _).
    transitivity
      ((λ v, {| x := (x (dagre_layout calls v) - 100)%Q;
                y := (y (dagre_layout calls v) - 50)%Q |})
         <$> (id <$> nodes1)).
    + by rewrite <- list_fmap_compose.
    + rewrite Hids. by rewrite <- list_fmap_compose.
Qed.

End layout_helpers.

Example getLayoutedElements_ignores_payload :
  position
    <$> (AutoDiagram.getLayoutedElements Samples.columnLayout
           [Samples.activity "1"; Samples.activity "2"] [Samples.arrow "1" "2"] "TB").1
  = position
      <$> (AutoDiagram.getLayoutedElements Samples.columnLayout
             (DiagramEditor.clearImpactAnalysis
                [Samples.activity "1"; Samples.activity "2"])
             [DiagramEditor.newEdge
                {| DiagramEditor.raw_edge_id := Some "first";
                   DiagramEditor.raw_source := "1";
                   DiagramEditor.raw_target := "2" |}] "TB").1.
Proof.
  apply (getLayoutedElements_reads_ids_and_endpoints Samples.columnLayout
           [Samples.activity "1"; Samples.activity "2"]
           (DiagramEditor.clearImpactAnalysis [Samples.activity "1"; Samples.activity "2"])
           [Samples.arrow "1" "2"]
           [DiagramEditor.newEdge
              {| DiagramEditor.raw_edge_id := Some "first";
                 DiagramEditor.raw_source := "1";
                 DiagramEditor.raw_target := "2" |}] "TB").
  - reflexivity.
  - reflexivity.
Qed.

(** Two nodes in a column: the anchors (0, 0) and (0, 100) become the corners
    (-90, -25) and (-90, 75) of 180 x 50 boxes. *)
Example getLayoutedElements_example :
  (λ p, (Qred (x p), Qred (y p)))
    <$> (position
           <$> (AutoDiagram.getLayoutedElements Samples.columnLayout
                  [Samples.activity "1"; Samples.activity "2"]
                  [Samples.arrow "1" "2"] "TB").1)
  = [ ((-90)%Q, (-25)%Q); ((-90)%Q, 75%Q) ].
Proof. vm_compute. reflexivity. Qed.

(** * Further properties: impact analysis *)

Lemma filter_none {A} (P : A → Prop) `{∀ x, Decision (P x)} (l : list A) :
  (∀ x, x ∈ l → ¬ P x) → filter P l = [].
Proof.
  induction l as [|x l IH]; intros Hnone; [done|].
  rewrite filter_cons. destruct (decide (P x)) as [HP|_].
  - destruct (Hnone x); [left|done].
  - apply IH. intros y Hy. apply Hnone. by right.
Qed.

Section impact_composition.

Import DiagramEditor.



Lemma annotate_affected (s : string) (R : gset string) (n : Node UPNNodeData) :
  affected (annotate s R n) ↔ id n = s ∨ id n ∈ R.
Proof.
  unfold affected. rewrite !annotate_level.
  repeat case_decide; split; naive_solver.
Qed.


(** X2.  Impact is nested: when a node is affected by an analysis started at
    [startNodeId], every node that an analysis started at that node affects
    is affected by the first analysis too. *)
Theorem impact_is_nested (fuel1 fuel2 : nat)
    (nodes : list (Node UPNNodeData)) (edges : list Edge) (startNodeId v : string)
    (outer inner : list (Node UPNNodeData)) :
  runImpactAnalysis fuel1 nodes edges startNodeId = Some outer →
  runImpactAnalysis fuel2 nodes edges v = Some inner →
  (∃ j n, outer !! j = Some n ∧ id n = v ∧ affected n) →
  ∀ i n2, inner !! i = Some n2 → affected n2 →
    ∃ n1, outer !! i = Some n1 ∧ id n1 = id n2 ∧ affected n1.
Proof.
  unfold runImpactAnalysis.
  destruct (bfs fuel1 edges [startNodeId] ∅) as [R1|] eqn:HR1; [|done].
  destruct (bfs fuel2 edges [v] ∅) as [R2|] eqn:HR2; [|done].
  simpl. intros [= <-] [= <-] (j & n & Hn & Hv & Haffected) i n2 Hn2 Haffected2.
  pose proof (bfs_downstream edges _ _ _ HR1) as Hdown1.
  pose proof (bfs_downstream edges _ _ _ HR2) as Hdown2.
  apply list_lookup_fmap_Some in Hn as (n0 & -> & _).
  apply list_lookup_fmap_Some in Hn2 as (m0 & -> & Hm0).
  rewrite annotate_id in Hv. subst v.
  apply annotate_affected in Haffected, Haffected2.
  assert (downstream edges startNodeId (id n0)) as Hreach.
  { destruct Haffected as [->|?]; [reflexivity|by apply Hdown1]. }
  assert (downstream edges (id n0) (id m0)) as Hreach2.
  { destruct Haffected2 as [->|?]; [reflexivity|by apply Hdown2]. }
  exists (annotate startNodeId R1 m0).
  split; [by rewrite list_lookup_fmap, Hm0|]. split; [by rewrite !annotate_id|].
  apply annotate_affected. right. apply Hdown1. by etrans.
Qed.

(** X3.  Started at a node without outgoing edges (or at an id that no edge
    leaves), one turn of the loop is enough: that node alone is 'critical' and
    every other node is 'none' and dimmed. *)
Theorem impact_of_a_leaf (nodes : list (Node UPNNodeData)) (edges : list Edge)
    (startNodeId : string) :
  (∀ e, e ∈ edges → source e ≠ startNodeId) →
  runImpactAnalysis 1 nodes edges startNodeId
  = Some ((λ n, if decide (id n = startNodeId) then with_impact n "critical" 1
                else with_impact n "none" (3 # 10)) <$> nodes).
Proof.
  intros Hleaf. unfold runImpactAnalysis. simpl. unfold children.
  assert (filter (λ e, source e = startNodeId) edges = []) as ->.
  { apply filter_none. intros e He. by apply Hleaf. }
  simpl. f_equal. apply list_fmap_ext. intros i n _. unfold annotate.
  case_decide; [done|]. case_decide as Hin; [|done]. set_solver.
Qed.

End impact_composition.

Lemma impact_is_nested_witness :
  ∃ n1,
    default [] (DiagramEditor.runImpactAnalysis 4
                  (Samples.activity <$> ["1"; "2"; "3"; "4"; "5"])
                  [Samples.arrow "1" "2"; Samples.arrow "2" "3"; Samples.arrow "1" "4"]
                  "1") !! 2%nat = Some n1
    ∧ id n1 = "3" ∧ affected n1.
Proof.
  apply (impact_is_nested 4 4 (Samples.activity <$> ["1"; "2"; "3"; "4"; "5"])
           [Samples.arrow "1" "2"; Samples.arrow "2" "3"; Samples.arrow "1" "4"]
           "1" "2"
           (default [] (DiagramEditor.runImpactAnalysis 4
                          (Samples.activity <$> ["1"; "2"; "3"; "4"; "5"])
                          [Samples.arrow "1" "2"; Samples.arrow "2" "3";
                           Samples.arrow "1" "4"] "1"))
           (default [] (DiagramEditor.runImpactAnalysis 4
                          (Samples.activity <$> ["1"; "2"; "3"; "4"; "5"])
                          [Samples.arrow "1" "2"; Samples.arrow "2" "3";
                           Samples.arrow "1" "4"] "2"))
           eq_refl eq_refl)
    with (i := 2%nat)
         (n2 := DiagramEditor.with_impact (Samples.activity "3") "high" 1).
  - exists 1%nat, (DiagramEditor.with_impact (Samples.activity "2") "high" 1).
    split; [reflexivity|]. split; [reflexivity|]. right. reflexivity.
  - reflexivity.
  - right. reflexivity.
Defined.

Lemma impact_of_a_leaf_witness :
  DiagramEditor.runImpactAnalysis 1
    (Samples.activity <$> ["1"; "2"; "3"])
    [Samples.arrow "1" "2"; Samples.arrow "2" "3"] "3"
  = Some ((λ n, if decide (id n = "3") then DiagramEditor.with_impact n "critical" 1
                else DiagramEditor.with_impact n "none" (3 # 10))
            <$> (Samples.activity <$> ["1"; "2"; "3"])).
Proof.
  apply (impact_of_a_leaf (Samples.activity <$> ["1"; "2"; "3"])
           [Samples.arrow "1" "2"; Samples.arrow "2" "3"] "3").
  intros e He. repeat (apply elem_of_cons in He as [->|He]; [done|]).
  by apply elem_of_nil in He.
Defined.

(** * Further properties: generating diagrams *)

Section editor_generation.

Import DiagramEditor.

Variable dagre_layout : LayoutEngine.
Variable generateDiagramFromRequirement : string → completion (option RawDiagram).

(** X4.  Whatever happens, [handleGenerate] ends with the busy flag cleared.
    When there is no prompt, or the service answers null or an object without
    nodes, the diagram and the alerts are left as they were: nothing tells the
    user.  When the service throws, the diagram is left as it was and one
    alert, "Failed to generate diagram.", is raised. *)
Theorem handleGenerate_without_diagram (finalPrompt : option string) (st : EditorState) :
  let out := handleGenerate dagre_layout generateDiagramFromRequirement finalPrompt st in
  isGenerating out = false
  ∧ (finalPrompt = None
     ∨ (∃ prompt, finalPrompt = Some prompt
          ∧ (generateDiagramFromRequirement prompt = Normal None
             ∨ ∃ es, generateDiagramFromRequirement prompt
                     = Normal (Some {| raw_nodes := None; raw_edges := es |}))) →
     nodes out = nodes st ∧ edges out = edges st ∧ alerts out = alerts st)
  ∧ (∀ prompt e, finalPrompt = Some prompt →
       generateDiagramFromRequirement prompt = Throw e →
       nodes out = nodes st ∧ edges out = edges st
       ∧ alerts out = alerts st ++ ["Failed to generate diagram."]).
Proof.
  simpl. split; [|split].
  - unfold handleGenerate. destruct finalPrompt as [prompt|]; [|done].
    destruct (generateDiagramFromRequirement prompt) as [[raw|]|]; try done.
    simpl. by destruct (raw_nodes raw).
  - intros [->|(prompt & -> & [Hnull|[es Hnone]])]; [done| |];
      unfold handleGenerate; [by rewrite Hnull|by rewrite Hnone].
  - intros prompt e -> Hthrow. unfold handleGenerate. by rewrite Hthrow.
Qed.

Lemma or_else_filled (v : option string) (fallback : string) :
  fallback ≠ EmptyString → or_else v fallback ≠ EmptyString.
Proof. intros Hfallback. unfold or_else. destruct v; [by case_decide|done]. Qed.

(** X5.  Every node of a generated diagram is an activity with a label and an
    outcome that are not empty, whatever the service left out, and carries no
    impact level yet; there is one node per supplied node. *)
Theorem handleGenerate_fills_activities (finalPrompt : string) (st : EditorState)
    (raw : RawDiagram) (rawNodes : list RawNode) :
  generateDiagramFromRequirement finalPrompt = Normal (Some raw) →
  raw_nodes raw = Some rawNodes →
  let out := handleGenerate dagre_layout generateDiagramFromRequirement
               (Some finalPrompt) st in
  length (nodes out) = length rawNodes
  ∧ ∀ i n, nodes out !! i = Some n →
      node_type n = Some "upn-activity"
      ∧ upn_label (data n) ≠ EmptyString
      ∧ (∃ outcome, upn_outcome (data n) = Some outcome ∧ outcome ≠ EmptyString)
      ∧ impactLevel (data n) = None.
Proof.
  intros Hraw Hnodes. unfold handleGenerate. rewrite Hraw. simpl. rewrite Hnodes.
  simpl. split; [by rewrite !length_map|].
  intros i n Hn. apply list_lookup_fmap_Some in Hn as (n0 & -> & Hn0).
  apply list_lookup_fmap_Some in Hn0 as (r & -> & _). simpl.
  split; [done|]. split; [by repeat apply or_else_filled|]. split; [|done].
  eexists. split; [done|]. by apply or_else_filled.
Qed.

End editor_generation.

Lemma handleGenerate_fills_activities_witness :
  let out :=
    DiagramEditor.handleGenerate Samples.columnLayout
      (λ _, Normal (Some Samples.phantomDiagram)) (Some "order to cash")
      Samples.emptyEditor in
  length (DiagramEditor.nodes out) = 1%nat
  ∧ ∀ i n, DiagramEditor.nodes out !! i = Some n →
      node_type n = Some "upn-activity"
      ∧ upn_label (data n) ≠ EmptyString
      ∧ (∃ outcome, upn_outcome (data n) = Some outcome ∧ outcome ≠ EmptyString)
      ∧ impactLevel (data n) = None.
Proof.
  apply (handleGenerate_fills_activities Samples.columnLayout
           (λ _, Normal (Some Samples.phantomDiagram)) "order to cash"
           Samples.emptyEditor Samples.phantomDiagram
           [ {| DiagramEditor.raw_id := "a"; DiagramEditor.raw_label := Some "Step A";
                DiagramEditor.raw_data := None |} ]).
  - reflexivity.
  - reflexivity.
Defined.

Section designer.

Import AutoDiagram Designer.

Variable dagre_layout : LayoutEngine.
Variable trim : string → string.
Variable generateDiagramFromRequirement : string → completion (option ProcessDiagram).


Lemma regenerateGraph_draws (d : ProcessDiagram) (style : DiagramStyle)
    (drawn : list (Node NodeData) * list Edge) :
  id <$> (regenerateGraph dagre_layout (Some d) style drawn).1 = dn_id <$> pd_nodes d
  ∧ endpoints <$> (regenerateGraph dagre_layout (Some d) style drawn).2
    = (λ e, (de_source e, de_target e)) <$> pd_edges d.
Proof. simpl. rewrite <- !list_fmap_compose. split; by apply list_fmap_ext. Qed.


(** X7.  With a requirement that is not blank, generating ends with the busy
    flag cleared.  A diagram with at least one node becomes the diagram data,
    clears the error and is drawn: one node per diagram node, with its id, and
    every diagram edge.  A null answer, a diagram without nodes or a failing
    service leave the drawing that was there, clear the diagram data and set
    an error message.  A blank requirement changes nothing. *)
Theorem designer_generation (st : DesignerState) :
  (trim (requirement st) = EmptyString →
   handleGenerate dagre_layout trim generateDiagramFromRequirement st = st)
  ∧ (trim (requirement st) ≠ EmptyString →
     let out := handleGenerate dagre_layout trim generateDiagramFromRequirement st in
     isGenerating out = false
     ∧ (∀ result, generateDiagramFromRequirement (requirement st) = Normal (Some result) →
          pd_nodes result ≠ [] →
          diagramData out = Some result ∧ error out = None
          ∧ id <$> (graph out).1 = dn_id <$> pd_nodes result
          ∧ endpoints <$> (graph out).2
            = (λ e, (de_source e, de_target e)) <$> pd_edges result)
     ∧ ((generateDiagramFromRequirement (requirement st) = Normal None
         ∨ (∃ result, generateDiagramFromRequirement (requirement st)
                      = Normal (Some result) ∧ pd_nodes result = [])
         ∨ ∃ e, generateDiagramFromRequirement (requirement st) = Throw e) →
        diagramData out = None ∧ graph out = graph st ∧ is_Some (error out))).
Proof.
  split; intros Hblank; unfold handleGenerate; [by rewrite decide_True|].
  rewrite decide_False by done. simpl. split; [|split].
  - destruct (generateDiagramFromRequirement _) as [[result|]|]; try done.
    by destruct (pd_nodes result).
  - intros result -> Hnodes.
    pose proof (regenerateGraph_draws result (currentStyle st) (graph st)) as Hdraws.
    destruct (pd_nodes result) as [|n ns]; [done|]. by simpl.
  - intros [->|[(result & -> & ->)|[e ->]]]; by simpl.
Qed.

End designer.

(** * Further properties: the dependency graph *)

Section dependency_graph_shape.

Import MetadataDictionary.

(** The nodes the [forEach] adds are target nodes, at most one per field. *)
Lemma addReference_nodes (selectedObject : SObject) (l : list SField) :
  ∀ ns es, ∃ added,
    (foldl (addReference selectedObject) (ns, es) l).1 = ns ++ (targetNode <$> added)
    ∧ (length added ≤ length l)%nat.
Proof.
  induction l as [|f l IH]; intros ns es; simpl.
  - exists []. simpl. by rewrite (right_id_L [] (++)).
  - unfold addReference at 2. destruct (firstTarget f) as [first|]; simpl.
    + case_decide.
      * destruct (IH ns (es ++ [referenceEdge selectedObject f first]))
          as (added & -> & Hlen). exists added. split; [done|lia].
      * destruct (IH (ns ++ [targetNode first])
                    (es ++ [referenceEdge selectedObject f first]))
          as (added & -> & Hlen).
        exists (first :: added). rewrite <- (assoc_L (++)). split; [done|simpl; lia].
    + destruct (IH ns es) as (added & Heq & Hlen). exists added.
      split; [by destruct (foldl _ _ _)|lia].
Qed.

(** X8.  The dependency graph has no dangling edge: every edge leaves the
    selected object and both its ends are nodes of the graph.  The selected
    object is the first node and the only one of type 'input'; there are at
    most 16 nodes, never more than one per edge besides the selected object. *)
Theorem dependency_graph_is_closed (dagre_layout : LayoutEngine)
    (selectedObject : SObject) (fields : list SField)
    (st : list (Node NodeData) * list Edge) :
  obj_fields selectedObject = Some fields →
  let graph := generateDependencyGraph dagre_layout (Some selectedObject) st in
  (∀ e, e ∈ graph.2 →
     source e = obj_apiName selectedObject
     ∧ source e ∈ id <$> graph.1 ∧ target e ∈ id <$> graph.1)
  ∧ (length graph.1 ≤ 16)%nat
  ∧ (length graph.1 ≤ 1 + length graph.2)%nat
  ∧ ∃ center others,
      graph.1 = center :: others
      ∧ id center = obj_apiName selectedObject
      ∧ node_type center = Some "input"
      ∧ ∀ n, n ∈ others → node_type n = None.
Proof.
  intros Hfields graph.
  destruct (referenceFields_drawn fields) as (Hcap & Hdrawn & _).
  destruct (addReference_fold selectedObject (referenceFields fields))
    with (ns := [centerNode selectedObject]) (es := @nil Edge)
    as (ns' & Hfold & _ & Hids).
  { apply Forall_forall. intros f Hf. by apply Hdrawn. }
  destruct (addReference_nodes selectedObject (referenceFields fields)
              [centerNode selectedObject] []) as (added & Hnodes & Hadded).
  rewrite Hfold in Hnodes. simpl in Hnodes.
  assert (graph = getLayoutedElements dagre_layout ns'
            ((λ f, referenceEdge selectedObject f (default EmptyString (firstTarget f)))
               <$> referenceFields fields) "LR") as Hgraph.
  { subst graph. unfold generateDependencyGraph, initialGraph.
    by rewrite Hfields, Hfold. }
  assert (graph.2 = (λ f, referenceEdge selectedObject f
                            (default EmptyString (firstTarget f)))
                      <$> referenceFields fields) as Hes by (by rewrite Hgraph).
  assert (id <$> graph.1 = id <$> ns') as Hns
    by (rewrite Hgraph; apply dictionary_layout_edges).
  assert (node_type <$> graph.1 = node_type <$> ns') as Htypes.
  { rewrite Hgraph. simpl. rewrite <- list_fmap_compose. by apply list_fmap_ext. }
  split; [|split; [|split]].
  - intros e He. rewrite Hes in He. apply list_elem_of_fmap in He as (f & -> & Hf).
    simpl. split; [done|]. rewrite Hns. split.
    + apply Hids. left. simpl. by left.
    + destruct (drawn_firstTarget f) as (first & others & _ & Hfirst); [by apply Hdrawn|].
      apply Hids. right. exists f. rewrite Hfirst. done.
  - rewrite <- (length_fmap id), Hns, length_fmap, Hnodes. simpl.
    rewrite length_fmap. lia.
  - rewrite <- (length_fmap id), Hns, length_fmap, Hnodes, Hes. simpl.
    rewrite !length_fmap.
    assert (length (referenceFields fields) = length (referenceFields fields)) by done.
    lia.
  - destruct graph.1 as [|center others] eqn:Hg.
    { rewrite Hnodes in Hns. done. }
    exists center, others. split; [done|].
    rewrite Hnodes in Hns, Htypes.
    change ([centerNode selectedObject] ++ (targetNode <$> added))
      with (centerNode selectedObject :: (targetNode <$> added)) in Hns, Htypes.
    rewrite !fmap_cons in Hns. rewrite !fmap_cons in Htypes.
    injection Hns as Hid Hothers. injection Htypes as Htype Hrest.
    split; [done|]. split; [done|].
    intros n Hn. apply (list_elem_of_fmap_2 node_type) in Hn.
    rewrite Hrest in Hn. apply list_elem_of_fmap in Hn as (m & -> & Hm).
    by apply list_elem_of_fmap in Hm as (t & -> & _).
Qed.

End dependency_graph_shape.

Lemma dependency_graph_is_closed_witness :
  ∃ center others,
    (MetadataDictionary.generateDependencyGraph Samples.columnLayout
       (Some Samples.taskObject) ([], [])).1 = center :: others
    ∧ id center = obj_apiName Samples.taskObject
    ∧ node_type center = Some "input"
    ∧ ∀ n, n ∈ others → node_type n = None.
Proof.
  destruct (dependency_graph_is_closed Samples.columnLayout Samples.taskObject
              (default [] (obj_fields Samples.taskObject)) ([], []) eq_refl)
    as (_ & _ & _ & Hshape).
  exact Hshape.
Defined.

(** * Further properties: record loading and what is drawn *)

Lemma find_first {A} (P : A → Prop) `{∀ x, Decision (P x)} (x : A) (l : list A) :
  P x → find P (x :: l) = Some x.
Proof. intros HP. unfold find. simpl. by rewrite decide_True. Qed.

Lemma find_some {A} (P : A → Prop) `{∀ x, Decision (P x)} (l : list A) (x : A) :
  x ∈ l → P x → ∃ y, find P l = Some y ∧ P y ∧ y ∈ l.
Proof.
  intros Hx HP. destruct (list_find_elem_of P l x Hx HP) as [[i y] Hfind].
  exists y. unfold find. rewrite Hfind. split; [done|].
  apply list_find_Some in Hfind as (Hy & HPy & _).
  split; [done|]. by eapply list_elem_of_lookup_2.
Qed.

Section record_views.

Import SalesforceService RecordDetailModal RecordView.

Variable localeCompare : string → string → Z.
Variable fetchObjectDetails : string → string → string → completion ObjectDetails.
Variable fetchRecordWithRelated :
  string → string → string → string → list SChildRelationship → completion RecordResult.
Variable fetchObjectLayouts : string → string → string → completion (list PageLayout).
Variable JSON_stringify : gmap string (list SRecord) → string.
Variable numberToString : Q → string.

Local Abbreviation load :=
  (loadRecordAndMetadata localeCompare fetchObjectDetails fetchRecordWithRelated
     fetchObjectLayouts).

(** X9.  When the layout service returns layouts, they are listed as they
    came, the first one is selected and is the active layout, and no fallback
    layout is built.  Selecting any listed layout by its id makes a listed
    layout with that id the active one, without another request. *)
Theorem server_layouts_are_used (orgMetadata : OrgMetadata)
    (recordId objectType : string) (st : ModalState)
    (objDetails : ObjectDetails) (recordResult : RecordResult)
    (first : PageLayout) (others : list PageLayout) :
  fetchObjectDetails (instanceUrl orgMetadata) (accessToken orgMetadata) objectType
    = Normal objDetails →
  fetchRecordWithRelated (instanceUrl orgMetadata) (accessToken orgMetadata)
    objectType recordId (childRelationships objDetails) = Normal recordResult →
  fetchObjectLayouts (instanceUrl orgMetadata) (accessToken orgMetadata) objectType
    = Normal (first :: others) →
  ∃ st',
    load orgMetadata recordId objectType st = (Normal tt, st')
    ∧ layouts st' = first :: others
    ∧ selectedLayoutId st' = pl_id first
    ∧ getActiveLayout st' = Some first
    ∧ error st' = None
    ∧ layoutLoading st' = false
    ∧ ∀ l, l ∈ first :: others →
        ∃ l', getActiveLayout (setSelectedLayoutId (pl_id l) st') = Some l'
              ∧ pl_id l' = pl_id l ∧ l' ∈ first :: others.
Proof.
  intros Hdetails Hrecord Hlayouts.
  unfold loadRecordAndMetadata, loadLayouts, useDefaultLayout, tryCatch, tryFinally,
    await, call, mbind, Load_bind, andThen. simpl.
  rewrite Hdetails, Hrecord, Hlayouts. simpl.
  eexists. split; [reflexivity|]. simpl.
  split; [done|]. split; [done|]. split; [by apply find_first|].
  split; [done|]. split; [done|].
  intros l Hl. unfold getActiveLayout. simpl.
  destruct (find_some (λ l0, pl_id l0 = pl_id l) (first :: others) l Hl eq_refl)
    as (l' & Hfind & Hid & Hin).
  by exists l'.
Qed.

(** X10.  When the describe call or the record fetch throws, the loader
    completes normally: the message of the exception (or, when it is empty,
    "Failed to load record details") is recorded as the error, both loading
    flags are cleared, and the record, the related data, the layouts and the
    selected layout are left as they were. *)
Theorem load_failure_is_reported (orgMetadata : OrgMetadata)
    (recordId objectType : string) (st : ModalState) (e : string) :
  (fetchObjectDetails (instanceUrl orgMetadata) (accessToken orgMetadata) objectType
     = Throw e
   ∨ ∃ objDetails,
       fetchObjectDetails (instanceUrl orgMetadata) (accessToken orgMetadata) objectType
         = Normal objDetails
       ∧ fetchRecordWithRelated (instanceUrl orgMetadata) (accessToken orgMetadata)
           objectType recordId (childRelationships objDetails) = Throw e) →
  load orgMetadata recordId objectType st
  = (Normal tt,
     {| data := data st; relatedData := relatedData st; layouts := layouts st;
        selectedLayoutId := selectedLayoutId st; loading := false;
        layoutLoading := false;
        error := Some (if decide (e = EmptyString) then "Failed to load record details"
                       else e) |}).
Proof.
  unfold loadRecordAndMetadata, loadLayouts, useDefaultLayout, tryCatch, tryFinally,
    await, call, mbind, Load_bind, andThen. simpl.
  intros [->|(objDetails & -> & ->)]; done.
Qed.

Lemma renderItem_fieldItem (record : option RecordResult) (f : SField) :
  renderItem JSON_stringify numberToString record (fieldItem f)
  = FieldCell (label f) (apiName f)
      (displayValue JSON_stringify numberToString
         (record ≫= (λ r : RecordResult, r !! apiName f)))
      (isNullish (record ≫= (λ r : RecordResult, r !! apiName f))).
Proof. done. Qed.

Lemma concat_fmap_rows {A B} (g : A → B) (groups : list (list A)) :
  concat (fmap (M:=list) g <$> groups) = g <$> concat groups.
Proof.
  induction groups as [|group groups IH]; [done|].
  rewrite fmap_cons. simpl. by rewrite fmap_app, IH.
Qed.

(** X11.  After a failed or empty layout fetch the active layout is the
    fallback layout, and it is drawn as one section whose cells, read row by
    row, are the object's fields in sorted order: each cell is a field cell
    with the field's label and API name and the value the loaded record holds
    under that name, never a spacer or an empty cell; a field without a value
    in the record shows the no-value marker. *)
Theorem fallback_layout_draws_every_field (orgMetadata : OrgMetadata)
    (recordId objectType : string) (st : ModalState)
    (objDetails : ObjectDetails) (recordResult : RecordResult) :
  fetchObjectDetails (instanceUrl orgMetadata) (accessToken orgMetadata) objectType
    = Normal objDetails →
  fetchRecordWithRelated (instanceUrl orgMetadata) (accessToken orgMetadata)
    objectType recordId (childRelationships objDetails) = Normal recordResult →
  (fetchObjectLayouts (instanceUrl orgMetadata) (accessToken orgMetadata) objectType
     = Normal []
   ∨ ∃ e, fetchObjectLayouts (instanceUrl orgMetadata) (accessToken orgMetadata)
            objectType = Throw e) →
  ∃ st' rows,
    load orgMetadata recordId objectType st = (Normal tt, st')
    ∧ getActiveLayout st'
      = Some (createDefaultLayout localeCompare objectType (fields objDetails))
    ∧ renderLayout JSON_stringify numberToString st' = Some [rows]
    ∧ concat rows
      = (λ f, FieldCell (label f) (apiName f)
                (displayValue JSON_stringify numberToString
                   (mainRecord recordResult !! apiName f))
                (isNullish (mainRecord recordResult !! apiName f)))
          <$> sortedFields localeCompare (fields objDetails)
    ∧ ∀ f, f ∈ fields objDetails → mainRecord recordResult !! apiName f = None →
        FieldCell (label f) (apiName f) EmptyString true ∈ concat rows.
Proof.
  intros Hdetails Hrecord Hlayouts.
  assert (∃ st', load orgMetadata recordId objectType st = (Normal tt, st')
            ∧ layouts st' = [createDefaultLayout localeCompare objectType
                               (fields objDetails)]
            ∧ selectedLayoutId st' = "system-default"
            ∧ data st' = Some (mainRecord recordResult))
    as (st' & Hload & Hlist & Hsel & Hdata).
  { unfold loadRecordAndMetadata, loadLayouts, useDefaultLayout, tryCatch, tryFinally,
      await, call, mbind, Load_bind, andThen. simpl.
    rewrite Hdetails, Hrecord.
    destruct Hlayouts as [->|[e ->]]; eexists; (split; [reflexivity|done]). }
  assert (getActiveLayout st'
          = Some (createDefaultLayout localeCompare objectType (fields objDetails)))
    as Hactive.
  { unfold getActiveLayout. rewrite Hlist, Hsel. by apply find_first. }
  set (cell := λ f, FieldCell (label f) (apiName f)
                      (displayValue JSON_stringify numberToString
                         (mainRecord recordResult !! apiName f))
                      (isNullish (mainRecord recordResult !! apiName f))).
  set (sorted := sortedFields localeCompare (fields objDetails)).
  assert (concat ((λ row, renderItem JSON_stringify numberToString (data st')
                            <$> layoutItems row)
                    <$> (buildRows sorted).1)
          = cell <$> sorted) as Hcells.
  { rewrite buildRows_pairs. simpl. rewrite <- list_fmap_compose.
    erewrite (list_fmap_ext _
                (fmap (M:=list) (renderItem JSON_stringify numberToString (data st'))));
      [|done].
    rewrite concat_fmap_rows, pairUp_concat, <- list_fmap_compose, Hdata.
    by apply list_fmap_ext. }
  exists st', ((λ row, renderItem JSON_stringify numberToString (data st')
                         <$> layoutItems row) <$> (buildRows sorted).1).
  split; [done|]. split; [done|].
  split; [by unfold renderLayout; rewrite Hactive|].
  split; [done|].
  intros f Hf Hnone. rewrite Hcells. apply list_elem_of_fmap.
  exists f. split.
  - unfold cell. by rewrite Hnone.
  - unfold sorted, sortedFields. by rewrite sort_perm.
Qed.

End record_views.

Lemma server_layouts_are_used_witness :
  ∃ st',
    RecordDetailModal.loadRecordAndMetadata Samples.codeUnitCompare
      Fixtures.describeAccount Fixtures.recordOfAccount Fixtures.twoLayouts
      Samples.acme "001000000000001" "Account" Samples.closedModal = (Normal tt, st')
    ∧ RecordView.getActiveLayout st' = Some Fixtures.accountLayout
    ∧ ∃ l', RecordView.getActiveLayout
              (RecordDetailModal.setSelectedLayoutId "00h000000000002" st') = Some l'
            ∧ pl_id l' = "00h000000000002".
Proof.
  destruct (server_layouts_are_used Samples.codeUnitCompare
              Fixtures.describeAccount Fixtures.recordOfAccount Fixtures.twoLayouts
              Samples.acme "001000000000001" "Account" Samples.closedModal
              Samples.accountDetails
              (SalesforceService.with_relatedData Samples.accountRecord ∅)
              Fixtures.accountLayout [Fixtures.marketingLayout]
              eq_refl eq_refl eq_refl)
    as (st' & Hload & _ & _ & Hactive & _ & _ & Hswitch).
  exists st'. split; [exact Hload|]. split; [exact Hactive|].
  destruct (Hswitch Fixtures.marketingLayout) as (l' & Hl' & Hid & _).
  - apply list_elem_of_further, list_elem_of_here.
  - exists l'. split; [exact Hl'|exact Hid].
Defined.

Lemma load_failure_is_reported_witness :
  RecordDetailModal.loadRecordAndMetadata Samples.codeUnitCompare
    Fixtures.describeFails Fixtures.recordOfAccount Fixtures.twoLayouts
    Samples.acme "001000000000001" "Account" Samples.closedModal
  = (Normal tt,
     {| RecordDetailModal.data := RecordDetailModal.data Samples.closedModal;
        RecordDetailModal.relatedData := RecordDetailModal.relatedData Samples.closedModal;
        RecordDetailModal.layouts := RecordDetailModal.layouts Samples.closedModal;
        RecordDetailModal.selectedLayoutId :=
          RecordDetailModal.selectedLayoutId Samples.closedModal;
        RecordDetailModal.loading := false;
        RecordDetailModal.layoutLoading := false;
        RecordDetailModal.error := Some "Failed to describe Account" |}).
Proof.
  apply (load_failure_is_reported Samples.codeUnitCompare
           Fixtures.describeFails Fixtures.recordOfAccount Fixtures.twoLayouts
           Samples.acme "001000000000001" "Account" Samples.closedModal
           "Failed to describe Account").
  left. reflexivity.
Defined.

Lemma fallback_layout_draws_every_field_witness :
  ∃ st' rows,
    RecordDetailModal.loadRecordAndMetadata Samples.codeUnitCompare
      Fixtures.describeAccount Fixtures.recordOfAccount Fixtures.noLayouts
      Samples.acme "001000000000001" "Account" Samples.closedModal = (Normal tt, st')
    ∧ RecordView.renderLayout Fixtures.plainObject Fixtures.plainNumber st' = Some [rows].
Proof.
  destruct (fallback_layout_draws_every_field Samples.codeUnitCompare
              Fixtures.describeAccount Fixtures.recordOfAccount Fixtures.noLayouts
              Fixtures.plainObject Fixtures.plainNumber
              Samples.acme "001000000000001" "Account" Samples.closedModal
              Samples.accountDetails
              (SalesforceService.with_relatedData Samples.accountRecord ∅)
              eq_refl eq_refl (or_introl eq_refl))
    as (st' & rows & Hload & _ & Hdrawn & _).
  exists st', rows. split; [exact Hload|exact Hdrawn].
Defined.

(** * Further properties: the record and layout services *)

Section record_service.

Import SalesforceService.

Variable fetchRecordById : string → string → string → string → completion SRecord.
Variable fetchQuery : string → string → string → completion QueryResult.

Lemma collectRelated_from (resultRow : ResultRow) (queried : list SChildRelationship)
    (name : string) :
  ∀ acc : gmap string (list SRecord),
    foldl (λ relatedData r,
             let v := resultRow !! relationshipName r in
             if truthy v then <[relationshipName r := records_or_empty v]> relatedData
             else relatedData) acc queried !! name
    = if decide (name ∈ relationshipName <$> queried) then
        if truthy (resultRow !! name) then Some (records_or_empty (resultRow !! name))
        else acc !! name
      else acc !! name.
Proof.
  induction queried as [|r queried IH]; intros acc; [done|].
  cbn [foldl]. rewrite IH, fmap_cons. cbn beta zeta.
  destruct (decide (name ∈ relationshipName <$> queried)) as [Hin|Hout].
  - rewrite decide_True by (by right).
    destruct (truthy (resultRow !! name)) eqn:Hname; [done|].
    destruct (decide (relationshipName r = name)) as [->|Hne].
    + by rewrite Hname.
    + destruct (truthy (resultRow !! relationshipName r)); [|done].
      by rewrite lookup_insert_ne.
  - destruct (decide (relationshipName r = name)) as [<-|Hne].
    + rewrite decide_True by (by left).
      destruct (truthy (resultRow !! relationshipName r)); [|done].
      by rewrite lookup_insert_eq.
    + rewrite decide_False.
      2:{ intros [?|?]%elem_of_cons; [congruence|done]. }
      destruct (truthy (resultRow !! relationshipName r)); [|done].
      by rewrite lookup_insert_ne.
Qed.

(** X12.  [fetchRecordWithRelated] throws exactly when the lookup of the
    record by id throws, and then with the same error; whatever the related
    query does, it cannot make the fetch fail.  When the lookup fails, or no
    child relationship carries a name, the outcome does not depend on the
    query service at all. *)
Theorem record_fetch_fails_only_with_lookup
    (instanceUrl accessToken objectName recordId : string)
    (childRels : list SChildRelationship) :
  (∀ e, fetchRecordWithRelated fetchRecordById fetchQuery instanceUrl accessToken
          objectName recordId childRels = Throw e
        ↔ fetchRecordById instanceUrl accessToken objectName recordId = Throw e)
  ∧ (∀ otherQuery : string → string → string → completion QueryResult,
       (∃ e, fetchRecordById instanceUrl accessToken objectName recordId = Throw e)
       ∨ (∀ r, r ∈ childRels → relationshipName r = EmptyString) →
       fetchRecordWithRelated fetchRecordById otherQuery instanceUrl accessToken
         objectName recordId childRels
       = fetchRecordWithRelated fetchRecordById fetchQuery instanceUrl accessToken
           objectName recordId childRels).
Proof.
  split.
  - intros e.
    destruct (fetchRecordById instanceUrl accessToken objectName recordId)
      as [baseRecord|e'] eqn:Hbase.
    + by rewrite (fetchRecordWithRelated_resolves _ _ _ _ _ _ _ _ Hbase).
    + unfold fetchRecordWithRelated, mbind, completion_bind, bind. rewrite Hbase.
      simpl. split; intros [= ->]; done.
  - intros otherQuery [[e He]|Hunnamed].
    + unfold fetchRecordWithRelated, mbind, completion_bind, bind. by rewrite He.
    + destruct (fetchRecordById instanceUrl accessToken objectName recordId)
        as [baseRecord|e'] eqn:Hbase.
      * rewrite !(fetchRecordWithRelated_resolves _ _ _ _ _ _ _ _ Hbase).
        assert (relationshipsToQuery childRels = []) as ->; [|done].
        unfold relationshipsToQuery.
        rewrite (filter_none (λ r, relationshipName r ≠ EmptyString) childRels); [done|].
        intros r Hr Hnamed. by apply Hnamed, Hunnamed.
      * unfold fetchRecordWithRelated, mbind, completion_bind, bind. by rewrite Hbase.
Qed.

(** X13.  When the related query answers with at least one row, the related
    data is read off the first row alone: a relationship has an entry exactly
    when it was queried and the row holds a truthy value under its name, and
    the entry is that value's records, or the empty list when the sub-select
    carries no records.  Later rows are ignored. *)
Theorem related_data_from_first_row
    (instanceUrl accessToken objectName recordId : string)
    (childRels : list SChildRelationship) (baseRecord : SRecord)
    (size : Z) (resultRow : ResultRow) (others : list ResultRow) :
  fetchRecordById instanceUrl accessToken objectName recordId = Normal baseRecord →
  relationshipsToQuery childRels ≠ [] →
  fetchQuery instanceUrl accessToken
    (relatedQuery objectName recordId (relationshipsToQuery childRels))
  = Normal {| totalSize := size; records := Some (resultRow :: others) |} →
  ∃ relatedData,
    fetchRecordWithRelated fetchRecordById fetchQuery instanceUrl accessToken
      objectName recordId childRels
    = Normal (with_relatedData baseRecord relatedData)
    ∧ ∀ name,
        relatedData !! name
        = if decide (name ∈ relationshipName <$> relationshipsToQuery childRels) then
            match resultRow !! name with
            | Some (RowSubSelect (Some rows)) => Some rows
            | Some (RowSubSelect None) => Some []
            | v => if truthy v then Some [] else None
            end
          else None.
Proof.
  intros Hbase Hsome Hquery.
  exists (collectRelated resultRow (relationshipsToQuery childRels)). split.
  - rewrite (fetchRecordWithRelated_resolves _ _ _ _ _ _ _ _ Hbase), Hquery.
    rewrite decide_False; [done|].
    by intros ?%nil_length_inv.
  - intros name. unfold collectRelated. rewrite collectRelated_from, lookup_empty.
    case_decide; [|done].
    destruct (resultRow !! name) as [[v|[rows|]]|]; simpl; try done.
Qed.

Variable fetch : string → string → completion Response.
Variable encodeURIComponent : string → string.

(** X14.  [fetchObjectLayouts] never throws, and the only way it yields a
    non-empty list is a response to the proxied describe/layouts request that
    is ok and whose body parses with exactly that list as its [layouts]
    array. *)
Theorem fetchObjectLayouts_outcome (instanceUrl accessToken objectName : string) :
  ∃ found,
    fetchObjectLayouts fetch encodeURIComponent instanceUrl accessToken objectName
    = Normal found
    ∧ (found ≠ [] →
       ∃ res,
         fetch (PROXY_URL +:+ encodeURIComponent
                  (instanceUrl +:+ "/services/data/v60.0/sobjects/" +:+ objectName
                   +:+ "/describe/layouts"))
               ("Bearer " +:+ accessToken) = Normal res
         ∧ ok res = true
         ∧ json res = Normal {| layouts := Some found |}).
Proof.
  unfold fetchObjectLayouts, try_catch, mbind, completion_bind, bind.
  destruct (fetch _ _) as [res|]; [|by eexists].
  destruct (ok res) eqn:Hok; simpl; [|by eexists].
  destruct (json res) as [[[found|]]|] eqn:Hjson; simpl;
    eexists; (split; [reflexivity|]); try done.
  intros _. by exists res.
Qed.

End record_service.

Lemma related_data_from_first_row_witness :
  ∃ relatedData,
    SalesforceService.fetchRecordWithRelated Samples.lookupAccount
      Samples.answeringQuery "https://acme.my.salesforce.com" "token" "Account"
      "001000000000001" Samples.accountRelationships
    = Normal (SalesforceService.with_relatedData Samples.accountRecord relatedData)
    ∧ ∀ name,
        relatedData !! name
        = if decide (name ∈ relationshipName
                       <$> SalesforceService.relationshipsToQuery
                             Samples.accountRelationships) then
            match Samples.contactRow !! name with
            | Some (SalesforceService.RowSubSelect (Some rows)) => Some rows
            | Some (SalesforceService.RowSubSelect None) => Some []
            | v => if SalesforceService.truthy v then Some [] else None
            end
          else None.
Proof.
  apply (related_data_from_first_row Samples.lookupAccount Samples.answeringQuery
           "https://acme.my.salesforce.com" "token" "Account" "001000000000001"
           Samples.accountRelationships Samples.accountRecord 1 Samples.contactRow []).
  - reflexivity.
  - discriminate.
  - reflexivity.
Defined.

(** * Further properties: describe and process definitions *)

Section describe_service.

Import SalesforceService SalesforceDescribe.

Variable fetch : string → string → completion DescribeResponse.
Variable encodeURIComponent : string → string.
Variable fetchQuery : string → string → string → completion QueryResult.
Variable toText : JsVal → string.

Local Abbreviation describeUrl instanceUrl objectName :=
  (PROXY_URL +:+ encodeURIComponent
     (instanceUrl +:+ "/services/data/v60.0/sobjects/" +:+ objectName +:+ "/describe")).

(** X15.  [fetchObjectDetails] fails in exactly four ways: the describe
    request is rejected, its response is not ok (then the error reads
    "Failed to describe <object>"), its body does not parse, or the parsed
    body cannot be read as a describe body (then the error is the engine's
    TypeError).  The record count query is not among them: its failure never
    fails the describe. *)
Theorem fetchObjectDetails_failures (instanceUrl accessToken objectName e : string) :
  fetchObjectDetails fetch encodeURIComponent fetchQuery instanceUrl accessToken objectName
  = Throw e
  ↔ fetch (describeUrl instanceUrl objectName) ("Bearer " +:+ accessToken) = Throw e
    ∨ ∃ res,
        fetch (describeUrl instanceUrl objectName) ("Bearer " +:+ accessToken) = Normal res
        ∧ ((describe_ok res = false ∧ e = "Failed to describe " +:+ objectName)
           ∨ (describe_ok res = true ∧ describe_json res = Throw e)
           ∨ (describe_ok res = true ∧ describe_json res = Normal (Unreadable e))).
Proof.
  unfold fetchObjectDetails, try_catch, mbind, completion_bind, bind.
  destruct (fetch _ _) as [res|e'] eqn:Hres.
  2:{ split; [intros [= ->]; by left|]. intros [[= ->]|(res & [=] & _)]. done. }
  destruct (describe_ok res) eqn:Hok; simpl.
  - destruct (describe_json res) as [[body|typeError]|e'] eqn:Hbody.
    + split.
      * by destruct (fetchQuery _ _ _).
      * intros [[=]|(res' & [= <-] & [[? _]|[[_ Hjson]|[_ Hjson]]])]; congruence.
    + split.
      * intros [= ->]. right. exists res. split; [done|]. right. by right.
      * intros [[=]|(res' & [= <-] & [[? _]|[[_ Hjson]|[_ Hjson]]])]; congruence.
    + split.
      * intros [= ->]. right. exists res. split; [done|]. right. by left.
      * intros [[=]|(res' & [= <-] & [[? _]|[[_ Hjson]|[_ Hjson]]])]; congruence.
  - split.
    + intros [= <-]. right. exists res. split; [done|]. by left.
    + intros [[=]|(res' & [= <-] & [[_ ->]|[[? _]|[? _]]])]; congruence.
Qed.

(** X16.  From an ok describe response whose body parses to a describe body,
    the object details
    hold one field per described field, in order and under the same API name,
    each with a description (the empty text when the describe gave none), one
    child relationship per described one (none when the body has no such
    list), and as record count the total of the count query, or 0 when that
    query fails. *)
Theorem fetchObjectDetails_content (instanceUrl accessToken objectName : string)
    (res : DescribeResponse) (body : DescribeBody) :
  fetch (describeUrl instanceUrl objectName) ("Bearer " +:+ accessToken) = Normal res →
  describe_ok res = true →
  describe_json res = Normal (Described body) →
  ∃ details,
    fetchObjectDetails fetch encodeURIComponent fetchQuery instanceUrl accessToken
      objectName = Normal details
    ∧ apiName <$> RecordDetailModal.fields details = df_name <$> describe_fields body
    ∧ (∀ i f, RecordDetailModal.fields details !! i = Some f →
         ∃ d, describe_fields body !! i = Some d
              ∧ description f = Some (default EmptyString (df_description d)))
    ∧ relationshipName <$> RecordDetailModal.childRelationships details
      = dc_relationshipName <$> default [] (describe_childRelationships body)
    ∧ RecordDetailModal.recordCount details
      = match fetchQuery instanceUrl accessToken ("SELECT count() FROM " +:+ objectName) with
        | Normal queryRes => totalSize queryRes
        | Throw _ => 0
        end.
Proof.
  intros Hres Hok Hbody.
  unfold fetchObjectDetails, try_catch, mbind, completion_bind, bind.
  rewrite Hres, Hok. simpl. rewrite Hbody.
  exists {| RecordDetailModal.fields := map toField (describe_fields body);
            RecordDetailModal.childRelationships :=
              map toChildRelationship (default [] (describe_childRelationships body));
            RecordDetailModal.recordCount :=
              match fetchQuery instanceUrl accessToken
                      ("SELECT count() FROM " +:+ objectName) with
              | Normal queryRes => totalSize queryRes
              | Throw _ => 0
              end |}.
  split.
  { by destruct (fetchQuery _ _ _) as [queryRes|]. }
  simpl. split; [|split; [|split]].
  - by rewrite <- list_fmap_compose.
  - intros i f Hf.
    assert (toField <$> describe_fields body !! i = Some f) as Hd.
    { by rewrite <- list_lookup_fmap. }
    destruct (describe_fields body !! i) as [d|]; [|done].
    exists d. split; [done|]. injection Hd as <-. simpl. unfold or_else.
    destruct (df_description d) as [text|]; [|done]. simpl. by case_decide; subst.
  - by rewrite <- list_fmap_compose.
  - done.
Qed.

Lemma pushStandard_appends (id_ label_ objectType_ description_ : string)
    (stages : QueryResult) (results : list ProcessDefinitionOption) :
  pushStandard id_ label_ objectType_ description_ stages results
  = results ++ pushStandard id_ label_ objectType_ description_ stages [].
Proof.
  unfold pushStandard. destruct (records stages) as [[|first others]|]; simpl;
    by rewrite ?(right_id_L [] (++)).
Qed.

Lemma pushEach_appends (option_ : ResultRow → ProcessDefinitionOption)
    (found : QueryResult) (results : list ProcessDefinitionOption) :
  pushEach option_ found results = results ++ pushEach option_ found [].
Proof.
  unfold pushEach. destruct (records found) as [rows|];
    [|by rewrite (right_id_L [] (++))].
  cut (∀ acc, foldl (λ results rec, results ++ [option_ rec]) acc rows
              = acc ++ (option_ <$> rows)).
  { intros Hcut. by rewrite !Hcut. }
  induction rows as [|rec rows IH]; intros acc; simpl.
  - by rewrite (right_id_L [] (++)).
  - by rewrite IH, <- (assoc_L (++)).
Qed.

Lemma attempt_contributes (instanceUrl accessToken query : string)
    (push : QueryResult → list ProcessDefinitionOption → list ProcessDefinitionOption)
    (results : list ProcessDefinitionOption) :
  (∀ found results, push found results = results ++ push found []) →
  attempt fetchQuery instanceUrl accessToken query push results
  = Normal (results ++ contributed fetchQuery instanceUrl accessToken query push).
Proof.
  intros Hpush. unfold attempt, contributed, try_catch, mbind, completion_bind, bind.
  destruct (fetchQuery _ _ _) as [found|]; simpl.
  - by rewrite Hpush.
  - by rewrite (right_id_L [] (++)).
Qed.

(** X17.  [fetchOrgProcessDefinitions] never throws.  Its result is the
    entries of five blocks one after the other: opportunity stages, lead
    statuses, case statuses, active approval processes, active flows.  Each
    block adds what its own query's answer gives, whatever the other queries
    did, and nothing when its query is rejected; a standard block adds one
    entry when its query gave at least one row and none otherwise. *)
Theorem process_definitions_by_block (instanceUrl accessToken : string) :
  fetchOrgProcessDefinitions fetchQuery toText instanceUrl accessToken
  = Normal
      (contributed fetchQuery instanceUrl accessToken opportunityStages
         (pushStandard "std-opp" "Opportunity Sales Process" "Opportunity"
            "Standard lifecycle based on Opportunity Stages.")
       ++ contributed fetchQuery instanceUrl accessToken leadStatuses
            (pushStandard "std-lead" "Lead Qualification" "Lead"
               "Standard lifecycle based on Lead Status.")
       ++ contributed fetchQuery instanceUrl accessToken caseStatuses
            (pushStandard "std-case" "Support Process" "Case"
               "Standard lifecycle based on Case Status.")
       ++ contributed fetchQuery instanceUrl accessToken activeApprovals
            (pushEach (approvalOption toText))
       ++ contributed fetchQuery instanceUrl accessToken activeFlows
            (pushEach (flowOption toText)))
  ∧ (∀ id_ label_ objectType_ description_ query,
       (length (contributed fetchQuery instanceUrl accessToken query
                  (pushStandard id_ label_ objectType_ description_)) ≤ 1)%nat
       ∧ (contributed fetchQuery instanceUrl accessToken query
            (pushStandard id_ label_ objectType_ description_) ≠ []
          ↔ ∃ size first others,
              fetchQuery instanceUrl accessToken query
              = Normal {| totalSize := size; records := Some (first :: others) |}))
  ∧ (∀ option_ query,
       pdo_id <$> contributed fetchQuery instanceUrl accessToken query (pushEach option_)
       = match fetchQuery instanceUrl accessToken query with
         | Normal {| records := Some rows |} => (λ rec, pdo_id (option_ rec)) <$> rows
         | _ => []
         end).
Proof.
  split; [|split].
  - unfold fetchOrgProcessDefinitions, mbind, completion_bind, bind.
    rewrite !attempt_contributes;
      try (intros; apply pushStandard_appends); try (intros; apply pushEach_appends).
    simpl. by rewrite <- !(assoc_L (++)).
  - intros id_ label_ objectType_ description_ query. unfold contributed, pushStandard.
    destruct (fetchQuery _ _ _) as [[size [[|first others]|]]|]; simpl;
      (split; [lia|]); split; try done; try (by intros (? & ? & ? & [=])).
    intros _. by exists size, first, others.
  - intros option_ query. unfold contributed, pushEach.
    destruct (fetchQuery _ _ _) as [[size [rows|]]|]; simpl; try done.
    cut (∀ acc, foldl (λ results rec, results ++ [option_ rec]) acc rows
                = acc ++ (option_ <$> rows)).
    { intros ->. simpl. by rewrite <- list_fmap_compose. }
    induction rows as [|rec rows IH]; intros acc; simpl.
    + by rewrite (right_id_L [] (++)).
    + by rewrite IH, <- (assoc_L (++)).
Qed.

End describe_service.

Lemma fetchObjectDetails_content_witness :
  ∃ details,
    SalesforceDescribe.fetchObjectDetails Fixtures.describeOk Fixtures.verbatim
      Samples.failingQuery "https://acme.my.salesforce.com" "token" "Account"
    = Normal details
    ∧ RecordDetailModal.recordCount details = 0
    ∧ description <$> RecordDetailModal.fields details
      = [Some "The name of the account"; Some EmptyString].
Proof.
  destruct (fetchObjectDetails_content Fixtures.describeOk Fixtures.verbatim
              Samples.failingQuery "https://acme.my.salesforce.com" "token" "Account"
              {| SalesforceDescribe.describe_ok := true;
                 SalesforceDescribe.describe_json :=
                   Normal (SalesforceDescribe.Described Fixtures.describeBody) |}
              Fixtures.describeBody eq_refl eq_refl eq_refl)
    as (details & Hdetails & _ & _ & _ & Hcount).
  exists details. split; [exact Hdetails|]. split; [exact Hcount|].
  injection Hdetails as <-. reflexivity.
Defined.

(** * Further properties: the metadata dictionary *)

Section dictionary_browser.

Import RecordDetailModal DictionaryBrowser.

(** X18.  Object details are fetched once per object: after a successful
    selection the enriched object is shown and cached under the object's API
    name, and selecting an object of that name again changes nothing and does
    not depend on the describe service.  A failed describe shows the object as
    listed and caches nothing. *)
Theorem details_are_fetched_once
    (fetchObjectDetails : string → string → string → completion ObjectDetails)
    (data : OrgMetadata) (obj : SObject) (st : BrowserState) :
  cachedDetails st !! obj_apiName obj = None →
  (∀ details,
     fetchObjectDetails (instanceUrl data) (accessToken data) (obj_apiName obj)
       = Normal details →
     selectedObject (handleSelectObject fetchObjectDetails data obj st)
       = Some (enrich obj details)
     ∧ cachedDetails (handleSelectObject fetchObjectDetails data obj st)
         !! obj_apiName obj = Some (enrich obj details)
     ∧ ∀ otherService again, obj_apiName again = obj_apiName obj →
         handleSelectObject otherService data again
           (handleSelectObject fetchObjectDetails data obj st)
         = handleSelectObject fetchObjectDetails data obj st)
  ∧ (∀ e,
       fetchObjectDetails (instanceUrl data) (accessToken data) (obj_apiName obj)
         = Throw e →
       selectedObject (handleSelectObject fetchObjectDetails data obj st) = Some obj
       ∧ cachedDetails (handleSelectObject fetchObjectDetails data obj st)
         = cachedDetails st
       ∧ loadingDetails (handleSelectObject fetchObjectDetails data obj st) = false).
Proof.
  intros Hfresh. split.
  - intros details Hdetails. unfold handleSelectObject at 1 2 4.
    rewrite Hfresh, Hdetails. simpl. rewrite lookup_insert_eq.
    split; [done|]. split; [done|].
    intros otherService again Hagain. unfold handleSelectObject.
    rewrite Hfresh, Hdetails. simpl. by rewrite Hagain, lookup_insert_eq.
  - intros e He. unfold handleSelectObject. by rewrite Hfresh, He.
Qed.

(** X19.  Every cached object is stored under its own API name, and the
    object shown after a selection has the API name of the object that was
    selected: both hold after any selection if the first held before. *)
Theorem selection_shows_the_selected_object
    (fetchObjectDetails : string → string → string → completion ObjectDetails)
    (data : OrgMetadata) (obj : SObject) (st : BrowserState) :
  (∀ key cached, cachedDetails st !! key = Some cached → obj_apiName cached = key) →
  (∀ key cached,
     cachedDetails (handleSelectObject fetchObjectDetails data obj st) !! key
       = Some cached → obj_apiName cached = key)
  ∧ (∃ shown,
       selectedObject (handleSelectObject fetchObjectDetails data obj st) = Some shown
       ∧ obj_apiName shown = obj_apiName obj)
  ∧ activeTab (handleSelectObject fetchObjectDetails data obj st) = overview.
Proof.
  intros Hkeys. unfold handleSelectObject.
  destruct (cachedDetails st !! obj_apiName obj) as [cached|] eqn:Hcached; simpl.
  { split; [done|]. split; [|done]. exists cached. split; [done|]. by apply Hkeys. }
  destruct (fetchObjectDetails _ _ _) as [details|]; simpl.
  - split; [|split; [by eexists|done]].
    intros key cached.
    destruct (decide (obj_apiName obj = key)) as [<-|Hne].
    + rewrite lookup_insert_eq. by intros [= <-].
    + rewrite lookup_insert_ne by done. apply Hkeys.
  - split; [done|]. split; [by eexists|done].
Qed.

(** X20.  The population figure shown for a field lies between 10 and 100
    and depends on the length of the API name alone: the impact is "High"
    exactly for names of 12 or more characters, "Medium" for 6 to 11, and
    "Low" for 5 or fewer. *)
Theorem getMockIntelligence_bands (field : SField) :
  let n := String.length (apiName field) in
  10 ≤ (getMockIntelligence field).1 ≤ 100
  ∧ ((getMockIntelligence field).2 = "High" ↔ (12 ≤ n)%nat)
  ∧ ((getMockIntelligence field).2 = "Medium" ↔ (6 ≤ n ≤ 11)%nat)
  ∧ ((getMockIntelligence field).2 = "Low" ↔ (n ≤ 5)%nat).
Proof.
  intros n. unfold getMockIntelligence. fold n. simpl.
  split; [lia|].
  repeat case_decide; repeat split; intros; try done; try lia.
Qed.

Lemma filter_partition_lengths {A} (P : A → Prop) `{∀ x, Decision (P x)} (l : list A) :
  (length (filter P l) + length (filter (λ x, ¬ P x) l) = length l)%nat.
Proof.
  induction l as [|x l IH]; [done|].
  rewrite !filter_cons. destruct (decide (P x)) as [HP|HP].
  - rewrite decide_False by tauto. simpl. lia.
  - rewrite decide_True by done. simpl. lia.
Qed.

(** X21.  The two categories of the object tree split the org's objects:
    each object is listed under exactly one of "Standard Objects" and "Custom
    Objects", in the order of the org's list, and the three counts of the
    overview are the sizes of the whole list and of the two categories, so
    custom and standard add up to the total. *)
Theorem categories_partition_objects (data : OrgMetadata) :
  (∀ o, o ∈ objects data ↔ o ∈ standardObjects data ∨ o ∈ customObjects data)
  ∧ (∀ o, ¬ (o ∈ standardObjects data ∧ o ∈ customObjects data))
  ∧ standardObjects data `sublist_of` objects data
  ∧ customObjects data `sublist_of` objects data
  ∧ overviewCounts data
    = (Z.of_nat (length (objects data)),
       Z.of_nat (length (customObjects data)),
       Z.of_nat (length (standardObjects data))).
Proof.
  unfold standardObjects, customObjects, overviewCounts.
  split; [|split; [|split; [|split]]].
  - intros o. rewrite !list_elem_of_filter. destruct (obj_isCustom o); naive_solver.
  - intros o. rewrite !list_elem_of_filter. intros [[? _] [? _]]. congruence.
  - apply sublist_filter.
  - apply sublist_filter.
  - pose proof (filter_partition_lengths (λ o, obj_isCustom o = true) (objects data))
      as Hsplit.
    rewrite (list_filter_iff (λ o, ¬ obj_isCustom o = true) (λ o, obj_isCustom o = false))
      in Hsplit.
    2:{ intros o. by destruct (obj_isCustom o). }
    repeat f_equal. lia.
Qed.

(** X22.  Toggling a category flips its membership in the set of expanded
    categories and leaves every other category as it was; toggling twice
    restores the set. *)
Theorem toggleCategory_flips (category : string) (expandedCategories : gset string) :
  (category ∈ toggleCategory category expandedCategories ↔ category ∉ expandedCategories)
  ∧ (∀ other, other ≠ category →
       (other ∈ toggleCategory category expandedCategories ↔ other ∈ expandedCategories))
  ∧ toggleCategory category (toggleCategory category expandedCategories)
    = expandedCategories.
Proof.
  unfold toggleCategory. split; [|split].
  - case_decide; set_solver.
  - intros other Hother. case_decide; set_solver.
  - destruct (decide (category ∈ expandedCategories)) as [Hin|Hout].
    + rewrite decide_False by set_solver. apply set_eq. intros x.
      destruct (decide (x = category)) as [->|]; set_solver.
    + rewrite decide_True by set_solver. set_solver.
Qed.

Lemma includes_empty (text : string) : includes text EmptyString = true.
Proof.
  unfold includes. apply bool_decide_eq_true. by destruct text.
Qed.

Variable toLowerCase : string → string.

(** X23.  The search box only narrows the tree: the objects shown are a
    sub-list of the category, each of them matches the term in its label or
    its API name regardless of case, no matching object is dropped, and with
    an empty search term the whole category is shown. *)
Theorem filterObjects_narrows (searchTerm : string) (category : list SObject) :
  toLowerCase EmptyString = EmptyString →
  filterObjects toLowerCase searchTerm category `sublist_of` category
  ∧ (∀ obj, obj ∈ filterObjects toLowerCase searchTerm category
       ↔ obj ∈ category
         ∧ (includes (toLowerCase (obj_label obj)) (toLowerCase searchTerm) = true
            ∨ includes (toLowerCase (obj_apiName obj)) (toLowerCase searchTerm) = true))
  ∧ filterObjects toLowerCase EmptyString category = category.
Proof.
  intros Hlower. unfold filterObjects. split; [apply sublist_filter|]. split.
  - intros obj. rewrite list_elem_of_filter. unfold matchesSearch.
    rewrite orb_true_iff. tauto.
  - induction category as [|obj category IH]; [done|].
    rewrite filter_cons, decide_True, IH; [done|].
    unfold matchesSearch. by rewrite Hlower, includes_empty.
Qed.

End dictionary_browser.

Lemma details_are_fetched_once_witness :
  DictionaryBrowser.selectedObject
    (DictionaryBrowser.handleSelectObject Fixtures.describeAccount Samples.acme
       Samples.invoiceObject Fixtures.freshBrowser)
  = Some (DictionaryBrowser.enrich Samples.invoiceObject Samples.accountDetails)
  ∧ DictionaryBrowser.handleSelectObject Fixtures.describeFails Samples.acme
      Samples.invoiceObject
      (DictionaryBrowser.handleSelectObject Fixtures.describeAccount Samples.acme
         Samples.invoiceObject Fixtures.freshBrowser)
    = DictionaryBrowser.handleSelectObject Fixtures.describeAccount Samples.acme
        Samples.invoiceObject Fixtures.freshBrowser.
Proof.
  destruct (details_are_fetched_once Fixtures.describeAccount Samples.acme
              Samples.invoiceObject Fixtures.freshBrowser eq_refl) as [Hfetched _].
  destruct (Hfetched Samples.accountDetails eq_refl) as (Hshown & _ & Hagain).
  split; [exact Hshown|].
  exact (Hagain Fixtures.describeFails Samples.invoiceObject eq_refl).
Defined.

Lemma selection_shows_the_selected_object_witness :
  ∃ shown,
    DictionaryBrowser.selectedObject
      (DictionaryBrowser.handleSelectObject Fixtures.describeAccount Samples.acme
         Samples.invoiceObject Fixtures.freshBrowser) = Some shown
    ∧ obj_apiName shown = "Invoice__c".
Proof.
  destruct (selection_shows_the_selected_object Fixtures.describeAccount Samples.acme
              Samples.invoiceObject Fixtures.freshBrowser) as (_ & Hshown & _).
  - intros key cached Hcached. discriminate Hcached.
  - exact Hshown.
Defined.

Lemma filterObjects_narrows_witness :
  DictionaryBrowser.filterObjects Fixtures.verbatim EmptyString [Samples.invoiceObject]
  = [Samples.invoiceObject].
Proof.
  destruct (filterObjects_narrows Fixtures.verbatim EmptyString [Samples.invoiceObject]
              eq_refl) as (_ & _ & Hall).
  exact Hall.
Defined.

(** * Further properties: the query explorer *)

Lemma hasChar_app (c : Ascii.ascii) (s t : string) :
  hasChar c (s +:+ t) ↔ hasChar c s ∨ hasChar c t.
Proof.
  induction s as [|d s IH]; simpl; [tauto|]. rewrite IH. tauto.
Qed.

Lemma replaceAll_removes (c : Ascii.ascii) (by_ text : string) :
  ¬ hasChar c by_ → ¬ hasChar c (replaceAll c by_ text).
Proof.
  intros Hby. induction text as [|d text IH]; simpl; [tauto|].
  case_decide as Hd.
  - rewrite hasChar_app. tauto.
  - simpl. tauto.
Qed.

Lemma unquoteBody_quoted (text : string) :
  unquoteBody (replaceAll quoteChar (quote +:+ quote) text +:+ quote) = Some text.
Proof.
  induction text as [|d text IH]; [done|].
  cbn [replaceAll]. case_decide as Hd.
  - subst d. change ((quote +:+ quote) +:+ ?s) with (String quoteChar (String quoteChar s)).
    rewrite string_app_cons, string_app_cons.
    change (unquoteBody (String quoteChar (String quoteChar ?s)))
      with (String quoteChar <$> unquoteBody s).
    by rewrite IH.
  - rewrite string_app_cons. cbn [unquoteBody]. rewrite decide_False by done.
    by rewrite IH.
Qed.

Section query_explorer.

Import SalesforceService SoqlExplorer.

Variable JSON_stringify : list SavedQuery → string.
Variable JSON_parse : string → completion (list SavedQuery).
Variable trim : string → string.
Variable numberText : Z → string.
Variable JSON_stringifyValue : RowValue → string.
Variable numberToString : Q → string.

(** X24.  Saving a query under a name that is not blank puts it in front of
    the saved queries, closes the dialog and clears the name; the list that a
    later mount reads back from the store is the list now shown, provided the
    store's text for that list is not empty and parses back to it. *)
Theorem saved_query_survives_reload (now1 now2 : Z)
    (world : ExplorerState * Storage) (mounted : ExplorerState) :
  let saved_ :=
    {| sq_id := numberText now1; sq_name := saveName world.1;
       sq_query := query world.1; sq_savedAt := now2 |} :: savedQueries world.1 in
  trim (saveName world.1) ≠ EmptyString →
  JSON_stringify saved_ ≠ EmptyString →
  JSON_parse (JSON_stringify saved_) = Normal saved_ →
  savedQueries (handleSaveQuery JSON_stringify trim numberText now1 now2 world).1 = saved_
  ∧ savedQueries
      (loadSavedQueries JSON_parse
         (handleSaveQuery JSON_stringify trim numberText now1 now2 world).2 mounted)
    = saved_
  ∧ isSaveModalOpen (handleSaveQuery JSON_stringify trim numberText now1 now2 world).1
    = false
  ∧ saveName (handleSaveQuery JSON_stringify trim numberText now1 now2 world).1
    = EmptyString
  ∧ query (handleSaveQuery JSON_stringify trim numberText now1 now2 world).1
    = query world.1.
Proof.
  intros saved_ Hname Hfilled Hparse.
  unfold handleSaveQuery, saveQueriesToStorage, loadSavedQueries.
  rewrite decide_False by done. simpl. fold saved_.
  rewrite lookup_insert_eq, decide_False by done. by rewrite Hparse.
Qed.

(** X25.  Deleting a saved query removes every saved query of that id and no
    other, keeps the order of the rest, and the list a later mount reads back
    from the store is the list now shown, provided the store's text for that
    list is not empty and parses back to it.  Saving under a blank name, for
    its part, changes neither the list shown nor the store. *)
Theorem deleted_query_stays_deleted (id_ : string)
    (world : ExplorerState * Storage) (mounted : ExplorerState) :
  let kept := filter (λ q, sq_id q ≠ id_) (savedQueries world.1) in
  JSON_stringify kept ≠ EmptyString →
  JSON_parse (JSON_stringify kept) = Normal kept →
  savedQueries (handleDeleteQuery JSON_stringify id_ world).1 `sublist_of`
    savedQueries world.1
  ∧ (∀ q, q ∈ savedQueries (handleDeleteQuery JSON_stringify id_ world).1
       ↔ q ∈ savedQueries world.1 ∧ sq_id q ≠ id_)
  ∧ savedQueries
      (loadSavedQueries JSON_parse (handleDeleteQuery JSON_stringify id_ world).2 mounted)
    = savedQueries (handleDeleteQuery JSON_stringify id_ world).1
  ∧ (id_ ∉ sq_id <$> savedQueries world.1 →
     savedQueries (handleDeleteQuery JSON_stringify id_ world).1 = savedQueries world.1)
  ∧ (∀ now1 now2, trim (saveName world.1) = EmptyString →
       handleSaveQuery JSON_stringify trim numberText now1 now2 world = world).
Proof.
  clear JSON_stringifyValue numberToString.
  intros kept Hfilled Hparse.
  unfold handleDeleteQuery, saveQueriesToStorage, loadSavedQueries. simpl. fold kept.
  split; [apply sublist_filter|]. split.
  { intros q. unfold kept. rewrite list_elem_of_filter. tauto. }
  split.
  { rewrite lookup_insert_eq, decide_False by done. by rewrite Hparse. }
  split.
  - unfold kept. generalize (savedQueries world.1). intros l Hfresh.
    induction l as [|q l IH]; [done|].
    rewrite fmap_cons, not_elem_of_cons in Hfresh. destruct Hfresh as [Hq Hl].
    rewrite filter_cons, decide_True by done. by rewrite IH.
  - intros now1 now2 Hblank. unfold handleSaveQuery. by rewrite decide_True.
Qed.

(** X26.  A scalar value is exported as a quoted cell that reads back as the
    text of the value, whatever quotes, commas or line breaks the text holds;
    an object value is exported without any comma; a null or missing value is
    exported as the empty cell. *)
Theorem csvCell_reads_back (v : FieldValue) (sub : option (list SRecord)) :
  (v ≠ FNull →
   unquoteCell (csvCell JSON_stringifyValue numberToString (Some (RowScalar v)))
   = Some (RecordView.scalarToString numberToString v))
  ∧ ¬ hasChar commaChar
        (csvCell JSON_stringifyValue numberToString (Some (RowSubSelect sub)))
  ∧ csvCell JSON_stringifyValue numberToString None = EmptyString
  ∧ csvCell JSON_stringifyValue numberToString (Some (RowScalar FNull)) = EmptyString.
Proof.
  split; [|split; [|done]].
  - intros Hv.
    assert (csvCell JSON_stringifyValue numberToString (Some (RowScalar v))
            = String quoteChar
                (replaceAll quoteChar (quote +:+ quote)
                   (RecordView.scalarToString numberToString v) +:+ quote)) as ->.
    { by destruct v. }
    unfold unquoteCell. rewrite decide_True by done. apply unquoteBody_quoted.
  - simpl. apply replaceAll_removes. simpl. intros [Hc|[]]. discriminate Hc.
Qed.

(** X27.  Running a query with text in it leaves the explorer with either
    the results and no error, or an error and no results; the error message
    is never empty, the busy flag is cleared, and the query text and the saved
    queries are untouched. *)
Theorem handleExecute_outcome
    (executeSoql : string → string → string → completion Results)
    (metadata : OrgMetadata) (st : ExplorerState) :
  trim (query st) ≠ EmptyString →
  ((∃ found, results (handleExecute trim executeSoql metadata st) = Some found
             ∧ error (handleExecute trim executeSoql metadata st) = None
             ∧ executeSoql (instanceUrl metadata) (accessToken metadata) (query st)
               = Normal found)
   ∨ (∃ message, results (handleExecute trim executeSoql metadata st) = None
                 ∧ error (handleExecute trim executeSoql metadata st) = Some message
                 ∧ message ≠ EmptyString))
  ∧ loading (handleExecute trim executeSoql metadata st) = false
  ∧ query (handleExecute trim executeSoql metadata st) = query st
  ∧ savedQueries (handleExecute trim executeSoql metadata st) = savedQueries st.
Proof.
  intros Hquery. unfold handleExecute. rewrite decide_False by done.
  destruct (executeSoql _ _ _) as [found|message]; simpl.
  - split; [|done]. left. by exists found.
  - split; [|done]. right. eexists. split; [done|]. split; [done|].
    by case_decide.
Qed.

End query_explorer.

Lemma saved_query_survives_reload_witness :
  SoqlExplorer.savedQueries
    (SoqlExplorer.loadSavedQueries Fixtures.readNames
       (SoqlExplorer.handleSaveQuery Fixtures.namesOnly Fixtures.verbatim
          Fixtures.clockText 1700000000000 1700000000000
          (Fixtures.explorer "Open deals" [], ∅)).2
       (Fixtures.explorer EmptyString []))
  = [Fixtures.openDeals].
Proof.
  destruct (saved_query_survives_reload Fixtures.namesOnly Fixtures.readNames
              Fixtures.verbatim Fixtures.clockText 1700000000000 1700000000000
              (Fixtures.explorer "Open deals" [], ∅)
              (Fixtures.explorer EmptyString []))
    as (_ & Hreload & _).
  - discriminate.
  - discriminate.
  - reflexivity.
  - exact Hreload.
Defined.

Lemma deleted_query_stays_deleted_witness :
  SoqlExplorer.savedQueries
    (SoqlExplorer.loadSavedQueries Fixtures.readNames
       (SoqlExplorer.handleDeleteQuery Fixtures.namesOnly "1700000000000"
          (Fixtures.explorer EmptyString [Fixtures.openDeals], ∅)).2
       (Fixtures.explorer EmptyString [Fixtures.openDeals]))
  = SoqlExplorer.savedQueries
      (SoqlExplorer.handleDeleteQuery Fixtures.namesOnly "1700000000000"
         (Fixtures.explorer EmptyString [Fixtures.openDeals], ∅)).1.
Proof.
  destruct (deleted_query_stays_deleted Fixtures.namesOnly Fixtures.readNames
              Fixtures.verbatim Fixtures.clockText "1700000000000"
              (Fixtures.explorer EmptyString [Fixtures.openDeals], ∅)
              (Fixtures.explorer EmptyString [Fixtures.openDeals]))
    as (_ & _ & Hreload & _).
  - discriminate.
  - reflexivity.
  - exact Hreload.
Defined.

Lemma handleExecute_outcome_witness :
  SoqlExplorer.error
    (SoqlExplorer.handleExecute Fixtures.verbatim Fixtures.rejectSoql Samples.acme
       (Fixtures.explorer EmptyString []))
  ≠ Some EmptyString
  ∧ SoqlExplorer.loading
      (SoqlExplorer.handleExecute Fixtures.verbatim Fixtures.rejectSoql Samples.acme
         (Fixtures.explorer EmptyString [])) = false.
Proof.
  destruct (handleExecute_outcome Fixtures.verbatim Fixtures.rejectSoql Samples.acme
              (Fixtures.explorer EmptyString []))
    as ([(found & _ & Herror & _)|(message & _ & Herror & Hfilled)] & Hloading & _).
  - discriminate.
  - split; [|exact Hloading]. rewrite Herror. discriminate.
  - split; [|exact Hloading]. rewrite Herror. intros [= Hempty]. exact (Hfilled Hempty).
Defined.

(** * Further properties: the assistant *)

Section assistant.

Import Assistant.

Variable API_KEY : option string.
Variable sendMessage :
  string → string → list (string * string) → string → completion (option string).
Variable trim : string → string.
Variable numberText : Z → string.

(** X28.  [chatWithOrgData] never throws and never answers with the empty
    text.  Without an API key the answer is the apology, whatever the chat
    service would have said; a rejected request gives the apology too; an
    answer without text gives "I couldn't generate a response."; any other
    answer is passed on unchanged. *)
Theorem chatWithOrgData_always_answers (message : string)
    (history : list (string * string)) (metadata : OrgMetadata) :
  let apology :=
    "I apologize, but I'm having trouble connecting to the AI service right now. Please ensure your API key is valid." in
  (∃ answer, chatWithOrgData API_KEY sendMessage message history metadata = Normal answer
             ∧ answer ≠ EmptyString)
  ∧ (API_KEY = None ∨ API_KEY = Some EmptyString →
     chatWithOrgData API_KEY sendMessage message history metadata = Normal apology)
  ∧ (∀ key, API_KEY = Some key → key ≠ EmptyString →
       chatWithOrgData API_KEY sendMessage message history metadata
       = Normal
           match sendMessage "gemini-3-flash-preview" (contextSummary metadata)
                   history message with
           | Throw _ => apology
           | Normal None | Normal (Some EmptyString) => "I couldn't generate a response."
           | Normal (Some answer) => answer
           end).
Proof.
  intros apology. unfold chatWithOrgData, getAiClient, try_catch, mbind,
    completion_bind, bind.
  split; [|split].
  - destruct (decide (or_else API_KEY EmptyString = EmptyString)); simpl;
      [by eexists|].
    destruct (sendMessage _ _ _ _) as [result|]; simpl; [|by eexists].
    eexists. split; [done|]. by apply or_else_filled.
  - intros [-> | ->]; done.
  - intros key -> Hkey.
    assert (or_else (Some key) EmptyString = key) as ->.
    { unfold or_else. by case_decide. }
    rewrite decide_False by done. simpl.
    destruct (sendMessage _ _ _ _) as [[[|c answer]|]|]; done.
Qed.

Lemma sliceLast_suffix {A} (n : nat) (l : list A) :
  sliceLast n l `suffix_of` l ∧ length (sliceLast n l) = (n `min` length l)%nat.
Proof.
  unfold sliceLast. split; [apply suffix_drop|]. rewrite length_drop. lia.
Qed.

(** X29.  Sending a message that is not blank while no request is pending
    always completes: the transcript grows by the user's message and one
    reply that is not empty, in that order, the input is cleared and the
    pending flag is off again.  The reply is the assistant's answer to the
    input with, as history, the roles and contents of the last ten messages of
    the transcript as it was before (all of them when there are fewer).  A
    blank input or a pending request changes nothing. *)
Theorem handleSend_appends_exchange (metadata : OrgMetadata)
    (now1 date1 now2 date2 : Z) (st : ChatState) :
  (trim (input st) ≠ EmptyString ∧ isLoading st = false →
   ∃ reply history,
     history `suffix_of` messages st
     ∧ length history = (10 `min` length (messages st))%nat
     ∧ chatWithOrgData API_KEY sendMessage (input st)
         (map (λ m, (role m, content m)) history) metadata = Normal reply
     ∧ reply ≠ EmptyString
     ∧ handleSend API_KEY sendMessage trim numberText metadata now1 date1 now2 date2 st
       = ({| input := EmptyString;
             messages :=
               messages st
               ++ [ {| msg_id := numberText now1; role := "user";
                       content := input st; timestamp := date1 |};
                    {| msg_id := numberText (now2 + 1); role := "model";
                       content := reply; timestamp := date2 |} ];
             isLoading := false |}, Normal tt))
  ∧ (trim (input st) = EmptyString ∨ isLoading st = true →
     handleSend API_KEY sendMessage trim numberText metadata now1 date1 now2 date2 st
     = (st, Normal tt)).
Proof.
  split.
  - intros [Hinput Hidle].
    destruct (chatWithOrgData_always_answers (input st)
                (map (λ m, (role m, content m)) (sliceLast 10 (messages st))) metadata)
      as ((reply & Hreply & Hfilled) & _).
    destruct (sliceLast_suffix 10 (messages st)) as [Hsuffix Hlength].
    exists reply, (sliceLast 10 (messages st)).
    split; [done|]. split; [done|]. split; [done|]. split; [done|].
    unfold handleSend. rewrite decide_False.
    2:{ intros [?|?]; [done|congruence]. }
    simpl. rewrite Hreply. by rewrite <- (assoc_L (++)).
  - intros Hskip. unfold handleSend. by rewrite decide_True.
Qed.

End assistant.

(** * Further properties: the session *)

Section session.

Import Session.

Variable authenticate : UserCredentials → completion OrgMetadata.

(** X30.  The console is shown exactly while both the user and the org data
    are set.  A successful login opens the console of the authenticated org
    on the tab that was active; a failed login leaves a logged-out session on
    the login screen with a banner that is not empty; logging out always
    returns to the login screen without a banner, and the next successful
    login opens the overview tab. *)
Theorem session_screens (creds : UserCredentials) (st : AppState) :
  (∀ data_, authenticate creds = Normal data_ →
     render (handleLogin authenticate creds st) = Console (orgName data_) (activeTab st))
  ∧ (∀ e, authenticate creds = Throw e → (user st = None ∨ orgData st = None) →
       ∃ banner, render (handleLogin authenticate creds st) = LoginScreen (Some banner)
                 ∧ banner ≠ EmptyString
                 ∧ (e ≠ EmptyString → banner = e))
  ∧ render (handleLogout st) = LoginScreen None
  ∧ (∀ data_, authenticate creds = Normal data_ →
       render (handleLogin authenticate creds (handleLogout st))
       = Console (orgName data_) "overview")
  ∧ loading (handleLogin authenticate creds st) = false.
Proof.
  split; [|split; [|split; [|split]]].
  - intros data_ Hdata. unfold handleLogin. by rewrite Hdata.
  - intros e He Hout. unfold handleLogin. rewrite He. unfold render. simpl.
    exists (if decide (e = EmptyString)
            then "Login failed. Please verify credentials and CORS settings." else e).
    split.
    + assert ((if decide (e = EmptyString)
                then "Login failed. Please verify credentials and CORS settings."
                else e) ≠ EmptyString) as Hbanner by (by case_decide).
      destruct Hout as [-> | ->]; [|destruct (user st)]; by rewrite decide_False.
    + split; by case_decide.
  - done.
  - intros data_ Hdata. unfold handleLogin. by rewrite Hdata.
  - unfold handleLogin. by destruct (authenticate creds).
Qed.

End session.
